(** * ZePU Hive client

    A shallow embedding of [zepu/distributed.py] (the [DistributedCluster]
    client of the Hive protocol) and of the guard of [zepu/wrapper.py]
    ([Cluster.load_program]), with the properties of sharding, framing and
    error handling proved about them.

    Python integers are [Z]; [bytes] objects are lists of [byte]; the
    cluster object and the sockets it owns live in one [world] that every
    method threads through a state-and-exception monad. *)

From Stdlib Require Import ZArith List String Lia.
From Stdlib Require Import Ascii.
From stdpp Require Import base list sorting strings pretty.
From coqutil Require Import Byte Word.LittleEndianList.
Local Open Scope Z_scope.

Abbreviation bytes := (list byte).

(** ** Exceptions and results *)

Inductive exn :=
| IndexError (msg : string)
| RuntimeError (msg : string)
| ConnectionError (msg : string)
| TypeError
| ArgumentError
| ZeroDivisionError
| StructError
| OSError.

Inductive result (A : Type) :=
| Ok (a : A)
| Raise (e : exn).
Arguments Ok {A} a.
Arguments Raise {A} e.

(** ** [struct]: native-mode packing

    The client calls [struct.pack] and [struct.unpack] with format strings
    that carry no byte-order prefix, so CPython uses native byte order, size
    and alignment.  The model is the layout of a little-endian LP64 host
    (x86-64, AArch64): every integer code is aligned to its own size, the
    padding is zero bytes, nothing is added after the last field. *)

Module PyStruct.

Inductive code :=
| uB      (* 'B' unsigned char *)
| pad_x   (* 'x' pad byte, consumes no argument *)
| uI      (* 'I' unsigned int *)
| uQ.     (* 'Q' unsigned long long *)

Definition size (c : code) : nat :=
  match c with uB => 1 | pad_x => 1 | uI => 4 | uQ => 8 end%nat.

(** Bytes of padding that bring offset [off] to a multiple of [a]. *)
Definition padding (off a : nat) : nat := ((a - off mod a) mod a)%nat.

Definition in_range (c : code) (v : Z) : bool :=
  (0 <=? v) && (v <? 2 ^ (8 * Z.of_nat (size c))).

Fixpoint pack_from (off : nat) (fmt : list code) (args : list Z) : option bytes :=
  match fmt with
  | [] => match args with [] => Some [] | _ :: _ => None end
  | pad_x :: fmt' => cons Byte.x00 <$> pack_from (S off) fmt' args
  | c :: fmt' =>
      match args with
      | [] => None
      | v :: args' =>
          if in_range c v then
            let p := padding off (size c) in
            (fun rest => repeat Byte.x00 p ++ le_split (size c) v ++ rest)
              <$> pack_from (off + p + size c) fmt' args'
          else None
      end
  end.

Fixpoint calcsize_from (off : nat) (fmt : list code) : nat :=
  match fmt with
  | [] => off
  | pad_x :: fmt' => calcsize_from (S off) fmt'
  | c :: fmt' => calcsize_from (off + padding off (size c) + size c) fmt'
  end.

Definition calcsize (fmt : list code) : nat := calcsize_from 0 fmt.

Fixpoint unpack_from (off : nat) (fmt : list code) (data : bytes) : list Z :=
  match fmt with
  | [] => []
  | pad_x :: fmt' => unpack_from (S off) fmt' (drop 1 data)
  | c :: fmt' =>
      let p := padding off (size c) in
      le_combine (take (size c) (drop p data))
        :: unpack_from (off + p + size c) fmt' (drop (p + size c) data)
  end.

(** [struct.pack(fmt, *args)]: [struct.error] on a wrong argument count
    or an argument outside the range of its code. *)
Definition pack (fmt : list code) (args : list Z) : result bytes :=
  match pack_from 0 fmt args with
  | Some b => Ok b
  | None => Raise StructError
  end.

(** [struct.unpack(fmt, data)]: [struct.error] unless [data] has exactly
    [calcsize(fmt)] bytes. *)
Definition unpack (fmt : list code) (data : bytes) : result (list Z) :=
  if Nat.eqb (length data) (calcsize fmt) then Ok (unpack_from 0 fmt data)
  else Raise StructError.

End PyStruct.
Import PyStruct.

(** ** Python sequences *)

(** [l[i]] with Python's negative indexing. *)
Definition py_getitem {A : Type} (l : list A) (i : Z) : result A :=
  let j := if 0 <=? i then i else Z.of_nat (length l) + i in
  if j <? 0 then Raise (IndexError "list index out of range")
  else match l !! Z.to_nat j with
       | Some a => Ok a
       | None => Raise (IndexError "list index out of range")
       end.

(** [range(n)] *)
Definition range (n : Z) : list Z := Z.of_nat <$> seq 0 (Z.to_nat n).

(** [enumerate(l)] *)
Definition enumerate {A : Type} (l : list A) : list (Z * A) :=
  imap (fun i a => (Z.of_nat i, a)) l.

(** ** The world: the cluster object and its connections *)

(** What crosses the connections, in order: a [sendall] of a whole buffer,
    and every byte handed over by a [recv]. *)
Inductive event :=
| Sent (fd : nat) (data : bytes)
| Received (fd : nat) (b : byte).

(** An entry of [self.nodes]: [{'sock': s, 'addr': node_str, 'vcpu_count': n}].
    The socket object is a handle into the world's connections. *)
Record node := Node {
  sock : nat;
  addr : string;
  vcpu_count : Z }.

(** [inbox] holds, per socket, the bytes its peer sends before it closes the
    connection.  [short_read fd pending bufsize] is the environment's say in
    how many of them one [recv(bufsize)] hands over; whatever it answers is
    clamped to between one byte and what was asked for and is there. *)
Record world := World {
  nodes : list node;
  vcpu_map : list (Z * Z);
  inbox : list bytes;
  short_read : nat -> bytes -> nat -> nat;
  trace : list event }.

Definition set_nodes (ns : list node) (w : world) : world :=
  World ns (vcpu_map w) (inbox w) (short_read w) (trace w).
Definition set_vcpu_map (m : list (Z * Z)) (w : world) : world :=
  World (nodes w) m (inbox w) (short_read w) (trace w).
Definition set_inbox (ib : list bytes) (w : world) : world :=
  World (nodes w) (vcpu_map w) ib (short_read w) (trace w).
Definition set_trace (t : list event) (w : world) : world :=
  World (nodes w) (vcpu_map w) (inbox w) (short_read w) t.

(** ** The monad of methods: state that survives a raised exception *)

Definition M (A : Type) : Type := world -> result A * world.

Definition ret {A : Type} (a : A) : M A := fun w => (Ok a, w).
Definition raise {A : Type} (e : exn) : M A := fun w => (Raise e, w).
Definition bind {A B : Type} (m : M A) (k : A -> M B) : M B :=
  fun w => match m w with
           | (Ok a, w') => k a w'
           | (Raise e, w') => (Raise e, w')
           end.
Definition lift {A : Type} (r : result A) : M A := fun w => (r, w).
Definition gets {A : Type} (f : world -> A) : M A := fun w => (Ok (f w), w).
Definition modify (f : world -> world) : M unit := fun w => (Ok tt, f w).

Declare Scope py_scope.
Delimit Scope py_scope with py.
Notation "x <- m ;; k" := (bind m (fun x => k))
  (at level 100, m at next level, right associativity) : py_scope.
Notation "m ;;; k" := (bind m (fun _ => k))
  (at level 100, right associativity) : py_scope.
Local Open Scope py_scope.

(** [for a in l: body(a)] *)
Fixpoint for_each {A : Type} (l : list A) (body : A -> M unit) : M unit :=
  match l with
  | [] => ret tt
  | a :: l' => body a ;;; for_each l' body
  end.

(** ** Sockets *)

(** [sock.sendall(data)] *)
Definition sendall (fd : nat) (data : bytes) : M unit :=
  modify (fun w => set_trace (trace w ++ [Sent fd data]) w).

(** [sock.recv(bufsize)]: the empty packet once the peer has closed. *)
Definition recv (fd : nat) (bufsize : nat) : M bytes := fun w =>
  match inbox w !! fd with
  | None => (Raise OSError, w)
  | Some pending =>
      let avail := Nat.min bufsize (length pending) in
      let got := Nat.min avail (Nat.max 1 (short_read w fd pending bufsize)) in
      let packet := take got pending in
      (Ok packet,
       set_trace (trace w ++ (Received fd <$> packet))
         (set_inbox (<[fd := drop got pending]> (inbox w)) w))
  end.

(** ** distributed.py *)

Definition CMD_PING : Z := 0.
Definition CMD_SPAWN_VCPU : Z := 1.
Definition CMD_LOAD_PROG : Z := 2.
Definition CMD_RUN_CLUSTER : Z := 3.
Definition CMD_READ_MEM : Z := 4.
Definition CMD_WRITE_MEM : Z := 5.
Definition CMD_GET_STATS : Z := 6.

Definition magic : Z := 0x56435055.

(** [_send_cmd(self, sock, cmd, payload)] *)
Definition _send_cmd (s : nat) (cmd : Z) (payload : bytes) : M unit :=
  let req_id := 0 in
  header <- lift (pack [uI; uI; uI; uI] [magic; cmd; req_id; Z.of_nat (length payload)]) ;;
  sendall s (header ++ payload).

(** The [while len(data) < n] loop of [_recv_all].  Every turn either raises
    or adds at least one byte, so [n] turns are always enough; [fuel] counts
    the turns left. *)
Fixpoint _recv_all_loop (fuel : nat) (s : nat) (n : nat) (data : bytes) : M bytes :=
  match fuel with
  | O => ret data
  | S fuel' =>
      if (length data <? n)%nat then
        packet <- recv s (n - length data) ;;
        match packet with
        | [] => raise (ConnectionError "Socket closed")
        | _ :: _ => _recv_all_loop fuel' s n (data ++ packet)
        end
      else ret data
  end.

(** [_recv_all(self, sock, n)] *)
Definition _recv_all (s : nat) (n : nat) : M bytes := _recv_all_loop n s n [].

(** [_recv_resp(self, sock)]: [None] is [None], a payload is [Some]. *)
Definition _recv_resp (s : nat) : M (option bytes) :=
  header_data <- _recv_all s 12 ;;
  fields <- lift (unpack [uI; uI; uI] header_data) ;;
  match fields with
  | [status; req_id; length] =>
      if negb (status =? 200) then
        raise (RuntimeError ("Remote Error: " +:+ pretty status))
      else if 0 <? length then
        data <- _recv_all s (Z.to_nat length) ;; ret (Some data)
      else ret None
  | _ => raise StructError
  end.

(** [node['vcpu_count'] += count] on the node at index [i] of [self.nodes]. *)
Definition add_vcpu_count (i : Z) (count : Z) : M unit :=
  modify (fun w =>
    set_nodes
      (alter (fun nd => Node (sock nd) (addr nd) (vcpu_count nd + count))
             (Z.to_nat i) (nodes w)) w).

(** [self.vcpu_map.append(entry)] *)
Definition append_vcpu_map (entry : Z * Z) : M unit :=
  modify (fun w => set_vcpu_map (vcpu_map w ++ [entry]) w).

(** [spawn(self, total_vcpus, memory_size_kb)]: first the body of its loop
    over [enumerate(self.nodes)], then the method.  [global_id] is counted
    by the source and never read; the prints are left out. *)
Definition spawn_body (count_per_node remainder memory_size_kb : Z)
    (entry : Z * node) : M unit :=
  let '(i, nd) := entry in
  let count := count_per_node + (if i <? remainder then 1 else 0) in
  if count =? 0 then ret tt else
  payload <- lift (pack [uI; uI] [count; memory_size_kb]) ;;
  _send_cmd (sock nd) CMD_SPAWN_VCPU payload ;;;
  _recv_resp (sock nd) ;;;
  for_each (range count) (fun local_id => append_vcpu_map (i, local_id)) ;;;
  add_vcpu_count i count.

Definition spawn (total_vcpus : Z) (memory_size_kb : Z) : M unit :=
  ns <- gets nodes ;;
  let len_nodes := Z.of_nat (length ns) in
  if len_nodes =? 0 then raise ZeroDivisionError else
  let count_per_node := total_vcpus / len_nodes in
  let remainder := total_vcpus mod len_nodes in
  for_each (enumerate ns) (spawn_body count_per_node remainder memory_size_kb).

(** An instruction as the callers pass it: [(opcode, reg1, reg2, immediate)]. *)
Definition instruction : Type := Z * Z * Z * Z.

(** The slot of one instruction: [struct.pack('BBBxI', instr[0], instr[1],
    instr[2], instr[3])]. *)
Definition encode_instruction (instr : instruction) : result bytes :=
  let '(opcode, reg1, reg2, imm) := instr in
  pack [uB; uB; uB; pad_x; uI] [opcode; reg1; reg2; imm].

(** The [for instr in instructions: instr_bytes += ...] loop, from the
    bytes gathered so far. *)
Fixpoint encode_program (instr_bytes : bytes) (instructions : list instruction)
  : result bytes :=
  match instructions with
  | [] => Ok instr_bytes
  | instr :: rest =>
      match encode_instruction instr with
      | Ok slot => encode_program (instr_bytes ++ slot) rest
      | Raise e => Raise e
      end
  end.

(** [load_program(self, vcpu_id, instructions)] *)
Definition load_program (vcpu_id : Z) (instructions : list instruction) : M unit :=
  m <- gets vcpu_map ;;
  if Z.of_nat (length m) <=? vcpu_id then raise (IndexError "vCPU ID out of range") else
  entry <- lift (py_getitem m vcpu_id) ;;
  let '(node_idx, local_id) := entry in
  ns <- gets nodes ;;
  nd <- lift (py_getitem ns node_idx) ;;
  header_payload <- lift (pack [uI; uI] [local_id; Z.of_nat (length instructions)]) ;;
  instr_bytes <- lift (encode_program [] instructions) ;;
  _send_cmd (sock nd) CMD_LOAD_PROG (header_payload ++ instr_bytes) ;;;
  _recv_resp (sock nd) ;;;
  ret tt.

(** [run_all(self, cycles)] *)
Definition run_all (cycles : Z) : M unit :=
  payload <- lift (pack [uQ] [cycles]) ;;
  ns <- gets nodes ;;
  for_each ns (fun nd =>
    _send_cmd (sock nd) CMD_RUN_CLUSTER payload ;;;
    _recv_resp (sock nd) ;;;
    ret tt).

(** [read_memory(self, vcpu_id, offset, size)] *)
Definition read_memory (vcpu_id : Z) (offset : Z) (size : Z) : M (option bytes) :=
  m <- gets vcpu_map ;;
  if Z.of_nat (length m) <=? vcpu_id then raise (IndexError "vCPU ID out of range") else
  entry <- lift (py_getitem m vcpu_id) ;;
  let '(node_idx, local_id) := entry in
  ns <- gets nodes ;;
  nd <- lift (py_getitem ns node_idx) ;;
  payload <- lift (pack [uI; uQ; uQ] [local_id; offset; size]) ;;
  _send_cmd (sock nd) CMD_READ_MEM payload ;;;
  resp_payload <- _recv_resp (sock nd) ;;
  ret resp_payload.

(** The dictionary [get_telemetry] returns. *)
Record telemetry := Telemetry {
  instructions : Z;
  gpu_offloads : Z }.

(** The loop of [get_telemetry], from the totals so far. *)
Fixpoint telemetry_loop (ns : list node) (total_instr total_gpu : Z) : M telemetry :=
  match ns with
  | [] => ret (Telemetry total_instr total_gpu)
  | nd :: ns' =>
      _send_cmd (sock nd) CMD_GET_STATS [] ;;;
      data <- _recv_resp (sock nd) ;;
      match data with
      | Some (b :: d) =>
          fields <- lift (unpack [uQ; uQ] (b :: d)) ;;
          match fields with
          | [instr; gpu] => telemetry_loop ns' (total_instr + instr) (total_gpu + gpu)
          | _ => raise StructError
          end
      | _ => telemetry_loop ns' total_instr total_gpu
      end
  end.

(** [get_telemetry(self)] *)
Definition get_telemetry : M telemetry :=
  ns <- gets nodes ;;
  telemetry_loop ns 0 0.

(** ** wrapper.py: the local cluster

    The engine is a C library reached through [ctypes]; the model keeps the
    one field of the cluster structure that [load_program] reads and the
    calls made into the library, in order. *)

Module Wrapper.

(** What a caller may put in the [instructions] list. *)
Inductive instr_arg :=
| AsDict (op r1 r2 imm : option Z)   (* a dict, with the keys it has *)
| AsSeq (fields : list Z)            (* a list or a tuple *)
| AsOther.                           (* anything else is passed over *)

Inductive engine_call :=
| vcpu_cluster_execute_parallel (cycles : Z)
| vcpu_create_instruction (opcode reg1 reg2 immediate : Z)
| vcpu_load_program (vcpu : Z) (count : Z) (address : Z).

Record Cluster := MkCluster {
  vcpu_count : Z;                    (* self.obj.contents.vcpu_count *)
  engine_calls : list engine_call }.

Definition call (c : engine_call) (self : Cluster) : Cluster :=
  MkCluster (vcpu_count self) (engine_calls self ++ [c]).

(** How ctypes hands a Python int to a parameter declared [c_uint8],
    [c_uint32] or [c_uint64]: reduced to the width, with no range check. *)
Definition c_uint8 (v : Z) : Z := v mod 2 ^ 8.
Definition c_uint32 (v : Z) : Z := v mod 2 ^ 32.
Definition c_uint64 (v : Z) : Z := v mod 2 ^ 64.

(** An int passed beyond the declared [argtypes] is converted only when it
    fits an [unsigned long] or a [long]. *)
Definition fits_undeclared (v : Z) : bool := (- 2 ^ 63 <=? v) && (v <? 2 ^ 64).

(** The most arguments ctypes takes in one call. *)
Definition CTYPES_MAX_ARGCOUNT : nat := 1024.

(** A call of [_lib.vcpu_create_instruction] with the arguments [args],
    through its prototype of
    [argtypes = [c_uint8, c_uint8, c_uint8, c_uint32]].  The library is
    loaded with [CDLL], so the function is cdecl: fewer arguments than
    declared are a [TypeError], more are accepted and converted as
    undeclared; an argument that cannot be converted, or more than
    [CTYPES_MAX_ARGCOUNT] of them, is a [ctypes.ArgumentError].  The engine
    is called only when every argument has been converted, and sees the four
    declared ones. *)
Definition create_instruction (args : list Z) (self : Cluster)
  : result unit * Cluster :=
  match args with
  | opcode :: reg1 :: reg2 :: immediate :: surplus =>
      if (length args <=? CTYPES_MAX_ARGCOUNT)%nat
         && forallb fits_undeclared surplus
      then (Ok tt,
            call (vcpu_create_instruction (c_uint8 opcode) (c_uint8 reg1)
                    (c_uint8 reg2) (c_uint32 immediate)) self)
      else (Raise ArgumentError, self)
  | _ => (Raise TypeError, self)
  end.

(** The [for i, instr in enumerate(instructions)] loop that fills [c_arr]. *)
Fixpoint fill_c_arr (instructions : list instr_arg) (self : Cluster)
  : result unit * Cluster :=
  match instructions with
  | [] => (Ok tt, self)
  | AsDict op r1 r2 imm :: rest =>
      match create_instruction
              [default 0 op; default 0 r1; default 0 r2; default 0 imm] self with
      | (Ok _, self') => fill_c_arr rest self'
      | (Raise e, self') => (Raise e, self')
      end
  | AsSeq fields :: rest =>
      match create_instruction fields self with
      | (Ok _, self') => fill_c_arr rest self'
      | (Raise e, self') => (Raise e, self')
      end
  | AsOther :: rest => fill_c_arr rest self
  end.

(** [Cluster.load_program(self, vcpu_id, instructions)].  For a negative
    [vcpu_id] the guard passes and [vcpus[vcpu_id]] reads before the array:
    which pointer the engine is then given is not the wrapper's to say, and
    the call is recorded under the index asked for. *)
Definition load_program (vcpu_id : Z) (instructions : list instr_arg)
    (self : Cluster) : result unit * Cluster :=
  if vcpu_count self <=? vcpu_id then
    (Raise (IndexError "vCPU ID out of range"), self)
  else
    match fill_c_arr instructions self with
    | (Ok _, self') =>
        (Ok tt, call (vcpu_load_program vcpu_id
                        (Z.of_nat (length instructions)) 0) self')
    | (Raise e, self') => (Raise e, self')
    end.

(** [Cluster.run(self, cycles)] *)
Definition run (cycles : Z) (self : Cluster) : result unit * Cluster :=
  (Ok tt, call (vcpu_cluster_execute_parallel (c_uint64 cycles)) self).

End Wrapper.

(** ** Vocabulary of the specification *)

(** The bytes still unread on a connection. *)
Definition pending (fd : nat) (w : world) : bytes := default [] (inbox w !! fd).

(** The world once the next [n] pending bytes of [fd] have been read. *)
Definition consumed (fd : nat) (n : nat) (w : world) : world :=
  set_trace (trace w ++ (Received fd <$> take n (pending fd w)))
    (set_inbox (<[fd := drop n (pending fd w)]> (inbox w)) w).

(** The world once [data] has been sent on [fd]. *)
Definition sent (fd : nat) (data : bytes) (w : world) : world :=
  set_trace (trace w ++ [Sent fd data]) w.

(** A Hive request as section 6 lays it out: the 16-byte header, then the
    payload. *)
Definition hive_request (command : Z) (payload : bytes) : bytes :=
  le_split 4 magic ++ le_split 4 command ++ le_split 4 0
    ++ le_split 4 (Z.of_nat (length payload)) ++ payload.

(** A Hive response as section 6 lays it out: the 12-byte header, then the
    payload. *)
Definition hive_response (status request_id : Z) (payload : bytes) : bytes :=
  le_split 4 status ++ le_split 4 request_id
    ++ le_split 4 (Z.of_nat (length payload)) ++ payload.

(** A request is framed when it is a header for some command followed by
    the payload the header announces. *)
Definition framed (data : bytes) : Prop :=
  exists command payload,
    0 <= command < 2 ^ 32 /\ Z.of_nat (length payload) < 2 ^ 32
    /\ data = hive_request command payload.

Definition framed_event (e : event) : Prop :=
  match e with
  | Sent _ data => framed data
  | Received _ _ => True
  end.

(** The trace only grows, and by framed requests and received bytes. *)
Definition trace_grows (w w' : world) : Prop :=
  exists evs, trace w' = trace w ++ evs /\ Forall framed_event evs.

(** The cluster object is as it was. *)
Definition same_cluster (w w' : world) : Prop :=
  nodes w' = nodes w /\ vcpu_map w' = vcpu_map w.

(** The sharding map only grows at its end. *)
Definition map_grows (w w' : world) : Prop :=
  exists extra, vcpu_map w' = vcpu_map w ++ extra.

(** A method keeps a relation between the world it starts in and the world
    it leaves, however it ends. *)
Definition keeps {A : Type} (R : world -> world -> Prop) (m : M A) : Prop :=
  forall w, R w (snd (m w)).

(** A method never ends in the exception [e]. *)
Definition never_raises {A : Type} (e : exn) (m : M A) : Prop :=
  forall w, fst (m w) <> Raise e.

(** What the range guard of [load_program] and [read_memory] raises. *)
Definition id_out_of_range : exn := IndexError "vCPU ID out of range".

(** A node whose count has grown by [count]. *)
Definition bump (count : Z) (nd : node) : node :=
  Node (sock nd) (addr nd) (vcpu_count nd + count).

(** The response to [GET_STATS] as section 6 words it: status 200 and the
    two counters, each a little-endian u64. *)
Definition stats_response (request_id instr gpu : Z) : bytes :=
  hive_response 200 request_id (le_split 8 instr ++ le_split 8 gpu).

(** The node has this report -- the request id it echoes and its two
    counters -- waiting on its socket. *)
Definition reports (w : world) (nd : node) (rp : Z * Z * Z) : Prop :=
  let '(request_id, instr, gpu) := rp in
  0 <= request_id < 2 ^ 32 /\ 0 <= instr < 2 ^ 64 /\ 0 <= gpu < 2 ^ 64
  /\ exists rest,
       inbox w !! sock nd = Some (stats_response request_id instr gpu ++ rest).

(** The exchange with one node: the request, then every byte of the
    response. *)
Definition stats_exchange (nd : node) (rp : Z * Z * Z) : list event :=
  let '(request_id, instr, gpu) := rp in
  Sent (sock nd) (hive_request CMD_GET_STATS [])
    :: (Received (sock nd) <$> stats_response request_id instr gpu).

(** The public methods of [DistributedCluster], as a caller invokes them. *)
Inductive method :=
| Spawn (total_vcpus memory_size_kb : Z)
| LoadProgram (vcpu_id : Z) (program : list instruction)
| RunAll (cycles : Z)
| ReadMemory (vcpu_id offset size : Z)
| GetTelemetry.

Definition invoke (c : method) : M unit :=
  match c with
  | Spawn total_vcpus memory_size_kb => spawn total_vcpus memory_size_kb
  | LoadProgram vcpu_id program => load_program vcpu_id program
  | RunAll cycles => run_all cycles
  | ReadMemory vcpu_id offset size => read_memory vcpu_id offset size ;;; ret tt
  | GetTelemetry => get_telemetry ;;; ret tt
  end.

(** The share of node [i] among [M] nodes, in the words of section 4.5. *)
Definition shard_count (total M : Z) (i : Z) : Z :=
  if i <? total mod M then total / M + 1 else total / M.

(** The entries of node [i]: local ids [0 .. count-1], in order. *)
Definition shard_block (i : Z) (count : Z) : list (Z * Z) :=
  (fun local_id => (i, local_id)) <$> range count.

(** The entries of one [spawn] over [M] nodes: the blocks in node order. *)
Definition shard_entries (M : nat) (total : Z) : list (Z * Z) :=
  flat_map (fun i : nat => shard_block (Z.of_nat i)
                             (shard_count total (Z.of_nat M) (Z.of_nat i)))
           (seq 0 M).

(** The node indices of the entries of one [spawn] over [M] nodes: the index
    of node [i] as many times as its share, node after node. *)
Definition segment_nodes (M : nat) (total : Z) : list Z :=
  flat_map (fun i : nat =>
              replicate (Z.to_nat (shard_count total (Z.of_nat M) (Z.of_nat i)))
                (Z.of_nat i))
           (seq 0 M).

Definition Zsum (l : list Z) : Z := foldr Z.add 0 l.

(** Node indices never go down along the map. *)
Definition nondecreasing_nodes (m : list (Z * Z)) : Prop :=
  forall j k a b, (j <= k)%nat -> m !! j = Some a -> m !! k = Some b -> a.1 <= b.1.

(** Every node has a success response waiting on a socket of its own. *)
Definition nodes_acknowledge (w : world) : Prop :=
  NoDup (sock <$> nodes w) /\
  forall nd, nd ∈ nodes w ->
    exists request_id payload rest,
      inbox w !! sock nd = Some (hive_response 200 request_id payload ++ rest)
      /\ 0 <= request_id < 2 ^ 32 /\ Z.of_nat (length payload) < 2 ^ 32.

(** A history of calls on one cluster in which every [spawn] asked for a
    count that is not negative and returned; [totals] lists what the spawns
    asked for.  The other methods may end either way. *)
Inductive history : world -> list Z -> world -> Prop :=
| history_nil w : history w [] w
| history_spawn w total mem w1 totals w2 :
    0 <= total ->
    spawn total mem w = (Ok tt, w1) ->
    history w1 totals w2 ->
    history w (total :: totals) w2
| history_load w vcpu_id program totals w2 :
    history (snd (load_program vcpu_id program w)) totals w2 ->
    history w totals w2
| history_run w cycles totals w2 :
    history (snd (run_all cycles w)) totals w2 ->
    history w totals w2
| history_read w vcpu_id offset size totals w2 :
    history (snd (read_memory vcpu_id offset size w)) totals w2 ->
    history w totals w2
| history_telemetry w totals w2 :
    history (snd (get_telemetry w)) totals w2 ->
    history w totals w2.

(** Modelled from the spec: the decoder of an instruction slot.  It belongs
    to the engine, whose source is not part of the client; section 6 gives the
    slot as [{opcode:u8, reg_a:u8, reg_b:u8, pad:u8, immediate:u32 LE}]. *)
Definition decode_instruction (slot : bytes) : result instruction :=
  match slot with
  | [opcode; reg_a; reg_b; _; i0; i1; i2; i3] =>
      Ok (byte.unsigned opcode, byte.unsigned reg_a, byte.unsigned reg_b,
          le_combine [i0; i1; i2; i3])
  | _ => Raise StructError
  end.

(** The [READ_MEMORY] payload as section 6 words it: twenty bytes, the
    fields one after the other. *)
Definition read_memory_payload_packed (local_id offset size : Z) : bytes :=
  le_split 4 local_id ++ le_split 8 offset ++ le_split 8 size.

(** A response header with its payload. *)
Definition ack : bytes := hive_response 200 0 [].

(** ** Worlds to run the model on *)

(** Two nodes about to report 100 and 250 instructions, 1 and 2 offloads;
    reads come one byte at a time. *)
Definition two_reporting : world :=
  World [Node 0 "node1:6000" 1; Node 1 "node2:6000" 1] [(0, 0); (1, 0)]
        [stats_response 0 100 1; stats_response 0 250 2]
        (fun _ _ _ => 1%nat) [].


(** Three nodes, each about to acknowledge two requests; reads come five
    bytes at a time. *)
Definition three_nodes : world :=
  World [Node 0 "10.0.0.1:6000" 0; Node 1 "10.0.0.2:6000" 0;
         Node 2 "10.0.0.3:6000" 0]
        [] [ack ++ ack; ack ++ ack; ack ++ ack] (fun _ _ _ => 5%nat) [].

(** One node that hosts one vCPU and is about to answer a read with eight
    bytes; reads come three bytes at a time. *)
Definition one_vcpu : world :=
  World [Node 0 "127.0.0.1:6000" 1] [(0, 0)]
        [hive_response 200 0 (le_split 8 300)] (fun _ _ _ => 3%nat) [].

(** A node that answers with status 500 and a twelve-byte message, then
    acknowledges the next request. *)
Definition failing_node : world :=
  World [Node 0 "127.0.0.1:6000" 1] [(0, 0)]
        [hive_response 500 0 (le_split 4 404 ++ le_split 8 0) ++ ack]
        (fun _ _ _ => 7%nat) [].

(** A local cluster of four vCPUs. *)
Definition local_cluster : Wrapper.Cluster := Wrapper.MkCluster 4 [].

(** Every entry of the map names a connected node and a local id that node
    has been asked to spawn. *)
Definition routable (w : world) : Prop :=
  (forall nd, nd ∈ nodes w -> 0 <= vcpu_count nd)
  /\ forall node_idx local_id,
       (node_idx, local_id) ∈ vcpu_map w ->
       0 <= node_idx
       /\ exists nd, nodes w !! Z.to_nat node_idx = Some nd
                     /\ 0 <= local_id < vcpu_count nd.

(** The global id of the first vCPU of node [i] after one spawn of [total]
    over [M] nodes. *)
Definition block_start (total M : Z) (i : Z) : Z :=
  i * (total / M) + Z.min i (total mod M).

(** An instruction whose fields fit the slot: three bytes and a u32. *)
Definition fits_slot (instr : instruction) : Prop :=
  let '(opcode, reg1, reg2, imm) := instr in
  0 <= opcode < 2 ^ 8 /\ 0 <= reg1 < 2 ^ 8 /\ 0 <= reg2 < 2 ^ 8
  /\ 0 <= imm < 2 ^ 32.

(** The eight bytes of an instruction that fits. *)
Definition instruction_slot (instr : instruction) : bytes :=
  let '(opcode, reg1, reg2, imm) := instr in
  [byte.of_Z opcode; byte.of_Z reg1; byte.of_Z reg2; Byte.x00] ++ le_split 4 imm.

(** An event of the connection [s]. *)
Definition on_socket (s : nat) (e : event) : Prop :=
  match e with
  | Sent fd _ => fd = s
  | Received fd _ => fd = s
  end.

(** Between two worlds only the connection [s] has been used: what the
    trace has gained is on [s], and what is pending elsewhere is as it was. *)
Definition touches_only (s : nat) (w w' : world) : Prop :=
  (exists evs, trace w' = trace w ++ evs /\ Forall (on_socket s) evs)
  /\ forall s', s' <> s -> inbox w' !! s' = inbox w !! s'.

(** The node has this success response -- the request id it echoes and its
    payload -- waiting on its socket. *)
Definition answers (w : world) (nd : node) (resp : Z * bytes) : Prop :=
  let '(request_id, payload) := resp in
  0 <= request_id < 2 ^ 32 /\ Z.of_nat (length payload) < 2 ^ 32
  /\ exists rest,
       inbox w !! sock nd = Some (hive_response 200 request_id payload ++ rest).

(** The exchange of [run_all] with one node: the request, then every byte
    of the response. *)
Definition run_exchange (cycles : Z) (nd : node) (resp : Z * bytes) : list event :=
  let '(request_id, payload) := resp in
  Sent (sock nd) (hive_request CMD_RUN_CLUSTER (le_split 8 cycles))
    :: (Received (sock nd) <$> hive_response 200 request_id payload).

(** Three nodes of which the second answers with status 500. *)
Definition second_fails : world :=
  World [Node 0 "a:6000" 0; Node 1 "b:6000" 0; Node 2 "c:6000" 0] []
        [ack; hive_response 500 0 []; ack] (fun _ _ _ => 12%nat) [].

(** What a node has waiting for [get_telemetry]: a report of its two
    counters, or a success response with no payload at all. *)
Definition reports_or_silent (w : world) (nd : node)
    (rp : Z * option (Z * Z)) : Prop :=
  match rp with
  | (request_id, Some (instr, gpu)) => reports w nd (request_id, instr, gpu)
  | (request_id, None) => answers w nd (request_id, [])
  end.

(** The counters of a report, zero for a silent node. *)
Definition reported (rp : Z * option (Z * Z)) : Z * Z := default (0, 0) rp.2.

(** ** distributed.py: connecting

    [DistributedCluster.__init__] builds the cluster object.  What the
    network does is the environment's: [dial ip port] is how the [try]
    block around [socket.socket], [int(port)] and [connect] ends for an
    address -- [Some script] when it connects, to a peer that will send
    [script] before it closes, [None] when it raises -- and [cut] is how
    reads will be cut up. *)

Record network := Network {
  dial : string -> string -> option bytes;
  cut : nat -> bytes -> nat -> nat }.

(** [s.split(sep)] for a one-character separator. *)
Fixpoint split_on (sep : Ascii.ascii) (s : string) : list string :=
  match s with
  | EmptyString => [EmptyString]
  | String c s' =>
      if Ascii.eqb c sep then EmptyString :: split_on sep s'
      else match split_on sep s' with
           | piece :: pieces => String c piece :: pieces
           | [] => [String c EmptyString]
           end
  end.

(** How [__init__] ends: with the object, or in the [ValueError] of
    [ip, port = node_str.split(':')], or in another exception. *)
Inductive init_outcome :=
| Constructed (self : world)
| RaisedValueError
| Raised (e : exn).

(** The [for node_str in nodes] loop; [None] is the [ValueError]. *)
Fixpoint connect_loop (net : network) (addresses : list string) (w : world)
  : option world :=
  match addresses with
  | [] => Some w
  | node_str :: rest =>
      match split_on ":"%char node_str with
      | [ip; port] =>
          match dial net ip port with
          | Some script =>
              connect_loop net rest
                (set_inbox (inbox w ++ [script])
                   (set_nodes (nodes w ++ [Node (length (inbox w)) node_str 0]) w))
          | None => connect_loop net rest w
          end
      | _ => None
      end
  end.

(** [__init__(self, nodes)] *)
Definition __init__ (net : network) (addresses : list string) : init_outcome :=
  match connect_loop net addresses (World [] [] [] (cut net) []) with
  | None => RaisedValueError
  | Some w =>
      match nodes w with
      | [] => Raised (ConnectionError "Could not connect to any worker nodes.")
      | _ :: _ => Constructed w
      end
  end.

(** What the peer of an address will send, if the address has the form
    [ip:port] and can be connected to. *)
Definition script_of (net : network) (node_str : string) : option bytes :=
  match split_on ":"%char node_str with
  | [ip; port] => dial net ip port
  | _ => None
  end.

(** The address splits at its one colon. *)
Definition well_formed (node_str : string) : Prop :=
  exists ip port, split_on ":"%char node_str = [ip; port].

(** A network where the port 6000 of "10.0.0.1" and "10.0.0.3" answers with
    two acknowledgements and nothing else can be reached. *)
Definition two_of_three_up : network :=
  Network (fun ip port =>
             if (String.eqb port "6000"
                 && (String.eqb ip "10.0.0.1" || String.eqb ip "10.0.0.3"))%bool
             then Some (ack ++ ack) else None)
          (fun _ _ _ => 5%nat).

(** The exchange of [spawn] with node [i]: nothing when its share is empty,
    otherwise the request with the share and the memory size, then every
    byte of the response. *)
Definition spawn_exchange (total M mem : Z) (i : nat) (entry : node * (Z * bytes))
  : list event :=
  let '(nd, (request_id, payload)) := entry in
  if shard_count total M (Z.of_nat i) =? 0 then []
  else Sent (sock nd)
         (hive_request CMD_SPAWN_VCPU
            (le_split 4 (shard_count total M (Z.of_nat i)) ++ le_split 4 mem))
       :: (Received (sock nd) <$> hive_response 200 request_id payload).

(** The cluster that [__init__] builds when the first and the third of
    three addresses connect. *)
Definition two_connected : world :=
  World [Node 0 "10.0.0.1:6000" 0; Node 1 "10.0.0.3:6000" 0] []
        [ack ++ ack; ack ++ ack] (cut two_of_three_up) [].

(** An entry of [instructions] that the loop of [Cluster.load_program] can
    hand to the engine or pass over: a dict, anything that is neither a dict
    nor a sequence, or a sequence of at least the four declared fields and
    at most [CTYPES_MAX_ARGCOUNT], whose surplus fields fit an undeclared
    argument. *)
Definition convertible (a : Wrapper.instr_arg) : Prop :=
  match a with
  | Wrapper.AsSeq fields =>
      (4 <= length fields <= Wrapper.CTYPES_MAX_ARGCOUNT)%nat
      /\ Forall (fun v => - 2 ^ 63 <= v < 2 ^ 64) (drop 4 fields)
  | _ => True
  end.

(** What the engine is given for one instruction: the fields reduced to the
    widths of the prototype. *)
Definition created (opcode reg1 reg2 immediate : Z) : Wrapper.engine_call :=
  Wrapper.vcpu_create_instruction (opcode mod 256) (reg1 mod 256) (reg2 mod 256)
    (immediate mod 4294967296).

(** The [vcpu_create_instruction] calls for a list of entries: one for each
    dict, with 0 for a missing key, one for each sequence, from its first
    four fields, none for anything else. *)
Definition creates (instructions : list Wrapper.instr_arg)
  : list Wrapper.engine_call :=
  flat_map (fun a =>
              match a with
              | Wrapper.AsDict op r1 r2 imm =>
                  [created (default 0 op) (default 0 r1) (default 0 r2)
                     (default 0 imm)]
              | Wrapper.AsSeq (op :: r1 :: r2 :: imm :: _) => [created op r1 r2 imm]
              | _ => []
              end)
           instructions.

(** The values the engine can be given for an instruction. *)
Definition engine_instruction (c : Wrapper.engine_call) : Prop :=
  match c with
  | Wrapper.vcpu_create_instruction opcode reg1 reg2 immediate =>
      0 <= opcode < 256 /\ 0 <= reg1 < 256 /\ 0 <= reg2 < 256
      /\ 0 <= immediate < 2 ^ 32
  | _ => False
  end.

(** The peer of every address that connects opens with a response of status
    200 whose fields fit. *)
Definition peers_acknowledge (net : network) (addresses : list string) : Prop :=
  forall a script,
    a ∈ addresses -> script_of net a = Some script ->
    exists request_id payload rest,
      script = hive_response 200 request_id payload ++ rest
      /\ 0 <= request_id < 2 ^ 32 /\ Z.of_nat (length payload) < 2 ^ 32.

(** ** examples/gpu_server.py *)

Module GpuServer.

(** [struct.unpack('i', data)[0]]: a native int, four bytes, signed. *)
Definition unpack_i (data : bytes) : result Z :=
  if (length data =? 4)%nat then
    let u := le_combine data in
    Ok (if u <? 2 ^ 31 then u else u - 2 ^ 32)
  else Raise StructError.

(** The loop of [start_server] that serves one accepted connection [conn].
    What torch does with a size is not the server's: [compute size] is
    [None] when [randn], [matmul] and [synchronize] return for it, and the
    exception when one of them raises.  [fuel] counts the turns left. *)
Fixpoint serve_loop (compute : Z -> option exn) (fuel : nat) (conn : nat) : M unit :=
  match fuel with
  | O => ret tt
  | S fuel' =>
      data <- recv conn 4 ;;
      match data with
      | [] => ret tt
      | _ :: _ =>
          size <- lift (unpack_i data) ;;
          match compute size with
          | Some e => raise e
          | None => sendall conn [Byte.x01] ;;; serve_loop compute fuel' conn
          end
      end
  end.

(** Every turn that does not end the loop reads at least one byte, so one
    turn more than there are bytes pending is always enough. *)
Definition serve_connection (compute : Z -> option exn) (conn : nat) : M unit :=
  fun w => serve_loop compute (S (length (pending conn w))) conn w.

(** The events of one request served: its four bytes come in, the
    acknowledgement goes out. *)
Definition served (conn : nat) (size : Z) : list event :=
  (Received conn <$> le_split 4 size) ++ [Sent conn [Byte.x01]].

End GpuServer.

(** A connection on which one whole request is pending and every read
    delivers two bytes. *)
Definition fragmented : world :=
  World [] [] [le_split 4 256] (fun _ _ _ => 2%nat) [].

(** A connection on which three requests are pending and reads are whole. *)
Definition three_requests : world :=
  World [] [] [le_split 4 16 ++ le_split 4 256 ++ le_split 4 2]
        (fun _ _ bufsize => bufsize) [].

(** * Properties *)

(** ** [struct] *)

Lemma in_range_true c v :
  0 <= v < 2 ^ (8 * Z.of_nat (PyStruct.size c)) -> in_range c v = true.
Proof.
  intros [H0 H1]. unfold in_range.
  apply andb_true_intro. split; [apply Z.leb_le | apply Z.ltb_lt]; assumption.
Qed.

Lemma in_range_inv c v :
  in_range c v = true -> 0 <= v < 2 ^ (8 * Z.of_nat (PyStruct.size c)).
Proof.
  unfold in_range. intros H. apply andb_prop in H as [H0 H1].
  split; [apply Z.leb_le | apply Z.ltb_lt]; assumption.
Qed.

Ltac pack_steps :=
  unfold pack;
  repeat (cbn [pack_from fmap option_fmap option_map];
          rewrite in_range_true by assumption);
  cbn -[le_split].

Lemma pack_IIII a b c d :
  0 <= a < 2 ^ 32 -> 0 <= b < 2 ^ 32 -> 0 <= c < 2 ^ 32 -> 0 <= d < 2 ^ 32 ->
  pack [uI; uI; uI; uI] [a; b; c; d]
  = Ok (le_split 4 a ++ le_split 4 b ++ le_split 4 c ++ le_split 4 d).
Proof.
  intros Ha Hb Hc Hd. pack_steps. rewrite app_nil_r. reflexivity.
Qed.

Lemma pack_II a b :
  0 <= a < 2 ^ 32 -> 0 <= b < 2 ^ 32 ->
  pack [uI; uI] [a; b] = Ok (le_split 4 a ++ le_split 4 b).
Proof. intros Ha Hb. pack_steps. rewrite app_nil_r. reflexivity. Qed.

Lemma pack_Q a :
  0 <= a < 2 ^ 64 -> pack [uQ] [a] = Ok (le_split 8 a).
Proof. intros Ha. pack_steps. rewrite app_nil_r. reflexivity. Qed.

Lemma pack_IQQ a b c :
  0 <= a < 2 ^ 32 -> 0 <= b < 2 ^ 64 -> 0 <= c < 2 ^ 64 ->
  pack [uI; uQ; uQ] [a; b; c]
  = Ok (le_split 4 a ++ repeat Byte.x00 4 ++ le_split 8 b ++ le_split 8 c).
Proof. intros Ha Hb Hc. pack_steps. rewrite app_nil_r. reflexivity. Qed.

Lemma pack_BBBxI a b c d :
  0 <= a < 2 ^ 8 -> 0 <= b < 2 ^ 8 -> 0 <= c < 2 ^ 8 -> 0 <= d < 2 ^ 32 ->
  pack [uB; uB; uB; pad_x; uI] [a; b; c; d]
  = Ok ([byte.of_Z a; byte.of_Z b; byte.of_Z c; Byte.x00] ++ le_split 4 d).
Proof. intros Ha Hb Hc Hd. pack_steps. rewrite app_nil_r. reflexivity. Qed.

Lemma unpack_III (a b c : bytes) :
  length a = 4%nat -> length b = 4%nat -> length c = 4%nat ->
  unpack [uI; uI; uI] (a ++ b ++ c) = Ok [le_combine a; le_combine b; le_combine c].
Proof.
  intros Ha Hb Hc. unfold unpack.
  rewrite !length_app, Ha, Hb, Hc. cbn -[le_combine]. rewrite !drop_0.
  rewrite (take_app_length' a) by (symmetry; assumption).
  rewrite (drop_app_length' a) by (symmetry; assumption).
  rewrite (take_app_length' b) by (symmetry; assumption).
  rewrite (drop_app_length' b) by (symmetry; assumption).
  rewrite take_ge by lia. reflexivity.
Qed.

Lemma unpack_QQ (a b : bytes) :
  length a = 8%nat -> length b = 8%nat ->
  unpack [uQ; uQ] (a ++ b) = Ok [le_combine a; le_combine b].
Proof.
  intros Ha Hb. unfold unpack.
  rewrite !length_app, Ha, Hb. cbn -[le_combine]. rewrite !drop_0.
  rewrite (take_app_length' a) by (symmetry; assumption).
  rewrite (drop_app_length' a) by (symmetry; assumption).
  rewrite take_ge by lia. reflexivity.
Qed.

Lemma le_combine_split_small (n : nat) (z : Z) :
  0 <= z < 2 ^ (Z.of_nat n * 8) -> le_combine (le_split n z) = z.
Proof. intros Hz. rewrite le_combine_split. apply Z.mod_small. assumption. Qed.

(** ** Reading from a connection *)

Lemma consumed_0 fd w : consumed fd 0 w = w.
Proof.
  unfold consumed, pending. rewrite take_0, drop_0, fmap_nil, app_nil_r.
  destruct (inbox w !! fd) as [p|] eqn:E; simpl.
  - rewrite list_insert_id by assumption. destruct w; reflexivity.
  - rewrite list_insert_ge by (apply lookup_ge_None; assumption).
    destruct w; reflexivity.
Qed.

Lemma pending_consumed fd n w :
  pending fd (consumed fd n w) = drop n (pending fd w).
Proof.
  unfold consumed, pending. simpl.
  destruct (inbox w !! fd) as [p|] eqn:E; simpl.
  - rewrite list_lookup_insert_eq by (eapply lookup_lt_Some; eassumption).
    reflexivity.
  - rewrite list_insert_ge by (apply lookup_ge_None; assumption).
    rewrite E. simpl. rewrite drop_nil. reflexivity.
Qed.

Lemma consumed_add fd a b w :
  consumed fd b (consumed fd a w) = consumed fd (a + b) w.
Proof.
  unfold consumed at 1. rewrite pending_consumed.
  unfold consumed, set_trace, set_inbox. simpl.
  rewrite list_insert_insert_eq, drop_drop, <- app_assoc, <- fmap_app.
  rewrite take_take_drop. reflexivity.
Qed.

Lemma recv_some fd k w p :
  inbox w !! fd = Some p ->
  let got := Nat.min (Nat.min k (length p)) (Nat.max 1 (short_read w fd p k)) in
  recv fd k w = (Ok (take got p), consumed fd got w).
Proof.
  intros Hp got. unfold recv, consumed, pending. rewrite Hp. reflexivity.
Qed.

Lemma inbox_consumed fd n w p :
  inbox w !! fd = Some p -> inbox (consumed fd n w) !! fd = Some (drop n p).
Proof.
  intros Hp. unfold consumed, pending. rewrite Hp. simpl.
  apply list_lookup_insert_eq. eapply lookup_lt_Some; eassumption.
Qed.

(** The loop of [_recv_all] when the bytes asked for are all to come: it
    returns them, however the reads are cut up, and takes no more. *)
Lemma recv_all_loop_ok s n : forall fuel data w p,
  inbox w !! s = Some p ->
  (n - length data <= fuel)%nat ->
  (n <= length data + length p)%nat ->
  _recv_all_loop fuel s n data w
  = (Ok (data ++ take (n - length data) p), consumed s (n - length data) w).
Proof.
  induction fuel as [|fuel IH]; intros data w p Hp Hfuel Hn.
  - replace (n - length data)%nat with 0%nat by lia.
    rewrite take_0, app_nil_r, consumed_0. reflexivity.
  - cbn [_recv_all_loop].
    destruct (length data <? n)%nat eqn:Hlt.
    + apply Nat.ltb_lt in Hlt. unfold bind.
      rewrite (recv_some _ _ _ _ Hp). cbv zeta.
      set (k := (n - length data)%nat) in *.
      set (got := Nat.min (Nat.min k (length p)) (Nat.max 1 (short_read w s p k))).
      assert (Hgot : (1 <= got <= k)%nat) by (subst got; lia).
      destruct (take got p) as [|b packet] eqn:Hpacket.
      { apply (f_equal length) in Hpacket. rewrite length_take in Hpacket.
        simpl in Hpacket. lia. }
      rewrite <- Hpacket.
      rewrite (IH _ _ (drop got p)).
      * rewrite length_app, length_take.
        replace (n - (length data + Nat.min got (length p)))%nat
          with (k - got)%nat by lia.
        rewrite consumed_add, <- app_assoc, take_take_drop.
        replace (got + (k - got))%nat with k by lia. reflexivity.
      * apply inbox_consumed. assumption.
      * rewrite length_app, length_take. lia.
      * rewrite length_app, length_take, length_drop. lia.
    + apply Nat.ltb_ge in Hlt.
      replace (n - length data)%nat with 0%nat by lia.
      rewrite take_0, app_nil_r, consumed_0. reflexivity.
Qed.

Lemma recv_all_ok s n w p :
  inbox w !! s = Some p -> (n <= length p)%nat ->
  _recv_all s n w = (Ok (take n p), consumed s n w).
Proof.
  intros Hp Hn. unfold _recv_all.
  rewrite (recv_all_loop_ok s n n [] w p Hp) by (simpl; lia).
  simpl. rewrite Nat.sub_0_r. reflexivity.
Qed.

(** When the peer closes before [n] bytes have come, the loop reads what
    there is and raises. *)
Lemma recv_all_loop_closed s n : forall fuel data w p,
  inbox w !! s = Some p ->
  (n - length data <= fuel)%nat ->
  (length data + length p < n)%nat ->
  _recv_all_loop fuel s n data w
  = (Raise (ConnectionError "Socket closed"), consumed s (length p) w).
Proof.
  induction fuel as [|fuel IH]; intros data w p Hp Hfuel Hn; [lia|].
  cbn [_recv_all_loop].
  destruct (length data <? n)%nat eqn:Hlt; [|apply Nat.ltb_ge in Hlt; lia].
  unfold bind. rewrite (recv_some _ _ _ _ Hp). cbv zeta.
  set (k := (n - length data)%nat) in *.
  set (got := Nat.min (Nat.min k (length p)) (Nat.max 1 (short_read w s p k))).
  destruct (take got p) as [|b packet] eqn:Hpacket.
  - apply (f_equal length) in Hpacket. rewrite length_take in Hpacket.
    simpl in Hpacket.
    assert (Hp0 : length p = 0%nat) by (subst got; lia).
    assert (Hg0 : got = 0%nat) by (subst got; lia).
    rewrite Hp0, Hg0. reflexivity.
  - rewrite <- Hpacket.
    assert (Hgot : (1 <= got <= length p)%nat).
    { apply (f_equal length) in Hpacket. rewrite length_take in Hpacket.
      simpl in Hpacket. subst got. lia. }
    rewrite (IH _ _ (drop got p)).
    + rewrite consumed_add, length_drop. f_equal. f_equal. lia.
    + apply inbox_consumed. assumption.
    + rewrite length_app, length_take. lia.
    + rewrite length_app, length_take, length_drop. lia.
Qed.

Lemma recv_all_closed s n w p :
  inbox w !! s = Some p -> (length p < n)%nat ->
  _recv_all s n w = (Raise (ConnectionError "Socket closed"), consumed s (length p) w).
Proof.
  intros Hp Hn. unfold _recv_all.
  apply recv_all_loop_closed; simpl; auto with lia.
Qed.

(** The fuel never decides: [_recv_all] returns exactly [n] bytes or
    raises. *)
Lemma recv_all_total s n w :
  (exists data, fst (_recv_all s n w) = Ok data /\ length data = n)
  \/ (exists e, fst (_recv_all s n w) = Raise e).
Proof.
  destruct (inbox w !! s) as [p|] eqn:Hp.
  - destruct (le_lt_dec n (length p)) as [Hle|Hlt].
    + left. rewrite (recv_all_ok _ _ _ _ Hp Hle). eexists.
      split; [reflexivity|]. apply length_take_le. assumption.
    + right. rewrite (recv_all_closed _ _ _ _ Hp Hlt). eexists. reflexivity.
  - destruct n as [|n].
    + left. exists []. split; reflexivity.
    + right. unfold _recv_all. cbn [_recv_all_loop length Nat.ltb Nat.leb].
      unfold bind, recv. rewrite Hp. eexists. reflexivity.
Qed.

(** ** Requests and responses *)

Lemma send_cmd_ok s cmd payload w :
  0 <= cmd < 2 ^ 32 -> Z.of_nat (length payload) < 2 ^ 32 ->
  _send_cmd s cmd payload w = (Ok tt, sent s (hive_request cmd payload) w).
Proof.
  intros Hcmd Hlen. unfold _send_cmd, bind, lift.
  rewrite pack_IIII by (unfold magic; lia).
  unfold sendall, modify, sent, hive_request.
  rewrite <- !app_assoc. reflexivity.
Qed.

(** What [_recv_resp] does once the twelve bytes of a header are there. *)
Lemma recv_resp_header s w status request_id len rest :
  inbox w !! s
  = Some (le_split 4 status ++ le_split 4 request_id ++ le_split 4 len ++ rest) ->
  0 <= status < 2 ^ 32 -> 0 <= request_id < 2 ^ 32 -> 0 <= len < 2 ^ 32 ->
  _recv_resp s w
  = (if negb (status =? 200) then
       raise (RuntimeError ("Remote Error: " +:+ pretty status))
     else if 0 <? len then
       data <- _recv_all s (Z.to_nat len) ;; ret (Some data)
     else ret None) (consumed s 12 w).
Proof.
  intros Hp Hst Hrid Hlen. unfold _recv_resp at 1, bind at 1.
  rewrite (recv_all_ok _ _ _ _ Hp)
    by (rewrite !length_app, !length_le_split; lia).
  rewrite !app_assoc.
  rewrite take_app_length' by (rewrite !length_app, !length_le_split; lia).
  rewrite <- !app_assoc.
  unfold bind, lift. rewrite unpack_III by apply length_le_split.
  rewrite !le_combine_split_small by assumption.
  reflexivity.
Qed.

Lemma pending_inbox fd w p : inbox w !! fd = Some p -> pending fd w = p.
Proof. intros Hp. unfold pending. rewrite Hp. reflexivity. Qed.

(** A response that reports an error: the header is read, the exception
    carries the status, the payload stays on the connection. *)
Lemma recv_resp_error s w status request_id payload rest :
  inbox w !! s = Some (hive_response status request_id payload ++ rest) ->
  0 <= status < 2 ^ 32 -> 0 <= request_id < 2 ^ 32 ->
  Z.of_nat (length payload) < 2 ^ 32 ->
  status <> 200 ->
  _recv_resp s w
  = (Raise (RuntimeError ("Remote Error: " +:+ pretty status)), consumed s 12 w).
Proof.
  intros Hp Hst Hrid Hlen Hne. unfold hive_response in Hp.
  rewrite <- !app_assoc in Hp.
  rewrite (recv_resp_header _ _ _ _ _ _ Hp) by lia.
  apply Z.eqb_neq in Hne. rewrite Hne. reflexivity.
Qed.

Lemma drop_header (a b c : Z) (rest : bytes) :
  drop 12 (le_split 4 a ++ le_split 4 b ++ le_split 4 c ++ rest) = rest.
Proof.
  rewrite (app_assoc (le_split 4 a)), (app_assoc (_ ++ _)).
  apply drop_app_length'. rewrite !length_app, !length_le_split. reflexivity.
Qed.

(** A response that reports success: the payload is read and returned,
    [None] standing for the empty one. *)
Lemma recv_resp_ok s w request_id payload rest :
  inbox w !! s = Some (hive_response 200 request_id payload ++ rest) ->
  0 <= request_id < 2 ^ 32 ->
  Z.of_nat (length payload) < 2 ^ 32 ->
  _recv_resp s w
  = (Ok (match payload with [] => None | _ :: _ => Some payload end),
     consumed s (12 + length payload) w).
Proof.
  intros Hp Hrid Hlen. unfold hive_response in Hp.
  rewrite <- !app_assoc in Hp.
  rewrite (recv_resp_header _ _ _ _ _ _ Hp) by lia.
  change (negb (200 =? 200)) with false. cbv iota.
  destruct payload as [|b payload].
  - change (0 <? Z.of_nat (length [])) with false. cbv iota.
    rewrite Nat.add_0_r. reflexivity.
  - replace (0 <? Z.of_nat (length (b :: payload))) with true
      by (symmetry; apply Z.ltb_lt; simpl length; lia).
    unfold bind. rewrite Nat2Z.id.
    apply (inbox_consumed _ 12) in Hp. rewrite drop_header in Hp.
    rewrite (recv_all_ok _ _ _ _ Hp) by (rewrite length_app; lia).
    rewrite consumed_add, take_app_length. reflexivity.
Qed.

(** Whatever twelve bytes come first on the connection are taken for the
    header. *)
Lemma recv_resp_raw s w (p : bytes) :
  inbox w !! s = Some p -> (12 <= length p)%nat ->
  _recv_resp s w
  = (if negb (le_combine (take 4 p) =? 200) then
       raise (RuntimeError ("Remote Error: " +:+ pretty (le_combine (take 4 p))))
     else if 0 <? le_combine (take 4 (drop 8 p)) then
       data <- _recv_all s (Z.to_nat (le_combine (take 4 (drop 8 p)))) ;;
       ret (Some data)
     else ret None) (consumed s 12 w).
Proof.
  intros Hp Hlen. unfold _recv_resp at 1, bind at 1.
  rewrite (recv_all_ok _ _ _ _ Hp) by assumption.
  unfold bind, lift, unpack.
  rewrite length_take_le by assumption. cbn -[le_combine take drop].
  rewrite !drop_0, !drop_drop. cbn [Nat.add].
  rewrite take_take. cbn [Nat.min].
  replace (drop 8 (take 12 p)) with (take 4 (drop 8 p))
    by (rewrite take_drop_commute; reflexivity).
  rewrite take_take. cbn [Nat.min]. reflexivity.
Qed.

(** ** What the methods keep, however they end *)

Section Keeps.
Variable R : world -> world -> Prop.
Hypothesis R_refl : forall w, R w w.
Hypothesis R_trans : forall w1 w2 w3, R w1 w2 -> R w2 w3 -> R w1 w3.

Lemma keeps_ret {A} (a : A) : keeps R (ret a).
Proof. intros w. apply R_refl. Qed.

Lemma keeps_raise {A} e : keeps R (@raise A e).
Proof. intros w. apply R_refl. Qed.

Lemma keeps_lift {A} (r : result A) : keeps R (lift r).
Proof. intros w. apply R_refl. Qed.

Lemma keeps_gets {A} (f : world -> A) : keeps R (gets f).
Proof. intros w. apply R_refl. Qed.

Lemma keeps_bind {A B} (m : M A) (k : A -> M B) :
  keeps R m -> (forall a, keeps R (k a)) -> keeps R (bind m k).
Proof.
  intros Hm Hk w. unfold bind. specialize (Hm w).
  destruct (m w) as [[a|e] w1]; simpl in *; [|assumption].
  eapply R_trans; [eassumption | apply Hk].
Qed.

Lemma keeps_for_each {A} (l : list A) (body : A -> M unit) :
  (forall a, keeps R (body a)) -> keeps R (for_each l body).
Proof.
  intros Hbody. induction l as [|a l IH]; cbn [for_each].
  - apply keeps_ret.
  - apply keeps_bind; [apply Hbody | intros _; apply IH].
Qed.
End Keeps.

Ltac keeps_step Hrefl Htrans :=
  lazymatch goal with
  | |- keeps _ (bind _ _) => apply (keeps_bind _ Htrans); [|intros ?]
  | |- keeps _ (ret _) => apply (keeps_ret _ Hrefl)
  | |- keeps _ (raise _) => apply (keeps_raise _ Hrefl)
  | |- keeps _ (lift _) => apply (keeps_lift _ Hrefl)
  | |- keeps _ (gets _) => apply (keeps_gets _ Hrefl)
  | |- keeps _ (for_each _ _) => apply (keeps_for_each _ Hrefl Htrans); intros ?
  | |- keeps _ (if ?b then _ else _) => destruct b
  | |- keeps _ (match ?x with _ => _ end) => destruct x
  end.

Lemma trace_grows_refl w : trace_grows w w.
Proof. exists []. rewrite app_nil_r. split; [reflexivity | constructor]. Qed.

Lemma trace_grows_trans w1 w2 w3 :
  trace_grows w1 w2 -> trace_grows w2 w3 -> trace_grows w1 w3.
Proof.
  intros (evs1 & H1 & F1) (evs2 & H2 & F2). exists (evs1 ++ evs2).
  rewrite H2, H1, app_assoc. split; [reflexivity | apply Forall_app; auto].
Qed.

Lemma same_cluster_refl w : same_cluster w w.
Proof. split; reflexivity. Qed.

Lemma same_cluster_trans w1 w2 w3 :
  same_cluster w1 w2 -> same_cluster w2 w3 -> same_cluster w1 w3.
Proof. intros [A1 B1] [A2 B2]. split; congruence. Qed.

Lemma pack_IIII_inv a b c d h :
  pack [uI; uI; uI; uI] [a; b; c; d] = Ok h ->
  0 <= b < 2 ^ 32 /\ 0 <= d < 2 ^ 32
  /\ h = le_split 4 a ++ le_split 4 b ++ le_split 4 c ++ le_split 4 d.
Proof.
  unfold pack. cbn [pack_from fmap option_fmap option_map].
  destruct (in_range uI a) eqn:Ha; [|discriminate].
  cbn [pack_from fmap option_fmap option_map].
  destruct (in_range uI b) eqn:Hb; [|discriminate].
  cbn [pack_from fmap option_fmap option_map].
  destruct (in_range uI c) eqn:Hc; [|discriminate].
  cbn [pack_from fmap option_fmap option_map].
  destruct (in_range uI d) eqn:Hd; [|discriminate].
  cbn -[le_split]. intros [= <-].
  apply in_range_inv in Hb, Hd.
  split; [exact Hb | split; [exact Hd | reflexivity]].
Qed.

(** *** The trace *)

Lemma recv_trace fd k : keeps trace_grows (recv fd k).
Proof.
  intros w. unfold recv. destruct (inbox w !! fd) as [p|]; simpl.
  - eexists. split; [reflexivity|].
    apply Forall_fmap, Forall_true. intros b. exact Logic.I.
  - apply trace_grows_refl.
Qed.

Lemma send_cmd_trace s cmd payload : keeps trace_grows (_send_cmd s cmd payload).
Proof.
  intros w. unfold _send_cmd, bind, lift.
  destruct (pack _ _) as [h|e] eqn:Hpack; simpl.
  - apply pack_IIII_inv in Hpack as (Hcmd & Hlen & ->).
    exists [Sent s ((le_split 4 magic ++ le_split 4 cmd ++ le_split 4 0
                      ++ le_split 4 (Z.of_nat (length payload))) ++ payload)].
    split; [reflexivity|]. constructor; [|constructor].
    exists cmd, payload. unfold hive_request. rewrite <- !app_assoc.
    repeat split; lia.
  - apply trace_grows_refl.
Qed.

Lemma recv_all_loop_keeps R fuel s n :
  (forall w, R w w) -> (forall w1 w2 w3, R w1 w2 -> R w2 w3 -> R w1 w3) ->
  (forall k, keeps R (recv s k)) ->
  forall data, keeps R (_recv_all_loop fuel s n data).
Proof.
  intros Hrefl Htrans Hrecv.
  induction fuel as [|fuel IH]; intros data; cbn [_recv_all_loop].
  - apply (keeps_ret _ Hrefl).
  - repeat keeps_step Hrefl Htrans; auto.
Qed.

Lemma recv_resp_keeps R s :
  (forall w, R w w) -> (forall w1 w2 w3, R w1 w2 -> R w2 w3 -> R w1 w3) ->
  (forall k, keeps R (recv s k)) ->
  keeps R (_recv_resp s).
Proof.
  intros Hrefl Htrans Hrecv. unfold _recv_resp, _recv_all.
  repeat keeps_step Hrefl Htrans; auto using recv_all_loop_keeps.
Qed.

Lemma recv_resp_trace s : keeps trace_grows (_recv_resp s).
Proof.
  apply (recv_resp_keeps trace_grows s trace_grows_refl trace_grows_trans).
  intros k. apply recv_trace.
Qed.

Lemma append_vcpu_map_trace e : keeps trace_grows (append_vcpu_map e).
Proof.
  intros w. exists []. simpl. rewrite app_nil_r.
  split; [reflexivity | constructor].
Qed.

Lemma add_vcpu_count_trace i count : keeps trace_grows (add_vcpu_count i count).
Proof.
  intros w. exists []. simpl. rewrite app_nil_r.
  split; [reflexivity | constructor].
Qed.

Ltac trace_steps :=
  repeat first
    [ apply send_cmd_trace | apply recv_resp_trace
    | apply append_vcpu_map_trace | apply add_vcpu_count_trace
    | keeps_step trace_grows_refl trace_grows_trans ].

Lemma spawn_trace total mem : keeps trace_grows (spawn total mem).
Proof. unfold spawn, spawn_body. trace_steps. Qed.

Lemma load_program_trace vcpu_id program :
  keeps trace_grows (load_program vcpu_id program).
Proof. unfold load_program. trace_steps. Qed.

Lemma run_all_trace cycles : keeps trace_grows (run_all cycles).
Proof. unfold run_all. trace_steps. Qed.

Lemma read_memory_trace vcpu_id offset size :
  keeps trace_grows (read_memory vcpu_id offset size).
Proof. unfold read_memory. trace_steps. Qed.

Lemma telemetry_loop_trace ns : forall total_instr total_gpu,
  keeps trace_grows (telemetry_loop ns total_instr total_gpu).
Proof.
  induction ns as [|nd ns IH]; intros total_instr total_gpu;
    cbn [telemetry_loop]; trace_steps; apply IH.
Qed.

Lemma get_telemetry_trace : keeps trace_grows get_telemetry.
Proof. unfold get_telemetry. trace_steps. apply telemetry_loop_trace. Qed.

(** *** The cluster object *)

Lemma recv_cluster fd k : keeps same_cluster (recv fd k).
Proof.
  intros w. unfold recv. destruct (inbox w !! fd); split; reflexivity.
Qed.

Lemma send_cmd_cluster s cmd payload : keeps same_cluster (_send_cmd s cmd payload).
Proof.
  intros w. unfold _send_cmd, bind, lift.
  destruct (pack _ _); split; reflexivity.
Qed.

Lemma recv_resp_cluster s : keeps same_cluster (_recv_resp s).
Proof.
  apply (recv_resp_keeps same_cluster s same_cluster_refl same_cluster_trans).
  intros k. apply recv_cluster.
Qed.

Ltac cluster_steps :=
  repeat first
    [ apply send_cmd_cluster | apply recv_resp_cluster
    | keeps_step same_cluster_refl same_cluster_trans ].

Lemma load_program_cluster vcpu_id program :
  keeps same_cluster (load_program vcpu_id program).
Proof. unfold load_program. cluster_steps. Qed.

Lemma run_all_cluster cycles : keeps same_cluster (run_all cycles).
Proof. unfold run_all. cluster_steps. Qed.

Lemma read_memory_cluster vcpu_id offset size :
  keeps same_cluster (read_memory vcpu_id offset size).
Proof. unfold read_memory. cluster_steps. Qed.

Lemma telemetry_loop_cluster ns : forall total_instr total_gpu,
  keeps same_cluster (telemetry_loop ns total_instr total_gpu).
Proof.
  induction ns as [|nd ns IH]; intros total_instr total_gpu;
    cbn [telemetry_loop]; cluster_steps; apply IH.
Qed.

Lemma get_telemetry_cluster : keeps same_cluster get_telemetry.
Proof. unfold get_telemetry. cluster_steps. apply telemetry_loop_cluster. Qed.

(** ** Where the range guard's exception can come from *)

Section NeverRaises.
Variable e : exn.

Lemma never_ret {A} (a : A) : never_raises e (ret a).
Proof. intros w. discriminate. Qed.

Lemma never_gets {A} (f : world -> A) : never_raises e (gets f).
Proof. intros w. discriminate. Qed.

Lemma never_modify f : never_raises e (modify f).
Proof. intros w. discriminate. Qed.

Lemma never_raise {A} e' : e' <> e -> never_raises e (@raise A e').
Proof. intros Hne w. simpl. congruence. Qed.

Lemma never_lift {A} (r : result A) : r <> Raise e -> never_raises e (lift r).
Proof. intros Hne w. exact Hne. Qed.

Lemma never_bind {A B} (m : M A) (k : A -> M B) :
  never_raises e m -> (forall a, never_raises e (k a)) -> never_raises e (bind m k).
Proof.
  intros Hm Hk w. unfold bind. specialize (Hm w).
  destruct (m w) as [[a|e'] w1]; simpl in *; [apply Hk | congruence].
Qed.

Lemma never_for_each {A} (l : list A) (body : A -> M unit) :
  (forall a, never_raises e (body a)) -> never_raises e (for_each l body).
Proof.
  intros Hbody. induction l as [|a l IH]; cbn [for_each].
  - apply never_ret.
  - apply never_bind; [apply Hbody | intros _; apply IH].
Qed.
End NeverRaises.

Lemma pack_not_guard fmt args : pack fmt args <> Raise id_out_of_range.
Proof. unfold pack. destruct (pack_from 0 fmt args); discriminate. Qed.

Lemma unpack_not_guard fmt data : unpack fmt data <> Raise id_out_of_range.
Proof. unfold unpack. destruct (Nat.eqb _ _); discriminate. Qed.

Lemma getitem_not_guard {A} (l : list A) i : py_getitem l i <> Raise id_out_of_range.
Proof.
  unfold py_getitem. destruct (_ <? 0); [discriminate|].
  destruct (l !! _); discriminate.
Qed.

Lemma encode_program_not_guard program : forall acc,
  encode_program acc program <> Raise id_out_of_range.
Proof.
  induction program as [|[[[o a] b] i] program IH]; intros acc;
    cbn [encode_program]; [discriminate|].
  destruct (encode_instruction _) as [slot|e] eqn:He; [apply IH|].
  unfold encode_instruction in He. intros [= ->].
  exact (pack_not_guard _ _ He).
Qed.

Ltac never_step :=
  lazymatch goal with
  | |- never_raises _ (bind _ _) => apply never_bind; [|intros ?]
  | |- never_raises _ (ret _) => apply never_ret
  | |- never_raises _ (gets _) => apply never_gets
  | |- never_raises _ (modify _) => apply never_modify
  | |- never_raises _ (raise _) => apply never_raise; discriminate
  | |- never_raises _ (lift (pack _ _)) => apply never_lift, pack_not_guard
  | |- never_raises _ (lift (unpack _ _)) => apply never_lift, unpack_not_guard
  | |- never_raises _ (lift (py_getitem _ _)) => apply never_lift, getitem_not_guard
  | |- never_raises _ (lift (encode_program _ _)) =>
      apply never_lift, encode_program_not_guard
  | |- never_raises _ (for_each _ _) => apply never_for_each; intros ?
  | |- never_raises _ (if ?b then _ else _) => destruct b
  | |- never_raises _ (match ?x with _ => _ end) => destruct x
  end.

Lemma recv_not_guard fd k : never_raises id_out_of_range (recv fd k).
Proof. intros w. unfold recv. destruct (inbox w !! fd); discriminate. Qed.

Lemma send_cmd_not_guard s cmd payload :
  never_raises id_out_of_range (_send_cmd s cmd payload).
Proof. unfold _send_cmd, sendall. repeat never_step. Qed.

Lemma recv_all_loop_not_guard fuel s n : forall data,
  never_raises id_out_of_range (_recv_all_loop fuel s n data).
Proof.
  induction fuel as [|fuel IH]; intros data; cbn [_recv_all_loop];
    repeat first [apply recv_not_guard | apply IH | never_step].
Qed.

Lemma recv_resp_not_guard s : never_raises id_out_of_range (_recv_resp s).
Proof.
  unfold _recv_resp, _recv_all.
  repeat first [apply recv_all_loop_not_guard | never_step].
Qed.

(** ** The claims *)

(** C8: every request the client sends is a 16-byte header -- the magic
    0x56435055, the command, the request id and the payload length, each a
    little-endian u32 -- followed by exactly that many payload bytes.
    [_send_cmd] sends just that for every command and payload length that fit
    a u32, and in whatever a public method adds to the trace every [Sent] has
    that shape. *)
Theorem requests_are_framed :
  (forall s command payload w,
      0 <= command < 2 ^ 32 -> Z.of_nat (length payload) < 2 ^ 32 ->
      _send_cmd s command payload w
      = (Ok tt,
         set_trace
           (trace w ++
              [Sent s ((le_split 4 0x56435055 ++ le_split 4 command
                          ++ le_split 4 0
                          ++ le_split 4 (Z.of_nat (length payload)))
                         ++ payload)]) w))
  /\ (forall (c : method) (w : world),
        exists evs,
          trace (snd (invoke c w)) = trace w ++ evs
          /\ forall fd data, Sent fd data ∈ evs ->
               exists command payload,
                 0 <= command < 2 ^ 32
                 /\ Z.of_nat (length payload) < 2 ^ 32
                 /\ length data = (16 + length payload)%nat
                 /\ data = (le_split 4 0x56435055 ++ le_split 4 command
                              ++ le_split 4 0
                              ++ le_split 4 (Z.of_nat (length payload)))
                             ++ payload).
Proof.
  split.
  - intros s command payload w Hc Hl.
    rewrite send_cmd_ok by assumption.
    unfold sent, hive_request, magic. rewrite <- !app_assoc. reflexivity.
  - intros c w.
    assert (Hk : keeps trace_grows (invoke c)).
    { destruct c; cbn [invoke].
      - apply spawn_trace.
      - apply load_program_trace.
      - apply run_all_trace.
      - apply (keeps_bind _ trace_grows_trans);
          [apply read_memory_trace | intros; apply (keeps_ret _ trace_grows_refl)].
      - apply (keeps_bind _ trace_grows_trans);
          [apply get_telemetry_trace | intros; apply (keeps_ret _ trace_grows_refl)]. }
    destruct (Hk w) as (evs & Htr & Hfr). exists evs. split; [assumption|].
    intros fd data Hin. rewrite Forall_forall in Hfr.
    destruct (Hfr _ Hin) as (command & payload & Hc & Hl & ->).
    exists command, payload. unfold hive_request, magic.
    rewrite <- !app_assoc.
    repeat split; try lia;
      rewrite !length_app, !length_le_split; reflexivity.
Qed.

Lemma requests_are_framed_witness :
  _send_cmd 0 CMD_GET_STATS [] three_nodes
  = (Ok tt,
     set_trace
       [Sent 0 [Byte.x55; Byte.x50; Byte.x43; Byte.x56;
                Byte.x06; Byte.x00; Byte.x00; Byte.x00;
                Byte.x00; Byte.x00; Byte.x00; Byte.x00;
                Byte.x00; Byte.x00; Byte.x00; Byte.x00]] three_nodes).
Proof.
  apply (proj1 requests_are_framed 0%nat CMD_GET_STATS [] three_nodes);
    [unfold CMD_GET_STATS; lia | simpl; lia].
Defined.

(** C7: an id at or past the end of the sharding map (distributed client),
    or at or past the cluster's [vcpu_count] (local cluster), is rejected
    with [IndexError] before anything is sent and before any call into the
    engine: the world, the trace and the engine's call log are as they were. *)
Theorem out_of_range_rejected
    (vcpu_id local_vcpu_id : Z) (program : list instruction) (offset size : Z)
    (w : world) (instrs : list Wrapper.instr_arg) (self : Wrapper.Cluster) :
  Z.of_nat (length (vcpu_map w)) <= vcpu_id ->
  Wrapper.vcpu_count self <= local_vcpu_id ->
  load_program vcpu_id program w = (Raise (IndexError "vCPU ID out of range"), w)
  /\ read_memory vcpu_id offset size w
     = (Raise (IndexError "vCPU ID out of range"), w)
  /\ Wrapper.load_program local_vcpu_id instrs self
     = (Raise (IndexError "vCPU ID out of range"), self).
Proof.
  intros Hd Hl. apply Z.leb_le in Hd, Hl.
  unfold load_program, read_memory, Wrapper.load_program, bind, gets.
  rewrite Hd, Hl. auto.
Qed.

Lemma out_of_range_rejected_witness :
  load_program 1 [(5, 0, 0, 100)] one_vcpu
  = (Raise (IndexError "vCPU ID out of range"), one_vcpu)
  /\ read_memory 1 64 8 one_vcpu
     = (Raise (IndexError "vCPU ID out of range"), one_vcpu)
  /\ Wrapper.load_program 4 [Wrapper.AsSeq [5; 0; 0; 100]] local_cluster
     = (Raise (IndexError "vCPU ID out of range"), local_cluster).
Proof.
  apply (out_of_range_rejected 1 4 [(5, 0, 0, 100)] 64 8 one_vcpu
           [Wrapper.AsSeq [5; 0; 0; 100]] local_cluster);
    simpl; lia.
Defined.

Lemma getitem_negative {A} (l : list A) (i : Z) :
  - Z.of_nat (length l) <= i < 0 ->
  exists a, l !! Z.to_nat (Z.of_nat (length l) + i) = Some a
            /\ py_getitem l i = Ok a
            /\ py_getitem l (Z.of_nat (length l) + i) = Ok a.
Proof.
  intros Hi.
  destruct (lookup_lt_is_Some_2 l (Z.to_nat (Z.of_nat (length l) + i)))
    as [a Ha]; [lia|].
  exists a. split; [assumption|]. unfold py_getitem.
  replace (0 <=? i) with false by (symmetry; apply Z.leb_gt; lia).
  replace (0 <=? Z.of_nat (length l) + i) with true
    by (symmetry; apply Z.leb_le; lia).
  replace (Z.of_nat (length l) + i <? 0) with false
    by (symmetry; apply Z.ltb_ge; lia).
  rewrite Ha. auto.
Qed.

Lemma bind_gets {A B} (f : world -> A) (k : A -> M B) w :
  bind (gets f) k w = k (f w) w.
Proof. reflexivity. Qed.

(** The guard's exception comes from the guard alone. *)
Lemma load_program_guard_only vcpu_id program w :
  fst (load_program vcpu_id program w) = Raise id_out_of_range ->
  Z.of_nat (length (vcpu_map w)) <= vcpu_id.
Proof.
  unfold load_program. rewrite bind_gets.
  destruct (_ <=? _) eqn:Hg; [intros _; apply Z.leb_le; assumption|].
  intros H. exfalso. revert H.
  match goal with
  | |- fst (?m w) = _ -> _ => enough (H : never_raises id_out_of_range m) by apply H
  end.
  repeat first
    [apply send_cmd_not_guard | apply recv_resp_not_guard | never_step].
Qed.

Lemma read_memory_guard_only vcpu_id offset size w :
  fst (read_memory vcpu_id offset size w) = Raise id_out_of_range ->
  Z.of_nat (length (vcpu_map w)) <= vcpu_id.
Proof.
  unfold read_memory. rewrite bind_gets.
  destruct (_ <=? _) eqn:Hg; [intros _; apply Z.leb_le; assumption|].
  intros H. exfalso. revert H.
  match goal with
  | |- fst (?m w) = _ -> _ => enough (H : never_raises id_out_of_range m) by apply H
  end.
  repeat first
    [apply send_cmd_not_guard | apply recv_resp_not_guard | never_step].
Qed.

(** The last spawned vCPU answers to the id -1. *)
Example read_memory_minus_one :
  fst (read_memory (-1) 64 8 one_vcpu) = Ok (Some (le_split 8 300))
  /\ fst (read_memory 0 64 8 one_vcpu) = Ok (Some (le_split 8 300)).
Proof. split; reflexivity. Qed.

Lemma byte_of_Z_small (v : Z) : 0 <= v < 2 ^ 8 -> byte.unsigned (byte.of_Z v) = v.
Proof.
  intros Hv. rewrite byte.unsigned_of_Z. unfold byte.wrap.
  apply Z.mod_small. assumption.
Qed.

(** C3: for fields that fit their widths the encoder produces the eight
    bytes [opcode, reg_a, reg_b, 0] followed by the immediate as a
    little-endian u32, and decoding that slot gives the four fields back. *)
Theorem instruction_round_trip (opcode reg_a reg_b immediate : Z) :
  0 <= opcode < 2 ^ 8 -> 0 <= reg_a < 2 ^ 8 -> 0 <= reg_b < 2 ^ 8 ->
  0 <= immediate < 2 ^ 32 ->
  exists slot,
    encode_instruction (opcode, reg_a, reg_b, immediate) = Ok slot
    /\ slot = [byte.of_Z opcode; byte.of_Z reg_a; byte.of_Z reg_b; Byte.x00]
                ++ le_split 4 immediate
    /\ length slot = 8%nat
    /\ decode_instruction slot = Ok (opcode, reg_a, reg_b, immediate).
Proof.
  intros Ho Ha Hb Hi. eexists. split; [|split; [reflexivity|split]].
  - unfold encode_instruction. apply pack_BBBxI; assumption.
  - reflexivity.
  - pose proof (le_combine_split_small 4 immediate Hi) as Hc.
    pose proof (length_le_split 4 immediate) as Hl.
    destruct (le_split 4 immediate) as [|i0 [|i1 [|i2 [|i3 [|]]]]];
      try discriminate Hl.
    cbn [app decode_instruction].
    rewrite !byte_of_Z_small by assumption. rewrite Hc. reflexivity.
Qed.

Lemma instruction_round_trip_witness :
  exists slot,
    encode_instruction (5, 2, 0, 128) = Ok slot
    /\ slot = [byte.of_Z 5; byte.of_Z 2; byte.of_Z 0; Byte.x00] ++ le_split 4 128
    /\ length slot = 8%nat
    /\ decode_instruction slot = Ok (5, 2, 0, 128).
Proof. apply (instruction_round_trip 5 2 0 128); lia. Defined.

Lemma remote_error_inj (a b : Z) :
  "Remote Error: " +:+ pretty a = "Remote Error: " +:+ pretty b -> a = b.
Proof.
  intros H. apply (inj (String.app "Remote Error: ")) in H.
  apply (inj pretty) in H. assumption.
Qed.

(** C4: a response whose status is not 200 makes [_recv_resp] raise an
    error whose message carries the status in decimal -- different statuses
    give different errors -- and nothing is returned; a response with status
    200 is answered by its payload, [None] when the payload is empty. *)
Theorem recv_resp_status s w (status request_id : Z) (payload rest : bytes) :
  inbox w !! s = Some (hive_response status request_id payload ++ rest) ->
  0 <= status < 2 ^ 32 -> 0 <= request_id < 2 ^ 32 ->
  Z.of_nat (length payload) < 2 ^ 32 ->
  (status <> 200 ->
     fst (_recv_resp s w) = Raise (RuntimeError ("Remote Error: " +:+ pretty status))
     /\ forall other : Z,
          RuntimeError ("Remote Error: " +:+ pretty other)
          = RuntimeError ("Remote Error: " +:+ pretty status) -> other = status)
  /\ (status = 200 ->
        fst (_recv_resp s w)
        = Ok (match payload with [] => None | _ :: _ => Some payload end)).
Proof.
  intros Hp Hst Hrid Hlen. split.
  - intros Hne. rewrite (recv_resp_error _ _ _ _ _ _ Hp) by assumption.
    split; [reflexivity|]. intros other H. apply remote_error_inj. congruence.
  - intros ->. rewrite (recv_resp_ok _ _ _ _ _ Hp) by assumption. reflexivity.
Qed.

Lemma recv_resp_status_witness :
  (500 <> 200 ->
     fst (_recv_resp 0 failing_node) = Raise (RuntimeError ("Remote Error: " +:+ pretty 500))
     /\ forall other : Z,
          RuntimeError ("Remote Error: " +:+ pretty other)
          = RuntimeError ("Remote Error: " +:+ pretty 500) -> other = 500)
  /\ (500 = 200 ->
        fst (_recv_resp 0 failing_node)
        = Ok (match le_split 4 404 ++ le_split 8 0 with
              | [] => None
              | _ :: _ => Some (le_split 4 404 ++ le_split 8 0)
              end)).
Proof.
  apply (recv_resp_status 0 failing_node 500 0 (le_split 4 404 ++ le_split 8 0) ack);
    [reflexivity | lia | lia | simpl; lia].
Defined.

(** A status of 500 surfaces as the error "Remote Error: 500"; a status of
    200 with eight bytes of payload returns them. *)
Example recv_resp_500 :
  fst (_recv_resp 0 failing_node) = Raise (RuntimeError "Remote Error: 500")
  /\ fst (_recv_resp 0 one_vcpu) = Ok (Some (le_split 8 300)).
Proof. split; reflexivity. Qed.

(** C10: on a response whose status is not 200, [_recv_resp] raises when it
    has read the twelve bytes of the header and nothing more.  The payload
    the header announced stays on the connection, and the response to the
    next command sent on it is parsed from those bytes: its status is their
    first little-endian word, its length their third. *)
Theorem error_payload_left_unread
    s w (status request_id : Z) (payload rest : bytes) :
  inbox w !! s = Some (hive_response status request_id payload ++ rest) ->
  0 <= status < 2 ^ 32 -> 0 <= request_id < 2 ^ 32 ->
  Z.of_nat (length payload) < 2 ^ 32 ->
  status <> 200 ->
  _recv_resp s w
  = (Raise (RuntimeError ("Remote Error: " +:+ pretty status)), consumed s 12 w)
  /\ trace (consumed s 12 w)
     = trace w ++ (Received s <$> le_split 4 status ++ le_split 4 request_id
                                   ++ le_split 4 (Z.of_nat (length payload)))
  /\ pending s (consumed s 12 w) = payload ++ rest
  /\ forall command request,
       0 <= command < 2 ^ 32 -> Z.of_nat (length request) < 2 ^ 32 ->
       (12 <= length (payload ++ rest))%nat ->
       (_send_cmd s command request ;;; _recv_resp s) (consumed s 12 w)
       = (if negb (le_combine (take 4 (payload ++ rest)) =? 200) then
            raise (RuntimeError
                     ("Remote Error: "
                        +:+ pretty (le_combine (take 4 (payload ++ rest)))))
          else if 0 <? le_combine (take 4 (drop 8 (payload ++ rest))) then
            data <- _recv_all s
                      (Z.to_nat (le_combine (take 4 (drop 8 (payload ++ rest))))) ;;
            ret (Some data)
          else ret None)
           (consumed s 12 (sent s (hive_request command request) (consumed s 12 w))).
Proof.
  intros Hp Hst Hrid Hlen Hne.
  assert (Hleft : inbox (consumed s 12 w) !! s = Some (payload ++ rest)).
  { rewrite (inbox_consumed _ 12 _ _ Hp). unfold hive_response.
    rewrite <- !app_assoc, drop_header. reflexivity. }
  split; [apply (recv_resp_error _ _ _ _ _ _ Hp); assumption|].
  split; [|split].
  - unfold consumed at 1. simpl. rewrite (pending_inbox _ _ _ Hp).
    unfold hive_response. rewrite !app_assoc.
    rewrite <- (app_assoc _ payload rest).
    rewrite take_app_length'
      by (rewrite !length_app, !length_le_split; reflexivity).
    rewrite <- !app_assoc. reflexivity.
  - apply pending_inbox, Hleft.
  - intros command request Hc Hr Hlong. unfold bind at 1.
    rewrite send_cmd_ok by assumption.
    apply recv_resp_raw; assumption.
Qed.

Lemma error_payload_left_unread_witness :
  _recv_resp 0 failing_node
  = (Raise (RuntimeError ("Remote Error: " +:+ pretty 500)), consumed 0 12 failing_node)
  /\ pending 0 (consumed 0 12 failing_node) = (le_split 4 404 ++ le_split 8 0) ++ ack.
Proof.
  destruct (error_payload_left_unread 0 failing_node 500 0
              (le_split 4 404 ++ le_split 8 0) ack)
    as (Hraise & _ & Hpending & _);
    [reflexivity | lia | lia | simpl; lia | lia |].
  split; [exact Hraise | exact Hpending].
Defined.

(** The node answers the first request with status 500 and twelve bytes of
    payload, and the second with status 200.  The client reports the first
    error, then takes the stale payload for the second response and reports
    the status 404 that nobody sent. *)
Example stale_payload_misparsed :
  fst (_recv_resp 0 failing_node) = Raise (RuntimeError "Remote Error: 500")
  /\ fst (_recv_resp 0 (snd (_recv_resp 0 failing_node)))
     = Raise (RuntimeError "Remote Error: 404").
Proof. split; reflexivity. Qed.

(** ** The payload of [read_memory] *)

Lemma getitem_nonneg {A} (l : list A) (i : Z) (a : A) :
  0 <= i -> l !! Z.to_nat i = Some a -> py_getitem l i = Ok a.
Proof.
  intros Hi Ha. unfold py_getitem.
  replace (0 <=? i) with true by (symmetry; apply Z.leb_le; lia).
  replace (i <? 0) with false by (symmetry; apply Z.ltb_ge; lia).
  rewrite Ha. reflexivity.
Qed.

Lemma lookup_nonneg_lt {A} (l : list A) (i : Z) (a : A) :
  0 <= i -> l !! Z.to_nat i = Some a -> (Z.of_nat (length l) <=? i) = false.
Proof.
  intros Hi Ha. apply lookup_lt_Some in Ha. apply Z.leb_gt. lia.
Qed.

Lemma read_memory_sends w vcpu_id offset size node_idx local_id nd :
  0 <= vcpu_id -> vcpu_map w !! Z.to_nat vcpu_id = Some (node_idx, local_id) ->
  0 <= node_idx -> nodes w !! Z.to_nat node_idx = Some nd ->
  0 <= local_id < 2 ^ 32 -> 0 <= offset < 2 ^ 64 -> 0 <= size < 2 ^ 64 ->
  read_memory vcpu_id offset size w
  = (resp_payload <- _recv_resp (sock nd) ;; ret resp_payload)
      (sent (sock nd)
         (hive_request CMD_READ_MEM
            (le_split 4 local_id ++ repeat Byte.x00 4
               ++ le_split 8 offset ++ le_split 8 size)) w).
Proof.
  intros Hid Hentry Hidx Hnd Hl Ho Hs. unfold read_memory.
  rewrite bind_gets, (lookup_nonneg_lt _ _ _ Hid Hentry).
  unfold bind at 1, lift at 1. rewrite (getitem_nonneg _ _ _ Hid Hentry).
  rewrite bind_gets.
  unfold bind at 1, lift at 1. rewrite (getitem_nonneg _ _ _ Hidx Hnd).
  unfold bind at 1, lift at 1. rewrite pack_IQQ by assumption.
  unfold bind at 1. rewrite send_cmd_ok.
  - reflexivity.
  - unfold CMD_READ_MEM. lia.
  - rewrite !length_app, !length_le_split. simpl. lia.
Qed.

(** C2, as the code has it: the payload of a [read_memory] request is 24
    bytes -- the local id as a little-endian u32, four zero bytes that align
    what follows to eight, the offset and the size as little-endian u64. *)
Theorem read_memory_payload w vcpu_id offset size node_idx local_id nd :
  0 <= vcpu_id -> vcpu_map w !! Z.to_nat vcpu_id = Some (node_idx, local_id) ->
  0 <= node_idx -> nodes w !! Z.to_nat node_idx = Some nd ->
  0 <= local_id < 2 ^ 32 -> 0 <= offset < 2 ^ 64 -> 0 <= size < 2 ^ 64 ->
  exists payload rest,
    trace (snd (read_memory vcpu_id offset size w))
    = trace w ++ Sent (sock nd) (hive_request CMD_READ_MEM payload) :: rest
    /\ payload = le_split 4 local_id
                   ++ [Byte.x00; Byte.x00; Byte.x00; Byte.x00]
                   ++ le_split 8 offset ++ le_split 8 size
    /\ length payload = 24%nat.
Proof.
  intros Hid Hentry Hidx Hnd Hl Ho Hs.
  rewrite (read_memory_sends _ _ _ _ _ _ _ Hid Hentry Hidx Hnd Hl Ho Hs).
  assert (Hk : keeps trace_grows
                 (resp_payload <- _recv_resp (sock nd) ;; ret resp_payload)).
  { apply (keeps_bind _ trace_grows_trans);
      [apply recv_resp_trace | intros; apply (keeps_ret _ trace_grows_refl)]. }
  match goal with
  | |- context [snd (_ ?w')] => destruct (Hk w') as (evs & Htr & _)
  end.
  eexists. exists evs. split; [|split; [reflexivity|]].
  - rewrite Htr. unfold sent. simpl. rewrite <- app_assoc. reflexivity.
  - rewrite !length_app, !length_le_split. reflexivity.
Qed.

Lemma read_memory_payload_witness :
  exists payload rest,
    trace (snd (read_memory 0 128 8 one_vcpu))
    = trace one_vcpu ++ Sent 0 (hive_request CMD_READ_MEM payload) :: rest
    /\ payload = le_split 4 0 ++ [Byte.x00; Byte.x00; Byte.x00; Byte.x00]
                   ++ le_split 8 128 ++ le_split 8 8
    /\ length payload = 24%nat.
Proof.
  apply (read_memory_payload one_vcpu 0 128 8 0 0 (Node 0 "127.0.0.1:6000" 1));
    first [reflexivity | lia].
Defined.

(** C2, as the claim has it, fails: the request that [read_memory] sends
    does not carry the twenty-byte payload. *)
Lemma read_memory_payload_not_packed :
  ~ exists rest,
      trace (snd (read_memory 0 128 8 one_vcpu))
      = trace one_vcpu
          ++ Sent 0 (hive_request CMD_READ_MEM (read_memory_payload_packed 0 128 8))
          :: rest.
Proof. intros [rest H]. vm_compute in H. discriminate H. Qed.

(** ** The arithmetic of sharding *)

Lemma Zsum_app (l k : list Z) : Zsum (l ++ k) = Zsum l + Zsum k.
Proof. unfold Zsum. induction l as [|a l IH]; simpl; lia. Qed.

Lemma seq_snoc (start n : nat) : seq start (S n) = seq start n ++ [(start + n)%nat].
Proof. apply seq_S. Qed.

(** The code's count is the share of the specification. *)
Lemma count_is_share (total M i : Z) :
  total / M + (if i <? total mod M then 1 else 0) = shard_count total M i.
Proof. unfold shard_count. destruct (i <? total mod M); lia. Qed.

Lemma shard_count_bounds (total M i : Z) :
  0 <= total -> 0 < M -> 0 <= i -> 0 <= shard_count total M i <= total.
Proof.
  intros Ht HM Hi. unfold shard_count.
  pose proof (Z.div_mod total M ltac:(lia)) as Hdm.
  pose proof (Z.mod_pos_bound total M HM) as Hr.
  assert (Hq : 0 <= total / M) by (apply Z.div_pos; lia).
  destruct (i <? total mod M) eqn:Hlt.
  - apply Z.ltb_lt in Hlt. nia.
  - nia.
Qed.

(** The shares of the first [n] nodes. *)
Lemma shard_count_partial_sum (total M : Z) (n : nat) :
  Zsum ((fun i : nat => shard_count total M (Z.of_nat i)) <$> seq 0 n)
  = Z.of_nat n * (total / M) + Z.min (Z.of_nat n) (Z.max 0 (total mod M)).
Proof.
  unfold shard_count. generalize (total / M), (total mod M). intros q r.
  induction n as [|n IH].
  - simpl. lia.
  - rewrite seq_snoc, fmap_app, Zsum_app, IH, Nat2Z.inj_succ.
    cbn [fmap list_fmap Zsum foldr Nat.add].
    destruct (Z.of_nat n <? r) eqn:Hlt;
      [apply Z.ltb_lt in Hlt | apply Z.ltb_ge in Hlt]; lia.
Qed.

Lemma shard_count_sum (total : Z) (M : nat) :
  0 <= total -> (1 <= M)%nat ->
  Zsum ((fun i : nat => shard_count total (Z.of_nat M) (Z.of_nat i)) <$> seq 0 M)
  = total.
Proof.
  intros Ht HM. rewrite shard_count_partial_sum.
  pose proof (Z.div_mod total (Z.of_nat M) ltac:(lia)) as Hdm.
  pose proof (Z.mod_pos_bound total (Z.of_nat M) ltac:(lia)) as Hr.
  lia.
Qed.

(** How many of the first [n] nodes have the larger share. *)
Lemma shard_count_larger_partial (total M : Z) (n : nat) :
  length (List.filter (fun i : nat => shard_count total M (Z.of_nat i) =? total / M + 1)
            (seq 0 n))
  = Z.to_nat (Z.min (Z.of_nat n) (Z.max 0 (total mod M))).
Proof.
  unfold shard_count. generalize (total / M), (total mod M). intros q r.
  induction n as [|n IH].
  - simpl. lia.
  - rewrite seq_snoc, List.filter_app, length_app, IH, Nat2Z.inj_succ.
    cbn [List.filter Nat.add].
    destruct (Z.of_nat n <? r) eqn:Hlt;
      [apply Z.ltb_lt in Hlt | apply Z.ltb_ge in Hlt].
    + rewrite Z.eqb_refl. cbn [length]. lia.
    + replace (q =? q + 1) with false by (symmetry; apply Z.eqb_neq; lia).
      cbn [length]. lia.
Qed.

Lemma shard_count_larger (total : Z) (M : nat) :
  0 <= total -> (1 <= M)%nat ->
  length (List.filter
            (fun i : nat => shard_count total (Z.of_nat M) (Z.of_nat i)
                            =? total / Z.of_nat M + 1)
            (seq 0 M))
  = Z.to_nat (total mod Z.of_nat M).
Proof.
  intros Ht HM. rewrite shard_count_larger_partial.
  pose proof (Z.mod_pos_bound total (Z.of_nat M) ltac:(lia)) as Hr.
  f_equal. lia.
Qed.

Lemma length_range (n : Z) : length (range n) = Z.to_nat n.
Proof. unfold range. rewrite length_fmap, length_seq. reflexivity. Qed.

Lemma length_shard_block i count : length (shard_block i count) = Z.to_nat count.
Proof. unfold shard_block. rewrite length_fmap. apply length_range. Qed.

Lemma length_flat_map_sum {A B} (f : A -> list B) (l : list A) :
  Z.of_nat (length (flat_map f l)) = Zsum ((fun a => Z.of_nat (length (f a))) <$> l).
Proof.
  induction l as [|a l IH]; [reflexivity|].
  cbn [flat_map fmap list_fmap]. rewrite length_app, Nat2Z.inj_add, IH.
  reflexivity.
Qed.

Lemma length_shard_entries (M : nat) (total : Z) :
  0 <= total -> (1 <= M)%nat ->
  Z.of_nat (length (shard_entries M total)) = total.
Proof.
  intros Ht HM. unfold shard_entries. rewrite length_flat_map_sum.
  etransitivity; [|apply (shard_count_sum total M Ht HM)].
  f_equal. apply list_fmap_ext. intros j i Hi.
  apply lookup_seq in Hi as [-> Hj].
  rewrite length_shard_block.
  pose proof (shard_count_bounds total (Z.of_nat M) (Z.of_nat (0 + j))
                ltac:(lia) ltac:(lia) ltac:(lia)).
  lia.
Qed.

(** ** The loop of [spawn] *)

Lemma bind_ok_inv {A B} (m : M A) (k : A -> M B) w (b : B) w' :
  bind m k w = (Ok b, w') ->
  exists a w1, m w = (Ok a, w1) /\ k a w1 = (Ok b, w').
Proof.
  unfold bind. destruct (m w) as [[a|e] w1]; [eauto | discriminate].
Qed.

Lemma for_each_append i (l : list Z) : forall w,
  for_each l (fun local_id => append_vcpu_map (i, local_id)) w
  = (Ok tt, set_vcpu_map (vcpu_map w ++ ((fun local_id => (i, local_id)) <$> l)) w).
Proof.
  induction l as [|a l IH]; intros w.
  - simpl. rewrite app_nil_r. destruct w; reflexivity.
  - cbn [for_each]. unfold bind, append_vcpu_map at 1, modify.
    rewrite IH. unfold set_vcpu_map. simpl. rewrite <- app_assoc. reflexivity.
Qed.

(** One turn of the loop, when it ends normally: the node's block is
    appended and its count raised; nothing else of the cluster changes. *)
Lemma spawn_body_shape q r mem (i : Z) nd w w1 :
  spawn_body q r mem (i, nd) w = (Ok tt, w1) ->
  vcpu_map w1 = vcpu_map w ++ shard_block i (q + (if i <? r then 1 else 0))
  /\ nodes w1 = alter (bump (q + (if i <? r then 1 else 0))) (Z.to_nat i) (nodes w).
Proof.
  unfold spawn_body. set (count := q + (if i <? r then 1 else 0)).
  destruct (count =? 0) eqn:H0.
  - apply Z.eqb_eq in H0. rewrite H0. intros [= <-].
    unfold shard_block, range. simpl. rewrite app_nil_r. split; [reflexivity|].
    symmetry. apply list_alter_id. intros [s a c]. unfold bump. simpl.
    rewrite Z.add_0_r. reflexivity.
  - intros H.
    apply bind_ok_inv in H as (payload & wa & Hpack & H).
    unfold lift in Hpack. injection Hpack as Hpack <-.
    apply bind_ok_inv in H as ([] & wb & Hsend & H).
    apply bind_ok_inv in H as (resp & wc & Hrecv & H).
    apply bind_ok_inv in H as ([] & wd & Happ & H).
    rewrite for_each_append in Happ. injection Happ as <-.
    unfold add_vcpu_count, modify in H. injection H as <-.
    pose proof (send_cmd_cluster (sock nd) CMD_SPAWN_VCPU payload w) as [Hn1 Hm1].
    rewrite Hsend in Hn1, Hm1. simpl in Hn1, Hm1.
    pose proof (recv_resp_cluster (sock nd) wb) as [Hn2 Hm2].
    rewrite Hrecv in Hn2, Hm2. simpl in Hn2, Hm2.
    simpl. rewrite Hn2, Hn1, Hm2, Hm1. split; reflexivity.
Qed.

(** One turn of the loop, when the node acknowledges: it ends normally and
    leaves the other connections alone. *)
Lemma spawn_body_acked q r mem (i : Z) nd w request_id payload rest :
  inbox w !! sock nd = Some (hive_response 200 request_id payload ++ rest) ->
  0 <= request_id < 2 ^ 32 -> Z.of_nat (length payload) < 2 ^ 32 ->
  0 <= q + (if i <? r then 1 else 0) < 2 ^ 32 -> 0 <= mem < 2 ^ 32 ->
  exists w1,
    spawn_body q r mem (i, nd) w = (Ok tt, w1)
    /\ forall s, s <> sock nd -> inbox w1 !! s = inbox w !! s.
Proof.
  intros Hp Hrid Hlen Hcount Hmem.
  unfold spawn_body. set (count := q + (if i <? r then 1 else 0)) in *.
  destruct (count =? 0) eqn:H0; [exists w; split; [reflexivity | auto]|].
  unfold bind at 1, lift. rewrite pack_II by assumption.
  unfold bind at 1. rewrite send_cmd_ok
    by (unfold CMD_SPAWN_VCPU; rewrite ?length_app, ?length_le_split; simpl; lia).
  unfold bind at 1. erewrite recv_resp_ok; [|exact Hp|assumption|assumption].
  unfold bind at 1. rewrite for_each_append.
  eexists. split; [reflexivity|].
  intros s Hs. simpl. apply list_lookup_insert_ne. congruence.
Qed.

(** The loop from node [k] on, when it ends normally. *)
Lemma spawn_loop_shape q r mem : forall (l : list node) (k : nat) w w',
  for_each (imap (fun j nd => (Z.of_nat (k + j), nd)) l) (spawn_body q r mem) w
  = (Ok tt, w') ->
  vcpu_map w'
  = vcpu_map w
      ++ flat_map (fun j : nat => shard_block (Z.of_nat j)
                                    (q + (if Z.of_nat j <? r then 1 else 0)))
                  (seq k (length l))
  /\ length (nodes w') = length (nodes w)
  /\ forall j,
       nodes w' !! j
       = if bool_decide (k <= j < k + length l)%nat
         then bump (q + (if Z.of_nat j <? r then 1 else 0)) <$> nodes w !! j
         else nodes w !! j.
Proof.
  induction l as [|nd l IH]; intros k w w' H.
  - injection H as <-. simpl. rewrite app_nil_r.
    split; [reflexivity | split; [reflexivity|]].
    intros j. case_bool_decide; [lia | reflexivity].
  - cbn [imap for_each] in H.
    apply bind_ok_inv in H as ([] & w1 & Hbody & H).
    rewrite (imap_ext _ (fun j nd => (Z.of_nat (S k + j), nd))) in H
      by (intros; simpl; f_equal; lia).
    apply IH in H as (Hmap & Hlen & Hnodes).
    apply spawn_body_shape in Hbody as [Hmap1 Hnodes1].
    rewrite Nat.add_0_r, Nat2Z.id in *.
    split; [|split].
    + rewrite Hmap, Hmap1, <- app_assoc. reflexivity.
    + rewrite Hlen, Hnodes1. apply length_alter.
    + intros j. rewrite Hnodes, Hnodes1. cbn [length].
      destruct (decide (j = k)) as [->|Hne].
      * rewrite list_lookup_alter_eq.
        repeat case_bool_decide; try lia; reflexivity.
      * rewrite list_lookup_alter_ne by congruence.
        repeat case_bool_decide; try lia; reflexivity.
Qed.

(** The loop from node [k] on, when every node left acknowledges on a
    socket of its own. *)
Lemma spawn_loop_acked q r mem : forall (l : list node) (k : nat) w,
  NoDup (sock <$> l) ->
  (forall nd, nd ∈ l ->
     exists request_id payload rest,
       inbox w !! sock nd = Some (hive_response 200 request_id payload ++ rest)
       /\ 0 <= request_id < 2 ^ 32 /\ Z.of_nat (length payload) < 2 ^ 32) ->
  (forall j : nat, 0 <= q + (if Z.of_nat j <? r then 1 else 0) < 2 ^ 32) ->
  0 <= mem < 2 ^ 32 ->
  exists w',
    for_each (imap (fun j nd => (Z.of_nat (k + j), nd)) l) (spawn_body q r mem) w
    = (Ok tt, w').
Proof.
  induction l as [|nd l IH]; intros k w Hdup Hack Hcount Hmem.
  - exists w. reflexivity.
  - cbn [imap for_each]. rewrite fmap_cons in Hdup.
    apply NoDup_cons in Hdup as [Hfresh Hdup].
    destruct (Hack nd) as (rid & payload & rest & Hp & Hrid & Hlen);
      [apply list_elem_of_here|].
    destruct (spawn_body_acked q r mem (Z.of_nat (k + 0)) nd w rid payload rest)
      as (w1 & Hbody & Hframe); auto.
    unfold bind. rewrite Hbody.
    rewrite (imap_ext _ (fun j nd => (Z.of_nat (S k + j), nd)))
      by (intros; simpl; f_equal; lia).
    apply IH; auto.
    intros nd' Hin. rewrite Hframe.
    + apply Hack. apply list_elem_of_further. assumption.
    + intros Heq. apply Hfresh. rewrite <- Heq.
      apply list_elem_of_fmap_2. assumption.
Qed.

Lemma spawn_shape total mem w w' :
  spawn total mem w = (Ok tt, w') ->
  vcpu_map w' = vcpu_map w ++ shard_entries (length (nodes w)) total
  /\ length (nodes w') = length (nodes w)
  /\ forall j nd,
       nodes w !! j = Some nd ->
       nodes w' !! j
       = Some (bump (shard_count total (Z.of_nat (length (nodes w))) (Z.of_nat j)) nd).
Proof.
  unfold spawn. rewrite bind_gets.
  destruct (_ =? 0); [discriminate|]. intros H.
  apply (spawn_loop_shape _ _ _ (nodes w) 0) in H as (Hmap & Hlen & Hnodes).
  split; [|split].
  - rewrite Hmap. unfold shard_entries. f_equal.
    apply flat_map_ext. intros j. rewrite count_is_share. reflexivity.
  - assumption.
  - intros j nd Hj. rewrite Hnodes.
    rewrite bool_decide_eq_true_2 by (apply lookup_lt_Some in Hj; lia).
    rewrite Hj, count_is_share. reflexivity.
Qed.

Lemma spawn_succeeds total mem w :
  nodes_acknowledge w -> (1 <= length (nodes w))%nat ->
  0 <= total < 2 ^ 32 -> 0 <= mem < 2 ^ 32 ->
  exists w', spawn total mem w = (Ok tt, w').
Proof.
  intros [Hdup Hack] HM Ht Hmem. unfold spawn. rewrite bind_gets.
  replace (Z.of_nat (length (nodes w)) =? 0) with false
    by (symmetry; apply Z.eqb_neq; lia).
  apply (spawn_loop_acked _ _ _ (nodes w) 0); auto.
  intros j. rewrite count_is_share.
  pose proof (shard_count_bounds total (Z.of_nat (length (nodes w))) (Z.of_nat j)).
  lia.
Qed.

(** ** The shape of one spawn's entries *)

Lemma nondecreasing_of_sorted (m : list (Z * Z)) :
  StronglySorted (fun a b => a.1 <= b.1) m -> nondecreasing_nodes m.
Proof.
  induction 1 as [|x l Hl IH Hx]; intros j k a b Hjk Ha Hb.
  - rewrite lookup_nil in Ha. discriminate.
  - destruct j as [|j], k as [|k]; simpl in Ha, Hb; try lia.
    + injection Ha as <-. injection Hb as <-. lia.
    + injection Ha as <-. rewrite Forall_forall in Hx.
      apply Hx. eapply list_elem_of_lookup_2. eassumption.
    + eapply IH; [|eassumption|eassumption]. lia.
Qed.

Lemma shard_block_node i count e : e ∈ shard_block i count -> e.1 = i.
Proof.
  unfold shard_block. intros He.
  apply list_elem_of_fmap_1 in He as (l & -> & _). reflexivity.
Qed.

Lemma shard_block_sorted i count :
  StronglySorted (fun a b : Z * Z => a.1 <= b.1) (shard_block i count).
Proof.
  unfold shard_block. induction (range count) as [|l ls IH]; simpl.
  - constructor.
  - constructor; [assumption|].
    apply Forall_fmap, Forall_true. intros x. simpl. lia.
Qed.

Lemma blocks_from_node (count : nat -> Z) (n k : nat) e :
  e ∈ flat_map (fun j : nat => shard_block (Z.of_nat j) (count j)) (seq k n) ->
  Z.of_nat k <= e.1.
Proof.
  rewrite list_elem_of_In, in_flat_map. intros (j & Hj & He).
  apply in_seq in Hj. apply list_elem_of_In, shard_block_node in He. lia.
Qed.

Lemma blocks_sorted (count : nat -> Z) (n : nat) : forall k,
  StronglySorted (fun a b : Z * Z => a.1 <= b.1)
    (flat_map (fun j : nat => shard_block (Z.of_nat j) (count j)) (seq k n)).
Proof.
  induction n as [|n IH]; intros k; simpl.
  - constructor.
  - apply StronglySorted_app_2; [|apply shard_block_sorted|apply IH].
    intros x1 x2 H1 H2. apply shard_block_node in H1.
    apply blocks_from_node in H2. lia.
Qed.

Lemma filter_block_same i count :
  List.filter (fun e : Z * Z => e.1 =? i) (shard_block i count) = shard_block i count.
Proof.
  unfold shard_block. induction (range count) as [|l ls IH]; simpl.
  - reflexivity.
  - rewrite Z.eqb_refl. f_equal. exact IH.
Qed.

Lemma filter_block_other i j count :
  i <> j -> List.filter (fun e : Z * Z => e.1 =? i) (shard_block j count) = [].
Proof.
  intros Hne. unfold shard_block. induction (range count) as [|l ls IH]; simpl.
  - reflexivity.
  - replace (j =? i) with false by (symmetry; apply Z.eqb_neq; congruence).
    exact IH.
Qed.

Lemma filter_blocks (count : nat -> Z) (i n : nat) : forall k,
  List.filter (fun e : Z * Z => e.1 =? Z.of_nat i)
    (flat_map (fun j : nat => shard_block (Z.of_nat j) (count j)) (seq k n))
  = if bool_decide (k <= i < k + n)%nat then shard_block (Z.of_nat i) (count i) else [].
Proof.
  induction n as [|n IH]; intros k; simpl.
  - case_bool_decide; [lia | reflexivity].
  - rewrite List.filter_app, IH.
    destruct (decide (i = k)) as [->|Hne].
    + rewrite filter_block_same.
      rewrite bool_decide_eq_false_2 by lia.
      rewrite bool_decide_eq_true_2 by lia. apply app_nil_r.
    + rewrite filter_block_other by lia. simpl.
      repeat case_bool_decide; try lia; reflexivity.
Qed.

(** *** The map only grows *)

Lemma map_grows_refl w : map_grows w w.
Proof. exists []. rewrite app_nil_r. reflexivity. Qed.

Lemma map_grows_trans w1 w2 w3 :
  map_grows w1 w2 -> map_grows w2 w3 -> map_grows w1 w3.
Proof.
  intros [e1 H1] [e2 H2]. exists (e1 ++ e2). rewrite H2, H1, app_assoc.
  reflexivity.
Qed.

Lemma keeps_map_of_cluster {A} (m : M A) : keeps same_cluster m -> keeps map_grows m.
Proof.
  intros H w. destruct (H w) as [_ Hm]. exists []. rewrite Hm, app_nil_r.
  reflexivity.
Qed.

Lemma append_vcpu_map_map e : keeps map_grows (append_vcpu_map e).
Proof. intros w. exists [e]. reflexivity. Qed.

Lemma add_vcpu_count_map i count : keeps map_grows (add_vcpu_count i count).
Proof. intros w. exists []. simpl. rewrite app_nil_r. reflexivity. Qed.

Lemma spawn_map total mem : keeps map_grows (spawn total mem).
Proof.
  unfold spawn, spawn_body.
  repeat first
    [ apply keeps_map_of_cluster, send_cmd_cluster
    | apply keeps_map_of_cluster, recv_resp_cluster
    | apply append_vcpu_map_map | apply add_vcpu_count_map
    | keeps_step map_grows_refl map_grows_trans ].
Qed.

Lemma invoke_map (c : method) : keeps map_grows (invoke c).
Proof.
  destruct c; cbn [invoke].
  - apply spawn_map.
  - apply keeps_map_of_cluster, load_program_cluster.
  - apply keeps_map_of_cluster, run_all_cluster.
  - apply keeps_map_of_cluster, (keeps_bind _ same_cluster_trans);
      [apply read_memory_cluster | intros; apply (keeps_ret _ same_cluster_refl)].
  - apply keeps_map_of_cluster, (keeps_bind _ same_cluster_trans);
      [apply get_telemetry_cluster | intros; apply (keeps_ret _ same_cluster_refl)].
Qed.

Lemma three_nodes_acknowledge : nodes_acknowledge three_nodes.
Proof.
  split.
  - apply (bool_decide_unpack _). reflexivity.
  - intros nd Hnd. simpl in Hnd. exists 0, [], ack.
    repeat (apply elem_of_cons in Hnd as [->|Hnd];
            [split; [reflexivity | split; simpl; lia]|]).
    apply elem_of_nil in Hnd. contradiction.
Qed.

(** C1: with [M >= 1] nodes and [total >= 0], whenever [spawn] returns it
    has raised the count of node [i] by exactly [per_node + 1] if
    [i < remainder] and by [per_node] otherwise, and has appended exactly
    that many entries for it; and it does return when every node
    acknowledges and the fields fit their u32.  The shares add up to
    [total], each is [per_node] or [per_node + 1], and the nodes with the
    larger share are the [remainder] lowest-indexed ones. *)
Theorem spawn_shards_evenly (total mem : Z) (w : world) :
  0 <= total -> (1 <= length (nodes w))%nat ->
  (forall i : Z,
      shard_count total (Z.of_nat (length (nodes w))) i
      = if i <? total mod Z.of_nat (length (nodes w))
        then total / Z.of_nat (length (nodes w)) + 1
        else total / Z.of_nat (length (nodes w)))
  /\ (forall w', spawn total mem w = (Ok tt, w') ->
        vcpu_map w' = vcpu_map w ++ shard_entries (length (nodes w)) total
        /\ forall (i : nat) nd,
             nodes w !! i = Some nd ->
             nodes w' !! i
             = Some (Node (sock nd) (addr nd)
                       (vcpu_count nd
                        + shard_count total (Z.of_nat (length (nodes w))) (Z.of_nat i)))
             /\ List.filter (fun e : Z * Z => e.1 =? Z.of_nat i)
                  (shard_entries (length (nodes w)) total)
                = shard_block (Z.of_nat i)
                    (shard_count total (Z.of_nat (length (nodes w))) (Z.of_nat i)))
  /\ (nodes_acknowledge w -> total < 2 ^ 32 -> 0 <= mem < 2 ^ 32 ->
        exists w', spawn total mem w = (Ok tt, w'))
  /\ Zsum ((fun i : nat => shard_count total (Z.of_nat (length (nodes w))) (Z.of_nat i))
             <$> seq 0 (length (nodes w))) = total
  /\ length (List.filter
               (fun i : nat =>
                  shard_count total (Z.of_nat (length (nodes w))) (Z.of_nat i)
                  =? total / Z.of_nat (length (nodes w)) + 1)
               (seq 0 (length (nodes w))))
     = Z.to_nat (total mod Z.of_nat (length (nodes w)))
  /\ total mod Z.of_nat (length (nodes w)) < Z.of_nat (length (nodes w)).
Proof.
  intros Ht HM. split; [reflexivity|]. split; [|split; [|split; [|split]]].
  - intros w' Hspawn. apply spawn_shape in Hspawn as (Hmap & _ & Hnodes).
    split; [assumption|]. intros i nd Hi. split; [apply Hnodes, Hi|].
    unfold shard_entries. rewrite filter_blocks.
    rewrite bool_decide_eq_true_2 by (apply lookup_lt_Some in Hi; lia).
    reflexivity.
  - intros Hack Hlt Hmem. apply spawn_succeeds; auto with lia.
  - apply shard_count_sum; assumption.
  - apply shard_count_larger; assumption.
  - apply Z.mod_pos_bound. lia.
Qed.

Lemma spawn_shards_evenly_witness :
  (exists w', spawn 5 64 three_nodes = (Ok tt, w'))
  /\ Zsum ((fun i : nat => shard_count 5 3 (Z.of_nat i)) <$> seq 0 3) = 5.
Proof.
  destruct (spawn_shards_evenly 5 64 three_nodes)
    as (_ & _ & Hreturns & Hsum & _); [lia | simpl; lia |].
  split; [|exact Hsum].
  apply Hreturns; [exact three_nodes_acknowledge | lia | lia].
Defined.

(** Five vCPUs over three nodes: two, two and one. *)
Example spawn_five_over_three :
  let w' := snd (spawn 5 64 three_nodes) in
  fst (spawn 5 64 three_nodes) = Ok tt
  /\ vcpu_count <$> nodes w' = [2; 2; 1]
  /\ vcpu_map w' = [(0, 0); (0, 1); (1, 0); (1, 1); (2, 0)].
Proof. cbv zeta. vm_compute. repeat split. Qed.

(** ** The map along a history of calls *)

Lemma spawn_ok_nonempty total mem w w' :
  spawn total mem w = (Ok tt, w') -> (1 <= length (nodes w))%nat.
Proof.
  unfold spawn. rewrite bind_gets.
  destruct (_ =? 0) eqn:H0; [discriminate|]. intros _.
  apply Z.eqb_neq in H0. lia.
Qed.

Lemma history_shape w totals w' :
  history w totals w' ->
  length (nodes w') = length (nodes w)
  /\ vcpu_map w' = vcpu_map w ++ flat_map (shard_entries (length (nodes w))) totals
  /\ Z.of_nat (length (vcpu_map w'))
     = Z.of_nat (length (vcpu_map w)) + Zsum totals.
Proof.
  induction 1 as [w | w total mem w1 totals w2 Ht Hspawn _ IH
                  | w vcpu_id program totals w2 _ IH
                  | w cycles totals w2 _ IH
                  | w vcpu_id offset size totals w2 _ IH
                  | w totals w2 _ IH].
  - simpl. rewrite app_nil_r. split; [reflexivity | split; [reflexivity | lia]].
  - pose proof (spawn_ok_nonempty _ _ _ _ Hspawn) as HM.
    apply spawn_shape in Hspawn as (Hmap & Hlen & _).
    destruct IH as (IHlen & IHmap & IHsum).
    rewrite Hlen in IHlen, IHmap. split; [assumption|]. split.
    + rewrite IHmap, Hmap, <- app_assoc. reflexivity.
    + rewrite IHsum, Hmap, length_app, Nat2Z.inj_add.
      rewrite (length_shard_entries _ _ Ht HM). simpl. lia.
  - destruct (load_program_cluster vcpu_id program w) as [Hn Hm].
    rewrite Hn, Hm in IH. exact IH.
  - destruct (run_all_cluster cycles w) as [Hn Hm].
    rewrite Hn, Hm in IH. exact IH.
  - destruct (read_memory_cluster vcpu_id offset size w) as [Hn Hm].
    rewrite Hn, Hm in IH. exact IH.
  - destruct (get_telemetry_cluster w) as [Hn Hm].
    rewrite Hn, Hm in IH. exact IH.
Qed.

(** The node indices of a block are the node's index, once per entry. *)
Lemma shard_block_nodes i count :
  fst <$> shard_block i count = replicate (Z.to_nat count) i.
Proof.
  unfold shard_block, range. rewrite <- !list_fmap_compose.
  generalize 0%nat. induction (Z.to_nat count) as [|n IH]; intros k; [reflexivity|].
  cbn [seq fmap list_fmap replicate]. f_equal. apply IH.
Qed.

Lemma shard_entries_nodes (M : nat) (total : Z) :
  fst <$> shard_entries M total = segment_nodes M total.
Proof.
  unfold shard_entries, segment_nodes.
  induction (seq 0 M) as [|i l IH]; [reflexivity|].
  cbn [flat_map]. rewrite fmap_app, shard_block_nodes, IH. reflexivity.
Qed.

Lemma segments_nodes (M : nat) (totals : list Z) :
  fst <$> flat_map (shard_entries M) totals = flat_map (segment_nodes M) totals.
Proof.
  induction totals as [|total totals IH]; [reflexivity|].
  cbn [flat_map]. rewrite fmap_app, shard_entries_nodes, IH. reflexivity.
Qed.

Lemma length_filter_fst (i : Z) (m : list (Z * Z)) :
  length (List.filter (fun x : Z => x =? i) (fst <$> m))
  = length (List.filter (fun e : Z * Z => e.1 =? i) m).
Proof.
  induction m as [|e m IH]; [reflexivity|].
  cbn [fmap list_fmap List.filter]. fold (fst <$> m).
  destruct (e.1 =? i); simpl; rewrite IH; reflexivity.
Qed.

(** C5, as the code has it by design: along any history of calls in which
    every spawn returned, the map only grows at its end; the node indices of
    its entries are those it had at the start followed by one segment per
    spawn, in call order, and its length has grown by the sum of the totals.
    Within the segment of one spawn the node indices never go down, node [i]
    has as many entries as its share of that spawn, and a node with an
    empty share has none.  On a cluster that had no vCPU yet, the entries of
    the first spawn are [(i, 0) .. (i, count_i - 1)] for node after node.
    Which local ids a later spawn records is not stated here. *)
Theorem vcpu_map_segments w totals w' :
  history w totals w' ->
  (exists extra, vcpu_map w' = vcpu_map w ++ extra)
  /\ fst <$> vcpu_map w'
     = (fst <$> vcpu_map w) ++ flat_map (segment_nodes (length (nodes w))) totals
  /\ Z.of_nat (length (vcpu_map w'))
     = Z.of_nat (length (vcpu_map w)) + Zsum totals
  /\ (forall total,
        (forall (j k : nat) (a b : Z),
            (j <= k)%nat ->
            segment_nodes (length (nodes w)) total !! j = Some a ->
            segment_nodes (length (nodes w)) total !! k = Some b -> a <= b)
        /\ forall i : nat,
             (i < length (nodes w))%nat ->
             length (List.filter (fun x : Z => x =? Z.of_nat i)
                       (segment_nodes (length (nodes w)) total))
             = Z.to_nat (shard_count total (Z.of_nat (length (nodes w)))
                           (Z.of_nat i)))
  /\ (forall total rest,
        totals = total :: rest ->
        vcpu_map w = [] -> Forall (fun nd => vcpu_count nd = 0) (nodes w) ->
        take (Z.to_nat total) (vcpu_map w') = shard_entries (length (nodes w)) total
        /\ forall i : nat,
             (i < length (nodes w))%nat ->
             List.filter (fun e : Z * Z => e.1 =? Z.of_nat i)
               (take (Z.to_nat total) (vcpu_map w'))
             = (fun local_id => (Z.of_nat i, local_id))
                 <$> range (shard_count total (Z.of_nat (length (nodes w)))
                              (Z.of_nat i)))
  /\ (forall (c : method) (w0 : world),
        exists extra, vcpu_map (snd (invoke c w0)) = vcpu_map w0 ++ extra).
Proof.
  intros H.
  assert (Hfirst : forall total rest, totals = total :: rest ->
                     0 <= total /\ (1 <= length (nodes w))%nat).
  { clear -H. induction H as [w | w total mem w1 totals w2 Ht Hspawn _ _
                              | w vcpu_id program totals w2 _ IH
                              | w cycles totals w2 _ IH
                              | w vcpu_id offset size totals w2 _ IH
                              | w totals w2 _ IH]; intros total' rest Heq.
    - discriminate.
    - injection Heq as <- _. split; [assumption|].
      eapply spawn_ok_nonempty. eassumption.
    - destruct (load_program_cluster vcpu_id program w) as [Hn _].
      rewrite <- Hn. eapply IH. eassumption.
    - destruct (run_all_cluster cycles w) as [Hn _].
      rewrite <- Hn. eapply IH. eassumption.
    - destruct (read_memory_cluster vcpu_id offset size w) as [Hn _].
      rewrite <- Hn. eapply IH. eassumption.
    - destruct (get_telemetry_cluster w) as [Hn _].
      rewrite <- Hn. eapply IH. eassumption. }
  apply history_shape in H as (_ & Hmap & Hlen).
  split; [eexists; exact Hmap|].
  split; [rewrite Hmap, fmap_app, segments_nodes; reflexivity|].
  split; [assumption|]. split; [|split].
  - intros total. rewrite <- shard_entries_nodes. split.
    + intros j k a b Hjk Ha Hb.
      rewrite list_lookup_fmap in Ha, Hb.
      destruct (shard_entries (length (nodes w)) total !! j) as [ea|] eqn:Hea;
        [|discriminate].
      destruct (shard_entries (length (nodes w)) total !! k) as [eb|] eqn:Heb;
        [|discriminate].
      injection Ha as <-. injection Hb as <-.
      apply (nondecreasing_of_sorted (shard_entries (length (nodes w)) total))
        with (j := j) (k := k); try assumption.
      unfold shard_entries. apply blocks_sorted.
    + intros i Hi. rewrite length_filter_fst. unfold shard_entries.
      rewrite filter_blocks, bool_decide_eq_true_2 by lia.
      apply length_shard_block.
  - intros total rest -> Hempty _.
    destruct (Hfirst total rest eq_refl) as [Ht HM].
    assert (Htake : take (Z.to_nat total) (vcpu_map w')
                    = shard_entries (length (nodes w)) total).
    { rewrite Hmap, Hempty, app_nil_l. cbn [flat_map].
      apply take_app_length'.
      pose proof (length_shard_entries (length (nodes w)) total Ht HM). lia. }
    split; [exact Htake|].
    intros i Hi. rewrite Htake. unfold shard_entries.
    rewrite filter_blocks, bool_decide_eq_true_2 by lia. reflexivity.
  - intros c w0. apply invoke_map.
Qed.

Lemma vcpu_map_segments_witness :
  fst <$> vcpu_map (snd (spawn 2 64 (snd (spawn 2 64 three_nodes))))
  = (fst <$> vcpu_map three_nodes) ++ flat_map (segment_nodes 3) [2; 2]
  /\ Z.of_nat (length (vcpu_map (snd (spawn 2 64 (snd (spawn 2 64 three_nodes))))))
     = Z.of_nat (length (vcpu_map three_nodes)) + Zsum [2; 2]
  /\ take (Z.to_nat 2) (vcpu_map (snd (spawn 2 64 (snd (spawn 2 64 three_nodes)))))
     = shard_entries 3 2.
Proof.
  destruct (vcpu_map_segments three_nodes [2; 2]
              (snd (spawn 2 64 (snd (spawn 2 64 three_nodes)))))
    as (_ & Hnodes & Hlen & _ & Hfirst & _).
  - apply (history_spawn _ 2 64 (snd (spawn 2 64 three_nodes)));
      [lia | vm_compute; reflexivity |].
    apply (history_spawn _ 2 64 (snd (spawn 2 64 (snd (spawn 2 64 three_nodes)))));
      [lia | vm_compute; reflexivity |].
    apply history_nil.
  - split; [exact Hnodes|]. split; [exact Hlen|].
    apply (Hfirst 2 [2] eq_refl eq_refl).
    repeat constructor.
Defined.

(** C5, as the claim has it, fails: after two spawns of two vCPUs over three
    nodes the map is [(0,0); (1,0); (0,0); (1,0)], where node 1 comes before
    node 0. *)
Lemma second_spawn_restarts_at_node_0 :
  history three_nodes [2; 2] (snd (spawn 2 64 (snd (spawn 2 64 three_nodes))))
  /\ vcpu_map (snd (spawn 2 64 (snd (spawn 2 64 three_nodes))))
     = [(0, 0); (1, 0); (0, 0); (1, 0)]
  /\ ~ nondecreasing_nodes
         (vcpu_map (snd (spawn 2 64 (snd (spawn 2 64 three_nodes))))).
Proof.
  split; [|split].
  - apply (history_spawn _ 2 64 (snd (spawn 2 64 three_nodes)));
      [lia | vm_compute; reflexivity |].
    apply (history_spawn _ 2 64 (snd (spawn 2 64 (snd (spawn 2 64 three_nodes)))));
      [lia | vm_compute; reflexivity |].
    apply history_nil.
  - vm_compute. reflexivity.
  - intros H.
    assert (Hm : vcpu_map (snd (spawn 2 64 (snd (spawn 2 64 three_nodes))))
                 = [(0, 0); (1, 0); (0, 0); (1, 0)]) by (vm_compute; reflexivity).
    rewrite Hm in H.
    specialize (H 1%nat 2%nat (1, 0) (0, 0) ltac:(lia) eq_refl eq_refl).
    simpl in H. lia.
Qed.

(** ** Telemetry *)

Lemma inbox_consumed_ne s s' n w :
  s' <> s -> inbox (consumed s n w) !! s' = inbox w !! s'.
Proof.
  intros Hne. unfold consumed. simpl. apply list_lookup_insert_ne. congruence.
Qed.

Lemma length_stats_response request_id instr gpu :
  length (stats_response request_id instr gpu) = 28%nat.
Proof.
  unfold stats_response, hive_response.
  rewrite !length_app, !length_le_split. reflexivity.
Qed.

(** One turn of the loop of [get_telemetry] with a node that reports. *)
Lemma telemetry_turn nd request_id instr gpu rest w :
  inbox w !! sock nd = Some (stats_response request_id instr gpu ++ rest) ->
  0 <= request_id < 2 ^ 32 -> 0 <= instr < 2 ^ 64 -> 0 <= gpu < 2 ^ 64 ->
  (_send_cmd (sock nd) CMD_GET_STATS [] ;;; _recv_resp (sock nd)) w
  = (Ok (Some (le_split 8 instr ++ le_split 8 gpu)),
     consumed (sock nd) 28 (sent (sock nd) (hive_request CMD_GET_STATS []) w)).
Proof.
  intros Hp Hrid Hi Hg. unfold bind.
  rewrite send_cmd_ok by (unfold CMD_GET_STATS; simpl; lia).
  erewrite recv_resp_ok;
    [ | exact Hp | assumption
      | rewrite length_app, !length_le_split; simpl; lia ].
  rewrite length_app, !length_le_split.
  destruct (le_split 8 instr ++ le_split 8 gpu) as [|b d] eqn:Hpayload.
  - apply (f_equal length) in Hpayload.
    rewrite length_app, !length_le_split in Hpayload. discriminate.
  - reflexivity.
Qed.

Lemma telemetry_turn_trace nd request_id instr gpu rest w :
  inbox w !! sock nd = Some (stats_response request_id instr gpu ++ rest) ->
  trace (consumed (sock nd) 28 (sent (sock nd) (hive_request CMD_GET_STATS []) w))
  = trace w ++ stats_exchange nd (request_id, instr, gpu).
Proof.
  intros Hp. unfold consumed, sent, pending.
  cbn [trace inbox set_trace set_inbox]. rewrite Hp. cbn [default id].
  rewrite take_app_length' by (symmetry; apply length_stats_response).
  unfold stats_exchange. rewrite <- app_assoc. reflexivity.
Qed.

Lemma telemetry_loop_reports : forall (ns : list node) (rps : list (Z * Z * Z))
    (total_instr total_gpu : Z) (w : world),
  NoDup (sock <$> ns) ->
  Forall2 (reports w) ns rps ->
  exists w',
    telemetry_loop ns total_instr total_gpu w
    = (Ok (Telemetry (total_instr + Zsum ((fun rp => rp.1.2) <$> rps))
                     (total_gpu + Zsum ((fun rp => rp.2) <$> rps))), w')
    /\ trace w' = trace w ++ concat (zip_with stats_exchange ns rps).
Proof.
  induction ns as [|nd ns IH]; intros rps total_instr total_gpu w Hdup Hrep.
  - apply Forall2_nil_inv_l in Hrep as ->. exists w. simpl.
    rewrite !Z.add_0_r, app_nil_r. split; reflexivity.
  - apply Forall2_cons_inv_l in Hrep as ([[rid instr] gpu] & rps' & Hnd & Hrep & ->).
    destruct Hnd as (Hrid & Hi & Hg & rest & Hp).
    rewrite fmap_cons in Hdup. apply NoDup_cons in Hdup as [Hfresh Hdup].
    cbn [telemetry_loop].
    pose proof (telemetry_turn nd rid instr gpu rest w Hp Hrid Hi Hg) as Hturn.
    unfold bind in Hturn. unfold bind at 1.
    destruct (_send_cmd (sock nd) CMD_GET_STATS [] w) as [[[]|e] wa];
      [|discriminate Hturn].
    unfold bind at 1. rewrite Hturn.
    destruct (le_split 8 instr ++ le_split 8 gpu) as [|b d] eqn:Hpayload.
    { apply (f_equal length) in Hpayload.
      rewrite length_app, !length_le_split in Hpayload. discriminate. }
    rewrite <- Hpayload. unfold bind at 1, lift.
    rewrite unpack_QQ by apply length_le_split.
    rewrite !le_combine_split_small by assumption.
    set (w1 := consumed (sock nd) 28 _).
    destruct (IH rps' (total_instr + instr) (total_gpu + gpu) w1 Hdup)
      as (w' & Hloop & Htrace).
    + apply Forall2_same_length_lookup.
      apply Forall2_same_length_lookup in Hrep as [Hlen Hrep].
      split; [assumption|]. intros i nd' [[rid' instr'] gpu'] Hnd' Hrp'.
      specialize (Hrep i nd' _ Hnd' Hrp'). cbn [reports] in Hrep |- *.
      destruct Hrep as (? & ? & ? & rest' & Hp').
      repeat (split; [assumption|]). exists rest'.
      subst w1. rewrite inbox_consumed_ne; [exact Hp'|].
      intros Heq. apply Hfresh. rewrite <- Heq.
      apply list_elem_of_fmap_2. eapply list_elem_of_lookup_2. eassumption.
    + exists w'. rewrite Hloop. split.
      * unfold Zsum. cbn [fmap list_fmap foldr fst snd].
        rewrite !Z.add_assoc. reflexivity.
      * rewrite Htrace. subst w1. rewrite (telemetry_turn_trace _ _ _ _ _ _ Hp).
        cbn [zip_with concat]. rewrite <- app_assoc. reflexivity.
Qed.

(** C6: [get_telemetry] goes through the nodes in order; with each it sends
    [GET_STATS] with an empty payload and reads the whole response before it
    turns to the next; it returns the sums, over the nodes, of the two u64
    fields of the 16-byte payloads. *)
Theorem get_telemetry_sums (w : world) (rps : list (Z * Z * Z)) :
  NoDup (sock <$> nodes w) ->
  Forall2 (reports w) (nodes w) rps ->
  exists w',
    get_telemetry w
    = (Ok (Telemetry (Zsum ((fun rp => rp.1.2) <$> rps))
                     (Zsum ((fun rp => rp.2) <$> rps))), w')
    /\ trace w' = trace w ++ concat (zip_with stats_exchange (nodes w) rps)
    /\ hive_request CMD_GET_STATS []
       = le_split 4 0x56435055 ++ le_split 4 6 ++ le_split 4 0 ++ le_split 4 0.
Proof.
  intros Hdup Hrep. unfold get_telemetry. rewrite bind_gets.
  destruct (telemetry_loop_reports (nodes w) rps 0 0 w Hdup Hrep)
    as (w' & Hloop & Htrace).
  exists w'. rewrite Hloop, !Z.add_0_l. repeat split. assumption.
Qed.

Lemma get_telemetry_sums_witness :
  exists w',
    get_telemetry two_reporting = (Ok (Telemetry 350 3), w')
    /\ trace w'
       = trace two_reporting
           ++ concat (zip_with stats_exchange (nodes two_reporting)
                        [(0, 100, 1); (0, 250, 2)])
    /\ hive_request CMD_GET_STATS []
       = le_split 4 0x56435055 ++ le_split 4 6 ++ le_split 4 0 ++ le_split 4 0.
Proof.
  apply (get_telemetry_sums two_reporting [(0, 100, 1); (0, 250, 2)]).
  - apply (bool_decide_unpack _). reflexivity.
  - repeat constructor; try (simpl; lia); exists []; reflexivity.
Defined.

(** Two nodes, one byte per read: the first node's request and response
    come before the second node's request. *)
Example telemetry_of_two :
  fst (get_telemetry two_reporting) = Ok (Telemetry 350 3)
  /\ trace (snd (get_telemetry two_reporting))
     = Sent 0 (hive_request CMD_GET_STATS [])
         :: (Received 0 <$> stats_response 0 100 1)
         ++ Sent 1 (hive_request CMD_GET_STATS [])
         :: (Received 1 <$> stats_response 0 250 2).
Proof. vm_compute. split; reflexivity. Qed.

(** * Further properties of the client *)

(** ** Reading *)

(** X1: [_recv_all] returns exactly the next [n] bytes of the connection and
    leaves the rest, however the environment cuts the reads up; when the peer
    closes before [n] bytes have come it raises [ConnectionError] and has
    read all there was. *)
Theorem recv_all_exact s n w (p : bytes) :
  inbox w !! s = Some p ->
  ((n <= length p)%nat ->
     _recv_all s n w = (Ok (take n p), consumed s n w)
     /\ pending s (consumed s n w) = drop n p)
  /\ ((length p < n)%nat ->
        _recv_all s n w
        = (Raise (ConnectionError "Socket closed"), consumed s (length p) w)
        /\ pending s (consumed s (length p) w) = []).
Proof.
  intros Hp. split; intros Hn.
  - split; [apply recv_all_ok; assumption|].
    rewrite pending_consumed, (pending_inbox _ _ _ Hp). reflexivity.
  - split; [apply recv_all_closed; assumption|].
    rewrite pending_consumed, (pending_inbox _ _ _ Hp). apply drop_all.
Qed.

Lemma recv_all_exact_witness :
  _recv_all 0 4 one_vcpu
  = (Ok (take 4 (hive_response 200 0 (le_split 8 300))), consumed 0 4 one_vcpu)
  /\ pending 0 (consumed 0 4 one_vcpu)
     = drop 4 (hive_response 200 0 (le_split 8 300)).
Proof.
  refine (proj1 (recv_all_exact 0 4 one_vcpu
                   (hive_response 200 0 (le_split 8 300)) _) _).
  - reflexivity.
  - simpl. lia.
Defined.

(** Reads of three bytes at a time give the same 20 bytes as one read would;
    asking for more than the peer sends before it closes raises. *)
Example recv_all_three_at_a_time :
  fst (_recv_all 0 20 one_vcpu) = Ok (hive_response 200 0 (le_split 8 300))
  /\ fst (_recv_all 0 21 one_vcpu) = Raise (ConnectionError "Socket closed").
Proof. vm_compute. split; reflexivity. Qed.

(** X2: a response cut short is a lost connection, never a short payload:
    when the peer closes inside the header, or after a status-200 header but
    before the payload it announces is complete, [_recv_resp] raises
    [ConnectionError] and returns nothing. *)
Theorem recv_resp_truncated s w :
  (forall p : bytes,
      inbox w !! s = Some p -> (length p < 12)%nat ->
      fst (_recv_resp s w) = Raise (ConnectionError "Socket closed"))
  /\ (forall (request_id len : Z) (part : bytes),
        inbox w !! s
        = Some (le_split 4 200 ++ le_split 4 request_id ++ le_split 4 len ++ part) ->
        0 <= request_id < 2 ^ 32 -> 0 <= len < 2 ^ 32 ->
        Z.of_nat (length part) < len ->
        fst (_recv_resp s w) = Raise (ConnectionError "Socket closed")).
Proof.
  split.
  - intros p Hp Hlen. unfold _recv_resp, bind.
    rewrite (recv_all_closed _ _ _ _ Hp Hlen). reflexivity.
  - intros rid len part Hp Hrid Hlen Hpart.
    rewrite (recv_resp_header _ _ _ _ _ _ Hp) by lia.
    change (negb (200 =? 200)) with false. cbv iota.
    replace (0 <? len) with true by (symmetry; apply Z.ltb_lt; lia).
    unfold bind.
    apply (inbox_consumed _ 12) in Hp. rewrite drop_header in Hp.
    rewrite (recv_all_closed _ _ _ _ Hp) by lia. reflexivity.
Qed.

Lemma recv_resp_truncated_witness :
  fst (_recv_resp 0 (World [] [] [le_split 4 200 ++ le_split 4 0 ++ le_split 4 8
                                    ++ [Byte.x01; Byte.x02]]
                           (fun _ _ _ => 5%nat) []))
  = Raise (ConnectionError "Socket closed").
Proof.
  apply (proj2 (recv_resp_truncated 0 _) 0 8 [Byte.x01; Byte.x02]);
    [reflexivity | lia | lia | simpl; lia].
Defined.

(** ** What the calls leave alone *)

(** X3: only [spawn] writes to the cluster object.  However they end,
    [load_program], [run_all], [read_memory] and [get_telemetry] leave
    [self.nodes] (the counts included) and [self.vcpu_map] as they found
    them. *)
Theorem cluster_written_by_spawn_only
    (w : world) (vcpu_id : Z) (program : list instruction)
    (cycles offset size : Z) :
  same_cluster w (snd (load_program vcpu_id program w))
  /\ same_cluster w (snd (run_all cycles w))
  /\ same_cluster w (snd (read_memory vcpu_id offset size w))
  /\ same_cluster w (snd (get_telemetry w)).
Proof.
  split; [apply load_program_cluster|].
  split; [apply run_all_cluster|].
  split; [apply read_memory_cluster | apply get_telemetry_cluster].
Qed.

(** ** [spawn], however it ends *)

Lemma bind_raise_inv {A B} (m : M A) (k : A -> M B) w e w' :
  bind m k w = (Raise e, w') ->
  m w = (Raise e, w')
  \/ exists a w1, m w = (Ok a, w1) /\ k a w1 = (Raise e, w').
Proof.
  unfold bind. destruct (m w) as [[a|e'] w1]; [eauto|].
  intros [= -> ->]. left. reflexivity.
Qed.

(** A turn of the loop that raises has left the cluster object alone. *)
Lemma spawn_body_raise q r mem (i : Z) nd w e w1 :
  spawn_body q r mem (i, nd) w = (Raise e, w1) -> same_cluster w w1.
Proof.
  unfold spawn_body. set (count := q + (if i <? r then 1 else 0)).
  destruct (count =? 0); [discriminate|]. intros H.
  apply bind_raise_inv in H as [H | (payload & wa & Hpack & H)].
  { unfold lift in H. injection H as _ <-. apply same_cluster_refl. }
  unfold lift in Hpack. injection Hpack as _ <-.
  pose proof (send_cmd_cluster (sock nd) CMD_SPAWN_VCPU payload w) as Hsend.
  apply bind_raise_inv in H as [H | ([] & wb & Hs & H)].
  { rewrite H in Hsend. exact Hsend. }
  rewrite Hs in Hsend. simpl in Hsend.
  pose proof (recv_resp_cluster (sock nd) wb) as Hrecv.
  apply bind_raise_inv in H as [H | (resp & wc & Hr & H)].
  { rewrite H in Hrecv. eapply same_cluster_trans; eassumption. }
  apply bind_raise_inv in H as [H | ([] & wd & Ha & H)].
  { rewrite for_each_append in H. discriminate. }
  discriminate H.
Qed.

(** The loop from node [k] on, however it ends: some first [j] of the nodes
    left have been given both their block and their count, the others
    neither, and all of them when it ends normally. *)
Lemma spawn_loop_outcome q r mem : forall (l : list node) (k : nat) w,
  exists j : nat,
    (j <= length l)%nat
    /\ (fst (for_each (imap (fun j nd => (Z.of_nat (k + j), nd)) l)
               (spawn_body q r mem) w) = Ok tt -> j = length l)
    /\ vcpu_map (snd (for_each (imap (fun j nd => (Z.of_nat (k + j), nd)) l)
                        (spawn_body q r mem) w))
       = vcpu_map w
           ++ flat_map (fun x : nat => shard_block (Z.of_nat x)
                                         (q + (if Z.of_nat x <? r then 1 else 0)))
                       (seq k j)
    /\ forall x,
         nodes (snd (for_each (imap (fun j nd => (Z.of_nat (k + j), nd)) l)
                       (spawn_body q r mem) w)) !! x
         = if bool_decide (k <= x < k + j)%nat
           then bump (q + (if Z.of_nat x <? r then 1 else 0)) <$> nodes w !! x
           else nodes w !! x.
Proof.
  induction l as [|nd l IH]; intros k w.
  - exists 0%nat. simpl. rewrite app_nil_r.
    repeat split; try lia. intros x. case_bool_decide; [lia | reflexivity].
  - cbn [imap for_each]. unfold bind at 1 2 3.
    destruct (spawn_body q r mem (Z.of_nat (k + 0), nd) w) as [[[]|e] w1] eqn:Hbody.
    + rewrite (imap_ext _ (fun j nd => (Z.of_nat (S k + j), nd)))
        by (intros; simpl; f_equal; lia).
      destruct (IH (S k) w1) as (j & Hj & Hok & Hmap & Hnodes).
      apply spawn_body_shape in Hbody as [Hmap1 Hnodes1].
      rewrite Nat.add_0_r, Nat2Z.id in *.
      exists (S j). split; [simpl; lia|]. split; [|split].
      * intros H. rewrite (Hok H). reflexivity.
      * rewrite Hmap, Hmap1, <- app_assoc. reflexivity.
      * intros x. rewrite Hnodes, Hnodes1.
        destruct (decide (x = k)) as [->|Hne].
        -- rewrite list_lookup_alter_eq.
           repeat case_bool_decide; try lia; reflexivity.
        -- rewrite list_lookup_alter_ne by congruence.
           repeat case_bool_decide; try lia; reflexivity.
    + apply spawn_body_raise in Hbody as [Hn Hm].
      exists 0%nat. simpl. rewrite app_nil_r, Hn, Hm.
      repeat split; try lia; try discriminate.
      intros x. case_bool_decide; [lia | reflexivity].
Qed.

(** However [spawn] ends, a prefix of the nodes has been served. *)
Lemma spawn_prefix (total mem : Z) (w : world) :
  exists j : nat,
    (j <= length (nodes w))%nat
    /\ (fst (spawn total mem w) = Ok tt -> j = length (nodes w))
    /\ vcpu_map (snd (spawn total mem w))
       = vcpu_map w
           ++ flat_map (fun i : nat =>
                          shard_block (Z.of_nat i)
                            (shard_count total (Z.of_nat (length (nodes w)))
                               (Z.of_nat i)))
                       (seq 0 j)
    /\ forall (i : nat) nd,
         nodes w !! i = Some nd ->
         nodes (snd (spawn total mem w)) !! i
         = Some (if bool_decide (i < j)%nat
                 then bump (shard_count total (Z.of_nat (length (nodes w)))
                              (Z.of_nat i)) nd
                 else nd).
Proof.
  unfold spawn. rewrite bind_gets.
  destruct (_ =? 0) eqn:H0.
  - exists 0%nat. simpl. rewrite app_nil_r.
    repeat split; try lia; try discriminate.
    intros i nd Hi. rewrite Hi. reflexivity.
  - destruct (spawn_loop_outcome (total / Z.of_nat (length (nodes w)))
                (total mod Z.of_nat (length (nodes w))) mem (nodes w) 0 w)
      as (j & Hj & Hok & Hmap & Hnodes).
    cbn [Nat.add] in Hok, Hmap, Hnodes. unfold enumerate.
    exists j. split; [assumption|]. split; [exact Hok|]. split.
    + rewrite Hmap. f_equal.
      apply flat_map_ext. intros i. rewrite count_is_share. reflexivity.
    + intros i nd Hi. rewrite Hnodes, Hi.
      rewrite count_is_share. simpl.
      repeat case_bool_decide; try lia; reflexivity.
Qed.

(** X4: [spawn] never leaves the map and the counts at odds.  However it
    ends -- a node answering with an error, a closed connection, a count
    that does not fit -- the first [j] nodes, for some [j], have been given
    both their block of the map and their count, the nodes after them
    neither; when it returns, [j] is the number of nodes. *)
Theorem spawn_assigns_a_prefix (total mem : Z) (w : world) :
  exists j : nat,
    (j <= length (nodes w))%nat
    /\ (fst (spawn total mem w) = Ok tt -> j = length (nodes w))
    /\ vcpu_map (snd (spawn total mem w))
       = vcpu_map w
           ++ flat_map (fun i : nat =>
                          shard_block (Z.of_nat i)
                            (shard_count total (Z.of_nat (length (nodes w)))
                               (Z.of_nat i)))
                       (seq 0 j)
    /\ forall (i : nat) nd,
         nodes w !! i = Some nd ->
         nodes (snd (spawn total mem w)) !! i
         = Some (if bool_decide (i < j)%nat
                 then bump (shard_count total (Z.of_nat (length (nodes w)))
                              (Z.of_nat i)) nd
                 else nd).
Proof. exact (spawn_prefix total mem w). Qed.

(** A second node that answers with status 500: the first node keeps its
    block and its count, the second and third get nothing. *)
Example spawn_stopped_at_second_node :
  let w := World [Node 0 "a:6000" 0; Node 1 "b:6000" 0; Node 2 "c:6000" 0] []
                 [ack; hive_response 500 0 []; ack] (fun _ _ _ => 12%nat) [] in
  fst (spawn 6 64 w) = Raise (RuntimeError "Remote Error: 500")
  /\ vcpu_map (snd (spawn 6 64 w)) = [(0, 0); (0, 1)]
  /\ vcpu_count <$> nodes (snd (spawn 6 64 w)) = [2; 0; 0].
Proof. vm_compute. repeat split. Qed.

Lemma pack_II_negative (a b : Z) : a < 0 -> pack [uI; uI] [a; b] = Raise StructError.
Proof.
  intros Ha. unfold pack. cbn [pack_from].
  replace (in_range uI a) with false; [reflexivity|].
  symmetry. unfold in_range. apply andb_false_intro1. apply Z.leb_gt. assumption.
Qed.

(** The loop when no share is positive: nothing happens up to the first
    negative share, where packing the request raises. *)
Lemma spawn_loop_nothing q r mem : forall (l : list node) (k : nat) w,
  (forall x : nat, q + (if Z.of_nat x <? r then 1 else 0) <= 0) ->
  for_each (imap (fun j nd => (Z.of_nat (k + j), nd)) l) (spawn_body q r mem) w
  = (if forallb (fun x : nat => q + (if Z.of_nat x <? r then 1 else 0) =? 0)
                (seq k (length l))
     then Ok tt else Raise StructError, w).
Proof.
  intros l k w Hle. revert k w.
  induction l as [|nd l IH]; intros k w; [reflexivity|].
  cbn [imap for_each length seq forallb]. unfold bind.
  unfold spawn_body at 1. rewrite Nat.add_0_r.
  destruct (_ =? 0) eqn:H0.
  - rewrite (imap_ext _ (fun j nd => (Z.of_nat (S k + j), nd)))
      by (intros; simpl; f_equal; lia).
    unfold ret at 1. cbv iota. rewrite IH. reflexivity.
  - apply Z.eqb_neq in H0. unfold bind, lift.
    rewrite pack_II_negative by (specialize (Hle k); lia). reflexivity.
Qed.

(** A total that is not positive leaves the world alone. *)
Lemma spawn_nonpositive (total mem : Z) (w : world) :
  total <= 0 -> (1 <= length (nodes w))%nat ->
  spawn total mem w = (if total =? 0 then Ok tt else Raise StructError, w).
Proof.
  intros Ht HM. unfold spawn. rewrite bind_gets.
  replace (Z.of_nat (length (nodes w)) =? 0) with false
    by (symmetry; apply Z.eqb_neq; lia).
  set (n := length (nodes w)) in *.
  pose proof (Z.div_mod total (Z.of_nat n) ltac:(lia)) as Hdm.
  pose proof (Z.mod_pos_bound total (Z.of_nat n) ltac:(lia)) as Hr.
  unfold enumerate.
  rewrite (spawn_loop_nothing _ _ _ (nodes w) 0).
  - f_equal. fold n. destruct (total =? 0) eqn:H0.
    + apply Z.eqb_eq in H0. subst total.
      rewrite Z.div_0_l, Z.mod_0_l by lia.
      replace (forallb _ _) with true; [reflexivity|].
      symmetry. apply forallb_forall. intros x _.
      replace (Z.of_nat x <? 0) with false by (symmetry; apply Z.ltb_ge; lia).
      reflexivity.
    + apply Z.eqb_neq in H0.
      replace (forallb _ _) with false; [reflexivity|].
      symmetry. apply not_true_is_false. intros Hall.
      rewrite forallb_forall in Hall.
      specialize (Hall (Z.to_nat (total mod Z.of_nat n))).
      rewrite Z2Nat.id, Z.ltb_irrefl in Hall by lia.
      assert (Hq : total / Z.of_nat n < 0) by nia.
      assert (Hin : In (Z.to_nat (total mod Z.of_nat n)) (seq 0 n))
        by (apply in_seq; lia).
      apply Hall in Hin. apply Z.eqb_eq in Hin. lia.
  - intros x. assert (Hq : total / Z.of_nat n <= 0) by nia.
    destruct (Z.of_nat x <? total mod Z.of_nat n) eqn:Hx; [|lia].
    apply Z.ltb_lt in Hx. nia.
Qed.

(** X5: a total that is not positive sends nothing.  [spawn(0)] returns and
    [spawn] of a negative total raises [struct.error]; either way no request
    leaves the client and the world is as it was. *)
Theorem spawn_nothing_to_spawn (total mem : Z) (w : world) :
  total <= 0 -> (1 <= length (nodes w))%nat ->
  spawn total mem w = (if total =? 0 then Ok tt else Raise StructError, w).
Proof. exact (spawn_nonpositive total mem w). Qed.

Lemma spawn_nothing_to_spawn_witness :
  spawn (-1) 64 three_nodes = (if -1 =? 0 then Ok tt else Raise StructError, three_nodes)
  /\ spawn 0 64 three_nodes = (if 0 =? 0 then Ok tt else Raise StructError, three_nodes).
Proof.
  split.
  - apply (spawn_nothing_to_spawn (-1) 64 three_nodes); simpl; lia.
  - apply (spawn_nothing_to_spawn 0 64 three_nodes); simpl; lia.
Defined.

(** ** Routing *)

Lemma elem_of_shard_block i count e :
  e ∈ shard_block i count -> e.1 = i /\ 0 <= e.2 < count.
Proof.
  unfold shard_block, range. intros He.
  apply list_elem_of_fmap_1 in He as (l & -> & Hl).
  apply list_elem_of_fmap_1 in Hl as (x & -> & Hx).
  apply list_elem_of_In, in_seq in Hx. simpl. split; [reflexivity | lia].
Qed.

Lemma routable_same_cluster w w' : same_cluster w w' -> routable w -> routable w'.
Proof. intros [Hn Hm]. unfold routable. rewrite Hn, Hm. auto. Qed.

(** [spawn] neither adds nor drops a node, however it ends. *)
Lemma spawn_length total mem w :
  length (nodes (snd (spawn total mem w))) = length (nodes w).
Proof.
  revert w.
  change (keeps (fun w w' => length (nodes w') = length (nodes w))
            (spawn total mem)).
  assert (Hrefl : forall w : world, length (nodes w) = length (nodes w))
    by reflexivity.
  assert (Htrans : forall w1 w2 w3 : world,
             length (nodes w2) = length (nodes w1) ->
             length (nodes w3) = length (nodes w2) ->
             length (nodes w3) = length (nodes w1)) by (intros; congruence).
  unfold spawn, spawn_body.
  repeat first
    [ keeps_step Hrefl Htrans
    | intros w; apply (f_equal (@length node)), send_cmd_cluster
    | intros w; apply (f_equal (@length node)), recv_resp_cluster
    | intros w; reflexivity
    | intros w; apply length_alter ].
Qed.

Lemma spawn_routable total mem w : routable w -> routable (snd (spawn total mem w)).
Proof.
  intros Hr.
  destruct (decide (length (nodes w) = 0%nat)) as [H0|H0].
  { unfold spawn. rewrite bind_gets, H0. exact Hr. }
  destruct (Z_lt_le_dec total 0) as [Hneg|Hpos].
  { rewrite spawn_nonpositive by lia. exact Hr. }
  destruct Hr as [Hcount Hmap].
  destruct (spawn_prefix total mem w) as (j & Hj & _ & Hm & Hn).
  assert (Hshare : forall i : nat,
             0 <= shard_count total (Z.of_nat (length (nodes w))) (Z.of_nat i)).
  { intros i. apply shard_count_bounds; lia. }
  split.
  - intros nd' Hnd'. apply list_elem_of_lookup_1 in Hnd' as [i Hi].
    destruct (nodes w !! i) as [nd|] eqn:Hnd.
    + rewrite (Hn i nd Hnd) in Hi. injection Hi as <-.
      assert (0 <= vcpu_count nd)
        by (apply Hcount; eapply list_elem_of_lookup_2; eassumption).
      case_bool_decide; [|assumption].
      unfold bump. simpl. specialize (Hshare i). lia.
    + exfalso. apply lookup_ge_None in Hnd. apply lookup_lt_Some in Hi.
      rewrite spawn_length in Hi. lia.
  - intros node_idx local_id Hin. rewrite Hm in Hin.
    apply elem_of_app in Hin as [Hold|Hnew].
    + destruct (Hmap _ _ Hold) as (Hidx & nd & Hnd & Hl).
      split; [assumption|]. rewrite (Hn _ _ Hnd). eexists. split; [reflexivity|].
      case_bool_decide; [|assumption].
      unfold bump. simpl. specialize (Hshare (Z.to_nat node_idx)). lia.
    + apply list_elem_of_In, in_flat_map in Hnew as (i & Hi & He).
      apply in_seq in Hi. apply list_elem_of_In, elem_of_shard_block in He.
      simpl in He. destruct He as [-> Hl].
      split; [lia|]. rewrite Nat2Z.id.
      destruct (lookup_lt_is_Some_2 (nodes w) i) as [nd Hnd]; [lia|].
      rewrite (Hn _ _ Hnd). eexists. split; [reflexivity|].
      rewrite bool_decide_eq_true_2 by lia. unfold bump. simpl.
      assert (0 <= vcpu_count nd)
        by (apply Hcount; eapply list_elem_of_lookup_2; eassumption).
      lia.
Qed.

Lemma routable_lookup w vcpu_id :
  routable w -> 0 <= vcpu_id < Z.of_nat (length (vcpu_map w)) ->
  exists node_idx local_id nd,
    py_getitem (vcpu_map w) vcpu_id = Ok (node_idx, local_id)
    /\ py_getitem (nodes w) node_idx = Ok nd
    /\ 0 <= local_id < vcpu_count nd.
Proof.
  intros [_ Hmap] Hid.
  destruct (lookup_lt_is_Some_2 (vcpu_map w) (Z.to_nat vcpu_id))
    as [[node_idx local_id] He]; [lia|].
  destruct (Hmap node_idx local_id) as (Hidx & nd & Hnd & Hl).
  { eapply list_elem_of_lookup_2. eassumption. }
  exists node_idx, local_id, nd.
  split; [apply getitem_nonneg; [lia | assumption]|].
  split; [apply getitem_nonneg; assumption | assumption].
Qed.

Lemma three_nodes_routable : routable three_nodes.
Proof.
  split.
  - intros nd Hnd. simpl in Hnd.
    repeat (apply elem_of_cons in Hnd as [->|Hnd]; [simpl; lia|]).
    apply elem_of_nil in Hnd. contradiction.
  - intros node_idx local_id Hin. apply elem_of_nil in Hin. contradiction.
Qed.

(** X6: routing stays valid.  If every entry of the map names a connected
    node and a local id below that node's count, it is so again after any
    call of any method, however the call ends; and then every id from 0 up
    to the length of the map finds its entry and its node. *)
Theorem routing_stays_valid (c : method) (w : world) :
  routable w ->
  routable (snd (invoke c w))
  /\ forall vcpu_id,
       0 <= vcpu_id < Z.of_nat (length (vcpu_map (snd (invoke c w)))) ->
       exists node_idx local_id nd,
         py_getitem (vcpu_map (snd (invoke c w))) vcpu_id = Ok (node_idx, local_id)
         /\ py_getitem (nodes (snd (invoke c w))) node_idx = Ok nd
         /\ 0 <= local_id < vcpu_count nd.
Proof.
  intros Hr.
  assert (Hr' : routable (snd (invoke c w))).
  { destruct c; cbn [invoke].
    - apply spawn_routable. assumption.
    - eapply routable_same_cluster; [apply load_program_cluster | assumption].
    - eapply routable_same_cluster; [apply run_all_cluster | assumption].
    - eapply routable_same_cluster; [|exact Hr].
      apply (keeps_bind _ same_cluster_trans);
        [apply read_memory_cluster | intros; apply (keeps_ret _ same_cluster_refl)].
    - eapply routable_same_cluster; [|exact Hr].
      apply (keeps_bind _ same_cluster_trans);
        [apply get_telemetry_cluster | intros; apply (keeps_ret _ same_cluster_refl)]. }
  split; [assumption|]. intros vcpu_id Hid. apply routable_lookup; assumption.
Qed.

Lemma routing_stays_valid_witness :
  routable (snd (invoke (Spawn 5 64) three_nodes))
  /\ forall vcpu_id,
       0 <= vcpu_id
       < Z.of_nat (length (vcpu_map (snd (invoke (Spawn 5 64) three_nodes)))) ->
       exists node_idx local_id nd,
         py_getitem (vcpu_map (snd (invoke (Spawn 5 64) three_nodes))) vcpu_id
         = Ok (node_idx, local_id)
         /\ py_getitem (nodes (snd (invoke (Spawn 5 64) three_nodes))) node_idx = Ok nd
         /\ 0 <= local_id < vcpu_count nd.
Proof.
  apply (routing_stays_valid (Spawn 5 64) three_nodes).
  exact three_nodes_routable.
Defined.

(** *** Where a global id lands *)

Lemma lookup_range (n l : Z) : 0 <= l < n -> range n !! Z.to_nat l = Some l.
Proof.
  intros Hl. unfold range. rewrite list_lookup_fmap, lookup_seq_lt by lia.
  simpl. f_equal. lia.
Qed.

Lemma lookup_shard_block i count l :
  0 <= l < count -> shard_block i count !! Z.to_nat l = Some (i, l).
Proof.
  intros Hl. unfold shard_block. rewrite list_lookup_fmap, lookup_range by lia.
  reflexivity.
Qed.

Lemma Zsum_cons (a : Z) (l : list Z) : Zsum (a :: l) = a + Zsum l.
Proof. reflexivity. Qed.

Lemma Zsum_nonneg (l : list Z) : Forall (fun a => 0 <= a) l -> 0 <= Zsum l.
Proof.
  induction 1 as [|a l Ha _ IH]; [reflexivity|]. rewrite Zsum_cons. lia.
Qed.

(** In the blocks of nodes [k], [k+1], ..., the entry [l] of node [i] comes
    after the whole blocks of the nodes before it. *)
Lemma lookup_blocks (count : nat -> Z) : forall (n k i : nat) (l : Z),
  (forall x, 0 <= count x) ->
  (k <= i < k + n)%nat -> 0 <= l < count i ->
  flat_map (fun x : nat => shard_block (Z.of_nat x) (count x)) (seq k n)
    !! Z.to_nat (Zsum (count <$> seq k (i - k)) + l)
  = Some (Z.of_nat i, l).
Proof.
  induction n as [|n IH]; intros k i l Hpos Hi Hl; [lia|].
  cbn [seq flat_map].
  destruct (decide (i = k)) as [->|Hne].
  - rewrite Nat.sub_diag. simpl. rewrite lookup_app_l
      by (rewrite length_shard_block; lia).
    apply lookup_shard_block. assumption.
  - replace (i - k)%nat with (S (i - S k)) by lia.
    cbn [seq fmap list_fmap]. rewrite Zsum_cons.
    assert (Hs : 0 <= Zsum (count <$> seq (S k) (i - S k)))
      by (apply Zsum_nonneg, Forall_fmap, Forall_true; exact Hpos).
    rewrite lookup_app_r by (rewrite length_shard_block; specialize (Hpos k); lia).
    rewrite length_shard_block.
    replace (Z.to_nat (count k + Zsum (count <$> seq (S k) (i - S k)) + l)
             - Z.to_nat (count k))%nat
      with (Z.to_nat (Zsum (count <$> seq (S k) (i - S k)) + l))
      by (specialize (Hpos k); lia).
    apply IH; [assumption | lia | assumption].
Qed.

Lemma lookup_shard_entries (total : Z) (M i : nat) (l : Z) :
  0 <= total -> (i < M)%nat ->
  0 <= l < shard_count total (Z.of_nat M) (Z.of_nat i) ->
  shard_entries M total
    !! Z.to_nat (block_start total (Z.of_nat M) (Z.of_nat i) + l)
  = Some (Z.of_nat i, l).
Proof.
  intros Ht Hi Hl. unfold shard_entries, block_start.
  pose proof (Z.mod_pos_bound total (Z.of_nat M) ltac:(lia)) as Hr.
  pose proof (shard_count_partial_sum total (Z.of_nat M) i) as Hsum.
  rewrite Z.max_r in Hsum by lia.
  rewrite <- Hsum.
  pose proof (lookup_blocks
                (fun x : nat => shard_count total (Z.of_nat M) (Z.of_nat x))
                M 0 i l) as H.
  rewrite Nat.sub_0_r in H. apply H; [|lia|assumption].
  intros x. apply shard_count_bounds; lia.
Qed.

Lemma block_start_nonneg (total M i : Z) :
  0 <= total -> 0 < M -> 0 <= i -> 0 <= block_start total M i.
Proof.
  intros Ht HM Hi. unfold block_start.
  pose proof (Z.mod_pos_bound total M HM).
  assert (0 <= total / M) by (apply Z.div_pos; lia). nia.
Qed.

(** X7: where a global id lands.  After one spawn of [total] on a cluster
    whose map was empty, node [i]'s vCPUs have the global ids from
    [i * per_node + min(i, remainder)] on: the id at distance [l] from there
    is the entry [(i, l)], and a [read_memory] of it goes out on node [i]'s
    socket with [l] as the local id. *)
Theorem spawn_then_read_memory_routes
    (total mem : Z) (w w' : world) (i : nat) (nd : node) (l offset size : Z) :
  vcpu_map w = [] ->
  spawn total mem w = (Ok tt, w') ->
  0 <= total < 2 ^ 32 ->
  nodes w !! i = Some nd ->
  0 <= l < shard_count total (Z.of_nat (length (nodes w))) (Z.of_nat i) ->
  0 <= offset < 2 ^ 64 -> 0 <= size < 2 ^ 64 ->
  py_getitem (vcpu_map w')
    (block_start total (Z.of_nat (length (nodes w))) (Z.of_nat i) + l)
  = Ok (Z.of_nat i, l)
  /\ exists rest,
       trace (snd (read_memory
                     (block_start total (Z.of_nat (length (nodes w))) (Z.of_nat i) + l)
                     offset size w'))
       = trace w'
           ++ Sent (sock nd)
                (hive_request CMD_READ_MEM
                   (le_split 4 l ++ repeat Byte.x00 4
                      ++ le_split 8 offset ++ le_split 8 size))
           :: rest.
Proof.
  intros Hempty Hspawn Ht Hnd Hl Ho Hs.
  pose proof (lookup_lt_Some _ _ _ Hnd) as Hi.
  apply spawn_shape in Hspawn as (Hmap & _ & Hnodes).
  rewrite Hempty, app_nil_l in Hmap.
  pose proof (block_start_nonneg total (Z.of_nat (length (nodes w))) (Z.of_nat i)
                ltac:(lia) ltac:(lia) ltac:(lia)) as Hstart.
  pose proof (shard_count_bounds total (Z.of_nat (length (nodes w))) (Z.of_nat i)
                ltac:(lia) ltac:(lia) ltac:(lia)) as Hshare.
  assert (Hentry : vcpu_map w'
                     !! Z.to_nat (block_start total (Z.of_nat (length (nodes w)))
                                    (Z.of_nat i) + l)
                   = Some (Z.of_nat i, l)).
  { rewrite Hmap. apply lookup_shard_entries; [lia | assumption | assumption]. }
  split; [apply getitem_nonneg; [lia | assumption]|].
  specialize (Hnodes _ _ Hnd).
  erewrite read_memory_sends;
    [ | lia | exact Hentry | lia | rewrite Nat2Z.id; exact Hnodes
      | lia | assumption | assumption ].
  assert (Hk : keeps trace_grows
                 (resp_payload <- _recv_resp (sock nd) ;; ret resp_payload)).
  { apply (keeps_bind _ trace_grows_trans);
      [apply recv_resp_trace | intros; apply (keeps_ret _ trace_grows_refl)]. }
  cbn [bump sock].
  match goal with
  | |- context [snd (_ ?w0)] => destruct (Hk w0) as (evs & Htr & _)
  end.
  exists evs. rewrite Htr. unfold sent. simpl. rewrite <- app_assoc. reflexivity.
Qed.

Lemma spawn_then_read_memory_routes_witness :
  py_getitem (vcpu_map (snd (spawn 5 64 three_nodes)))
    (block_start 5 (Z.of_nat (length (nodes three_nodes))) (Z.of_nat 1) + 1)
  = Ok (Z.of_nat 1, 1)
  /\ exists rest,
       trace (snd (read_memory
                     (block_start 5 (Z.of_nat (length (nodes three_nodes)))
                        (Z.of_nat 1) + 1)
                     128 8 (snd (spawn 5 64 three_nodes))))
       = trace (snd (spawn 5 64 three_nodes))
           ++ Sent (sock (Node 1 "10.0.0.2:6000" 0))
                (hive_request CMD_READ_MEM
                   (le_split 4 1 ++ repeat Byte.x00 4
                      ++ le_split 8 128 ++ le_split 8 8))
           :: rest.
Proof.
  apply (spawn_then_read_memory_routes 5 64 three_nodes
           (snd (spawn 5 64 three_nodes)) 1 (Node 1 "10.0.0.2:6000" 0) 1 128 8).
  - reflexivity.
  - vm_compute. reflexivity.
  - lia.
  - reflexivity.
  - vm_compute. split; congruence.
  - lia.
  - lia.
Defined.

(** The cluster of the container test: ten nodes, ten thousand vCPUs, a
    thousand each; the global id 5000 is the first vCPU of the sixth node. *)
Example vcpu_5000_of_10000_over_10 :
  shard_entries 10 10000 !! Z.to_nat 5000 = Some (5, 0)
  /\ Z.of_nat (length (shard_entries 10 10000)) = 10000.
Proof. vm_compute. split; reflexivity. Qed.

(** ** [load_program] *)

Lemma encode_instruction_fits instr :
  fits_slot instr -> encode_instruction instr = Ok (instruction_slot instr).
Proof.
  destruct instr as [[[o a] b] i]. intros (Ho & Ha & Hb & Hi).
  unfold encode_instruction, instruction_slot. apply pack_BBBxI; assumption.
Qed.

Lemma in_range_false c v :
  ~ 0 <= v < 2 ^ (8 * Z.of_nat (PyStruct.size c)) -> in_range c v = false.
Proof.
  intros H. destruct (in_range c v) eqn:E; [|reflexivity].
  apply in_range_inv in E. contradiction.
Qed.

Lemma encode_instruction_unfit instr :
  ~ fits_slot instr -> encode_instruction instr = Raise StructError.
Proof.
  destruct instr as [[[o a] b] i]. intros Hno.
  unfold encode_instruction, pack. cbn [pack_from].
  destruct (in_range uB o) eqn:Ho; [|reflexivity].
  cbn [fmap option_fmap option_map pack_from].
  destruct (in_range uB a) eqn:Ha; [|reflexivity].
  cbn [fmap option_fmap option_map pack_from].
  destruct (in_range uB b) eqn:Hb; [|reflexivity].
  cbn [fmap option_fmap option_map pack_from].
  destruct (in_range uI i) eqn:Hi; [|reflexivity].
  exfalso. apply Hno.
  apply in_range_inv in Ho, Ha, Hb, Hi.
  split; [exact Ho | split; [exact Ha | split; [exact Hb | exact Hi]]].
Qed.

Lemma encode_program_fits program : forall acc,
  Forall fits_slot program ->
  encode_program acc program = Ok (acc ++ concat (instruction_slot <$> program)).
Proof.
  induction program as [|instr program IH]; intros acc Hfit.
  - simpl. rewrite app_nil_r. reflexivity.
  - apply Forall_cons in Hfit as [Hi Hfit]. cbn [encode_program].
    rewrite (encode_instruction_fits _ Hi), (IH _ Hfit).
    cbn [fmap list_fmap concat]. rewrite <- app_assoc. reflexivity.
Qed.

Lemma encode_program_unfit program : forall acc,
  Exists (fun instr => ~ fits_slot instr) program ->
  encode_program acc program = Raise StructError.
Proof.
  induction program as [|instr program IH]; intros acc Hex.
  - apply Exists_nil in Hex. contradiction.
  - cbn [encode_program].
    destruct (encode_instruction instr) as [slot|e] eqn:He.
    + apply Exists_cons in Hex as [Hno|Hex]; [|apply IH; assumption].
      rewrite (encode_instruction_unfit _ Hno) in He. discriminate.
    + unfold encode_instruction in He. destruct instr as [[[o a] b] i].
      unfold pack in He. destruct (pack_from _ _ _); congruence.
Qed.

Lemma length_instruction_slot instr : length (instruction_slot instr) = 8%nat.
Proof.
  destruct instr as [[[o a] b] i]. unfold instruction_slot.
  rewrite length_app, length_le_split. reflexivity.
Qed.

Lemma length_slots program :
  length (concat (instruction_slot <$> program)) = (8 * length program)%nat.
Proof.
  induction program as [|instr program IH]; [reflexivity|].
  cbn [fmap list_fmap concat length].
  rewrite length_app, length_instruction_slot, IH. lia.
Qed.


Lemma load_program_sends w vcpu_id program node_idx local_id nd :
  0 <= vcpu_id -> vcpu_map w !! Z.to_nat vcpu_id = Some (node_idx, local_id) ->
  0 <= node_idx -> nodes w !! Z.to_nat node_idx = Some nd ->
  0 <= local_id < 2 ^ 32 ->
  Forall fits_slot program ->
  Z.of_nat (8 + 8 * length program) < 2 ^ 32 ->
  load_program vcpu_id program w
  = (_recv_resp (sock nd) ;;; ret tt)
      (sent (sock nd)
         (hive_request CMD_LOAD_PROG
            (le_split 4 local_id ++ le_split 4 (Z.of_nat (length program))
               ++ concat (instruction_slot <$> program))) w).
Proof.
  intros Hid Hentry Hidx Hnd Hl Hfit Hlen. unfold load_program.
  rewrite bind_gets, (lookup_nonneg_lt _ _ _ Hid Hentry).
  unfold bind at 1, lift at 1. rewrite (getitem_nonneg _ _ _ Hid Hentry).
  rewrite bind_gets.
  unfold bind at 1, lift at 1. rewrite (getitem_nonneg _ _ _ Hidx Hnd).
  unfold bind at 1, lift at 1. rewrite pack_II by lia.
  unfold bind at 1, lift at 1. rewrite (encode_program_fits _ _ Hfit).
  rewrite app_nil_l.
  unfold bind at 1. rewrite send_cmd_ok.
  - rewrite <- app_assoc. reflexivity.
  - unfold CMD_LOAD_PROG. lia.
  - rewrite !length_app, !length_le_split, length_slots. lia.
Qed.



(** C9: the range guard only turns away ids at or past the end of the map.
    A negative id no further from zero than the map is long passes it and
    is routed, by Python's indexing from the end, to the entry at
    [len(vcpu_map) + vcpu_id]: the call does exactly what the call with that
    id does and never ends in the guard's exception, and its request goes
    out on the socket of that entry's node, carrying that entry's local
    id. *)
Theorem negative_id_aliases
    (vcpu_id : Z) (program : list instruction) (offset size : Z) (w : world) :
  - Z.of_nat (length (vcpu_map w)) <= vcpu_id < 0 ->
  (exists entry,
      vcpu_map w !! Z.to_nat (Z.of_nat (length (vcpu_map w)) + vcpu_id) = Some entry
      /\ py_getitem (vcpu_map w) vcpu_id = Ok entry)
  /\ load_program vcpu_id program w
     = load_program (Z.of_nat (length (vcpu_map w)) + vcpu_id) program w
  /\ read_memory vcpu_id offset size w
     = read_memory (Z.of_nat (length (vcpu_map w)) + vcpu_id) offset size w
  /\ fst (load_program vcpu_id program w) <> Raise (IndexError "vCPU ID out of range")
  /\ fst (read_memory vcpu_id offset size w) <> Raise (IndexError "vCPU ID out of range")
  /\ forall node_idx local_id nd,
       vcpu_map w !! Z.to_nat (Z.of_nat (length (vcpu_map w)) + vcpu_id)
       = Some (node_idx, local_id) ->
       0 <= node_idx -> nodes w !! Z.to_nat node_idx = Some nd ->
       0 <= local_id < 2 ^ 32 ->
       (0 <= offset < 2 ^ 64 -> 0 <= size < 2 ^ 64 ->
          exists rest,
            trace (snd (read_memory vcpu_id offset size w))
            = trace w
                ++ Sent (sock nd)
                     (hive_request CMD_READ_MEM
                        (le_split 4 local_id ++ repeat Byte.x00 4
                           ++ le_split 8 offset ++ le_split 8 size))
                :: rest)
       /\ (Forall fits_slot program ->
           Z.of_nat (8 + 8 * length program) < 2 ^ 32 ->
           exists rest,
             trace (snd (load_program vcpu_id program w))
             = trace w
                 ++ Sent (sock nd)
                      (hive_request CMD_LOAD_PROG
                         (le_split 4 local_id
                            ++ le_split 4 (Z.of_nat (length program))
                            ++ concat (instruction_slot <$> program)))
                 :: rest).
Proof.
  intros Hi.
  destruct (getitem_negative (vcpu_map w) vcpu_id Hi) as (entry & Hl & Hn & Ha).
  assert (Hg1 : (Z.of_nat (length (vcpu_map w)) <=? vcpu_id) = false)
    by (apply Z.leb_gt; lia).
  assert (Hg2 : (Z.of_nat (length (vcpu_map w))
                 <=? Z.of_nat (length (vcpu_map w)) + vcpu_id) = false)
    by (apply Z.leb_gt; lia).
  assert (Hload : load_program vcpu_id program w
                  = load_program (Z.of_nat (length (vcpu_map w)) + vcpu_id) program w).
  { unfold load_program. rewrite !bind_gets, Hg1, Hg2.
    unfold bind at 1 3, lift at 1 7. rewrite Hn, Ha. reflexivity. }
  assert (Hread : read_memory vcpu_id offset size w
                  = read_memory (Z.of_nat (length (vcpu_map w)) + vcpu_id)
                      offset size w).
  { unfold read_memory. rewrite !bind_gets, Hg1, Hg2.
    unfold bind at 1 3, lift at 1 5. rewrite Hn, Ha. reflexivity. }
  split; [exists entry; auto|].
  split; [exact Hload|]. split; [exact Hread|].
  split; [intros H; apply load_program_guard_only in H; lia|].
  split; [intros H; apply read_memory_guard_only in H; lia|].
  intros node_idx local_id nd Hentry Hidx Hnd Hlocal. split.
  - intros Ho Hs. rewrite Hread.
    erewrite read_memory_sends;
      [ | lia | exact Hentry | exact Hidx | exact Hnd | exact Hlocal
        | exact Ho | exact Hs ].
    assert (Hk : keeps trace_grows
                   (resp_payload <- _recv_resp (sock nd) ;; ret resp_payload)).
    { apply (keeps_bind _ trace_grows_trans);
        [apply recv_resp_trace | intros; apply (keeps_ret _ trace_grows_refl)]. }
    match goal with
    | |- context [snd (_ ?w0)] => destruct (Hk w0) as (evs & Htr & _)
    end.
    exists evs. rewrite Htr. unfold sent. simpl. rewrite <- app_assoc. reflexivity.
  - intros Hfit Hlen. rewrite Hload.
    erewrite load_program_sends;
      [ | lia | exact Hentry | exact Hidx | exact Hnd | exact Hlocal
        | exact Hfit | exact Hlen ].
    assert (Hk : keeps trace_grows (_recv_resp (sock nd) ;;; ret tt)).
    { apply (keeps_bind _ trace_grows_trans);
        [apply recv_resp_trace | intros; apply (keeps_ret _ trace_grows_refl)]. }
    match goal with
    | |- context [snd (_ ?w0)] => destruct (Hk w0) as (evs & Htr & _)
    end.
    exists evs. rewrite Htr. unfold sent. simpl. rewrite <- app_assoc. reflexivity.
Qed.

Lemma negative_id_aliases_witness :
  (exists rest,
      trace (snd (read_memory (-2) 64 8 (snd (spawn 5 64 three_nodes))))
      = trace (snd (spawn 5 64 three_nodes))
          ++ Sent (sock (Node 1 "10.0.0.2:6000" 2))
               (hive_request CMD_READ_MEM
                  (le_split 4 1 ++ repeat Byte.x00 4
                     ++ le_split 8 64 ++ le_split 8 8))
          :: rest)
  /\ (exists rest,
         trace (snd (load_program (-2) [(5, 0, 0, 100); (14, 0, 0, 0)]
                       (snd (spawn 5 64 three_nodes))))
         = trace (snd (spawn 5 64 three_nodes))
             ++ Sent (sock (Node 1 "10.0.0.2:6000" 2))
                  (hive_request CMD_LOAD_PROG
                     (le_split 4 1
                        ++ le_split 4 (Z.of_nat (length [(5, 0, 0, 100);
                                                         (14, 0, 0, 0)]))
                        ++ concat (instruction_slot
                                     <$> [(5, 0, 0, 100); (14, 0, 0, 0)])))
             :: rest)
  /\ fst (read_memory (-2) 64 8 (snd (spawn 5 64 three_nodes)))
     <> Raise (IndexError "vCPU ID out of range").
Proof.
  assert (Hlen : length (vcpu_map (snd (spawn 5 64 three_nodes))) = 5%nat)
    by (vm_compute; reflexivity).
  destruct (negative_id_aliases (-2) [(5, 0, 0, 100); (14, 0, 0, 0)] 64 8
              (snd (spawn 5 64 three_nodes)))
    as (_ & _ & _ & _ & Hguard & Hroute).
  - rewrite Hlen. lia.
  - destruct (Hroute 1 1 (Node 1 "10.0.0.2:6000" 2)) as [Hread Hload].
    + rewrite Hlen. vm_compute. reflexivity.
    + lia.
    + vm_compute. reflexivity.
    + lia.
    + split; [apply Hread; lia|]. split; [|exact Hguard].
      apply Hload; [repeat constructor; simpl; lia | simpl; lia].
Defined.

(** X9: a program with an instruction that does not fit its slot -- an
    opcode or register above 255, an immediate that is negative or above
    32 bits -- is never sent, not even in part: the call raises and the
    world is as it was.  With a valid id what it raises is [struct.error]. *)
Theorem load_program_rejects_unfit w vcpu_id program :
  Exists (fun instr => ~ fits_slot instr) program ->
  (exists e, load_program vcpu_id program w = (Raise e, w))
  /\ forall node_idx local_id nd,
       0 <= vcpu_id ->
       vcpu_map w !! Z.to_nat vcpu_id = Some (node_idx, local_id) ->
       0 <= node_idx -> nodes w !! Z.to_nat node_idx = Some nd ->
       load_program vcpu_id program w = (Raise StructError, w).
Proof.
  intros Hex. split.
  - unfold load_program. rewrite bind_gets.
    destruct (_ <=? _); [eexists; reflexivity|].
    unfold bind at 1, lift at 1.
    destruct (py_getitem (vcpu_map w) vcpu_id) as [[node_idx local_id]|e];
      [|eexists; reflexivity].
    rewrite bind_gets. unfold bind at 1, lift at 1.
    destruct (py_getitem (nodes w) node_idx) as [nd|e]; [|eexists; reflexivity].
    unfold bind at 1, lift at 1.
    destruct (pack _ _) as [h|e]; [|eexists; reflexivity].
    unfold bind at 1, lift at 1.
    rewrite (encode_program_unfit _ _ Hex). eexists. reflexivity.
  - intros node_idx local_id nd Hid Hentry Hidx Hnd. unfold load_program.
    rewrite bind_gets, (lookup_nonneg_lt _ _ _ Hid Hentry).
    unfold bind at 1, lift at 1. rewrite (getitem_nonneg _ _ _ Hid Hentry).
    rewrite bind_gets.
    unfold bind at 1, lift at 1. rewrite (getitem_nonneg _ _ _ Hidx Hnd).
    unfold bind at 1, lift at 1.
    destruct (pack _ _) as [h|e] eqn:Hpack.
    + unfold bind at 1, lift at 1.
      rewrite (encode_program_unfit _ _ Hex). reflexivity.
    + unfold pack in Hpack. destruct (pack_from _ _ _); congruence.
Qed.

Lemma load_program_rejects_unfit_witness :
  exists e, load_program 0 [(5, 0, 0, 100); (8, 0, 0, -8)] one_vcpu = (Raise e, one_vcpu).
Proof.
  apply (load_program_rejects_unfit one_vcpu 0 [(5, 0, 0, 100); (8, 0, 0, -8)]).
  apply Exists_cons_tl, Exists_cons_hd. simpl. lia.
Defined.

(** ** One call, one connection *)

Lemma touches_only_refl s w : touches_only s w w.
Proof.
  split; [|reflexivity]. exists []. rewrite app_nil_r.
  split; [reflexivity | constructor].
Qed.

Lemma touches_only_trans s w1 w2 w3 :
  touches_only s w1 w2 -> touches_only s w2 w3 -> touches_only s w1 w3.
Proof.
  intros [(e1 & H1 & F1) I1] [(e2 & H2 & F2) I2]. split.
  - exists (e1 ++ e2). rewrite H2, H1, app_assoc.
    split; [reflexivity | apply Forall_app; auto].
  - intros s' Hs'. rewrite I2, I1 by assumption. reflexivity.
Qed.

Lemma recv_touches s k : keeps (touches_only s) (recv s k).
Proof.
  intros w. unfold recv. destruct (inbox w !! s) as [p|]; simpl.
  - split.
    + eexists. split; [reflexivity|].
      apply Forall_fmap, Forall_true. intros b. reflexivity.
    + intros s' Hs'. apply list_lookup_insert_ne. congruence.
  - apply touches_only_refl.
Qed.

Lemma send_cmd_touches s cmd payload : keeps (touches_only s) (_send_cmd s cmd payload).
Proof.
  intros w. unfold _send_cmd, bind, lift.
  destruct (pack _ _) as [h|e]; simpl; [|apply touches_only_refl].
  split; [|reflexivity].
  eexists. split; [reflexivity|]. repeat constructor.
Qed.

Lemma recv_resp_touches s : keeps (touches_only s) (_recv_resp s).
Proof.
  apply (recv_resp_keeps (touches_only s) s
           (touches_only_refl s) (touches_only_trans s)).
  intros k. apply recv_touches.
Qed.

(** X10: a call for one vCPU uses one connection.  Whatever [load_program]
    or [read_memory] sends and receives for an id of the map is on the
    socket of the node that owns it, however the call ends; the other
    connections see no byte sent and lose no pending byte. *)
Theorem per_vcpu_call_touches_one_node
    w vcpu_id (program : list instruction) (offset size : Z)
    node_idx local_id nd :
  0 <= vcpu_id -> vcpu_map w !! Z.to_nat vcpu_id = Some (node_idx, local_id) ->
  0 <= node_idx -> nodes w !! Z.to_nat node_idx = Some nd ->
  touches_only (sock nd) w (snd (load_program vcpu_id program w))
  /\ touches_only (sock nd) w (snd (read_memory vcpu_id offset size w)).
Proof.
  intros Hid Hentry Hidx Hnd. split.
  - unfold load_program.
    rewrite bind_gets, (lookup_nonneg_lt _ _ _ Hid Hentry).
    unfold bind at 1, lift at 1. rewrite (getitem_nonneg _ _ _ Hid Hentry).
    rewrite bind_gets.
    unfold bind at 1, lift at 1. rewrite (getitem_nonneg _ _ _ Hidx Hnd).
    match goal with
    | |- touches_only _ w (snd (?m w)) =>
        enough (H : keeps (touches_only (sock nd)) m) by apply H
    end.
    repeat first
      [ apply send_cmd_touches | apply recv_resp_touches
      | keeps_step (touches_only_refl (sock nd)) (touches_only_trans (sock nd)) ].
  - unfold read_memory.
    rewrite bind_gets, (lookup_nonneg_lt _ _ _ Hid Hentry).
    unfold bind at 1, lift at 1. rewrite (getitem_nonneg _ _ _ Hid Hentry).
    rewrite bind_gets.
    unfold bind at 1, lift at 1. rewrite (getitem_nonneg _ _ _ Hidx Hnd).
    match goal with
    | |- touches_only _ w (snd (?m w)) =>
        enough (H : keeps (touches_only (sock nd)) m) by apply H
    end.
    repeat first
      [ apply send_cmd_touches | apply recv_resp_touches
      | keeps_step (touches_only_refl (sock nd)) (touches_only_trans (sock nd)) ].
Qed.

Lemma per_vcpu_call_touches_one_node_witness :
  touches_only (sock (Node 1 "10.0.0.2:6000" 2)) (snd (spawn 5 64 three_nodes))
    (snd (load_program 3 [(14, 0, 0, 0)] (snd (spawn 5 64 three_nodes))))
  /\ touches_only (sock (Node 1 "10.0.0.2:6000" 2)) (snd (spawn 5 64 three_nodes))
       (snd (read_memory 3 0 8 (snd (spawn 5 64 three_nodes)))).
Proof.
  apply (per_vcpu_call_touches_one_node (snd (spawn 5 64 three_nodes)) 3
           [(14, 0, 0, 0)] 0 8 1 1 (Node 1 "10.0.0.2:6000" 2)).
  - lia.
  - vm_compute. reflexivity.
  - lia.
  - vm_compute. reflexivity.
Defined.

(** ** [run_all] *)

(** A request answered with status 200: what is returned and what has been
    used of the connection. *)
Lemma exchange_ok s cmd request request_id payload rest w :
  inbox w !! s = Some (hive_response 200 request_id payload ++ rest) ->
  0 <= request_id < 2 ^ 32 -> Z.of_nat (length payload) < 2 ^ 32 ->
  0 <= cmd < 2 ^ 32 -> Z.of_nat (length request) < 2 ^ 32 ->
  (_send_cmd s cmd request ;;; _recv_resp s) w
  = (Ok (match payload with [] => None | _ :: _ => Some payload end),
     consumed s (12 + length payload) (sent s (hive_request cmd request) w)).
Proof.
  intros Hp Hrid Hlen Hcmd Hreq. unfold bind.
  rewrite send_cmd_ok by assumption.
  erewrite recv_resp_ok; [reflexivity | exact Hp | assumption | assumption].
Qed.

Lemma exchange_trace s data request_id payload rest w :
  inbox w !! s = Some (hive_response 200 request_id payload ++ rest) ->
  trace (consumed s (12 + length payload) (sent s data w))
  = trace w ++ Sent s data :: (Received s <$> hive_response 200 request_id payload).
Proof.
  intros Hp. unfold consumed, sent, pending.
  cbn [trace inbox set_trace set_inbox]. rewrite Hp. cbn [default id].
  rewrite take_app_length'
    by (unfold hive_response; rewrite !length_app, !length_le_split; lia).
  rewrite <- app_assoc. reflexivity.
Qed.

(** The loop of [run_all] over nodes that answer: it comes out of them with
    their exchanges in the trace and the other connections untouched. *)
Lemma run_loop_answered (cycles : Z) : forall (pre : list node)
    (resps : list (Z * bytes)) (tl : list node) (w : world),
  0 <= cycles < 2 ^ 64 ->
  NoDup (sock <$> pre) ->
  Forall2 (answers w) pre resps ->
  exists w1,
    for_each (pre ++ tl)
      (fun nd => _send_cmd (sock nd) CMD_RUN_CLUSTER (le_split 8 cycles) ;;;
                 _recv_resp (sock nd) ;;; ret tt) w
    = for_each tl
        (fun nd => _send_cmd (sock nd) CMD_RUN_CLUSTER (le_split 8 cycles) ;;;
                   _recv_resp (sock nd) ;;; ret tt) w1
    /\ trace w1 = trace w ++ concat (zip_with (run_exchange cycles) pre resps)
    /\ (forall s, s ∉ sock <$> pre -> inbox w1 !! s = inbox w !! s).
Proof.
  induction pre as [|nd pre IH]; intros resps tl w Hc Hdup Hans.
  - apply Forall2_nil_inv_l in Hans as ->. exists w. simpl.
    rewrite app_nil_r. auto.
  - apply Forall2_cons_inv_l in Hans as ([rid payload] & resps' & Hnd & Hans & ->).
    destruct Hnd as (Hrid & Hlen & rest & Hp).
    rewrite fmap_cons in Hdup. apply NoDup_cons in Hdup as [Hfresh Hdup].
    cbn [app for_each].
    pose proof (exchange_ok (sock nd) CMD_RUN_CLUSTER (le_split 8 cycles)
                  rid payload rest w Hp Hrid Hlen) as Hturn.
    unfold bind in Hturn. unfold bind at 1 2.
    destruct (_send_cmd (sock nd) CMD_RUN_CLUSTER (le_split 8 cycles) w)
      as [[[]|e] wa].
    2:{ exfalso. assert (Raise e = Ok (match payload with
                                      | [] => None | _ :: _ => Some payload end)
                        :> result (option bytes)); [|discriminate].
        eapply (f_equal fst) in Hturn; [exact Hturn | | ];
          [unfold CMD_RUN_CLUSTER; lia | rewrite length_le_split; simpl; lia]. }
    unfold bind at 1.
    rewrite Hturn
      by (first [unfold CMD_RUN_CLUSTER; lia | rewrite length_le_split; simpl; lia]).
    unfold ret at 1. cbv iota.
    set (w0 := consumed (sock nd) (12 + length payload) _).
    destruct (IH resps' tl w0 Hc Hdup) as (w1 & Hloop & Htrace & Hframe).
    + apply Forall2_same_length_lookup.
      apply Forall2_same_length_lookup in Hans as [Hl Hans].
      split; [assumption|]. intros i nd' [rid' payload'] Hnd' Hrp'.
      specialize (Hans i nd' _ Hnd' Hrp'). cbn [answers] in Hans |- *.
      destruct Hans as (? & ? & rest' & Hp').
      repeat (split; [assumption|]). exists rest'.
      subst w0. rewrite inbox_consumed_ne; [exact Hp'|].
      intros Heq. apply Hfresh. rewrite <- Heq.
      apply list_elem_of_fmap_2. eapply list_elem_of_lookup_2. eassumption.
    + exists w1. split; [exact Hloop|]. split.
      * rewrite Htrace. subst w0. rewrite (exchange_trace _ _ _ _ _ _ Hp).
        cbn [zip_with concat run_exchange]. rewrite <- app_assoc. reflexivity.
      * intros s Hs. rewrite fmap_cons in Hs.
        apply not_elem_of_cons in Hs as [Hne Hs].
        rewrite (Hframe s Hs). subst w0.
        rewrite inbox_consumed_ne by assumption. reflexivity.
Qed.

(** X11: [run_all] broadcasts in node order.  When every node answers with
    status 200 on a socket of its own, the call returns, and the trace has
    gained, node after node, the [RUN_CLUSTER] request with the cycle count
    as a little-endian u64 followed by that node's whole response. *)
Theorem run_all_broadcast (cycles : Z) (w : world) (resps : list (Z * bytes)) :
  0 <= cycles < 2 ^ 64 ->
  NoDup (sock <$> nodes w) ->
  Forall2 (answers w) (nodes w) resps ->
  exists w',
    run_all cycles w = (Ok tt, w')
    /\ trace w' = trace w ++ concat (zip_with (run_exchange cycles) (nodes w) resps).
Proof.
  intros Hc Hdup Hans. unfold run_all.
  unfold bind at 1, lift at 1. rewrite pack_Q by assumption.
  rewrite bind_gets.
  destruct (run_loop_answered cycles (nodes w) resps [] w Hc Hdup Hans)
    as (w1 & Hloop & Htrace & _).
  rewrite app_nil_r in Hloop. exists w1. rewrite Hloop. split; [reflexivity|].
  exact Htrace.
Qed.

Lemma three_nodes_answer :
  Forall2 (answers three_nodes) (nodes three_nodes) [(0, []); (0, []); (0, [])].
Proof.
  repeat constructor; try (simpl; lia); exists ack; reflexivity.
Qed.

Lemma run_all_broadcast_witness :
  exists w',
    run_all 100 three_nodes = (Ok tt, w')
    /\ trace w'
       = trace three_nodes
           ++ concat (zip_with (run_exchange 100) (nodes three_nodes)
                        [(0, []); (0, []); (0, [])]).
Proof.
  apply (run_all_broadcast 100 three_nodes [(0, []); (0, []); (0, [])]).
  - lia.
  - apply (bool_decide_unpack _). reflexivity.
  - exact three_nodes_answer.
Defined.

(** X12: [run_all] stops at the first node that reports an error.  The
    nodes before it have run, the error surfaces with its status, and the
    nodes after it are never sent the command.  A cycle count that does not
    fit a u64 stops it before the first node. *)
Theorem run_all_stops_early (cycles : Z) (w : world) :
  (forall (pre post : list node) (nd : node) (resps : list (Z * bytes))
          (status request_id : Z) (payload rest : bytes),
      nodes w = pre ++ nd :: post ->
      0 <= cycles < 2 ^ 64 ->
      NoDup (sock <$> nodes w) ->
      Forall2 (answers w) pre resps ->
      inbox w !! sock nd = Some (hive_response status request_id payload ++ rest) ->
      0 <= status < 2 ^ 32 -> 0 <= request_id < 2 ^ 32 ->
      Z.of_nat (length payload) < 2 ^ 32 -> status <> 200 ->
      exists w',
        run_all cycles w
        = (Raise (RuntimeError ("Remote Error: " +:+ pretty status)), w')
        /\ trace w'
           = trace w
               ++ concat (zip_with (run_exchange cycles) pre resps)
               ++ Sent (sock nd) (hive_request CMD_RUN_CLUSTER (le_split 8 cycles))
               :: (Received (sock nd)
                     <$> le_split 4 status ++ le_split 4 request_id
                           ++ le_split 4 (Z.of_nat (length payload))))
  /\ (~ 0 <= cycles < 2 ^ 64 -> run_all cycles w = (Raise StructError, w)).
Proof.
  split.
  - intros pre post nd resps status rid payload rest Hnodes Hc Hdup Hans Hp
           Hst Hrid Hlen Hne.
    unfold run_all. unfold bind at 1, lift at 1. rewrite pack_Q by assumption.
    rewrite bind_gets, Hnodes. rewrite Hnodes, fmap_app in Hdup.
    apply NoDup_app in Hdup as (Hdup & Hsep & _).
    destruct (run_loop_answered cycles pre resps (nd :: post) w Hc Hdup Hans)
      as (w1 & Hloop & Htrace & Hframe).
    rewrite Hloop. cbn [for_each]. unfold bind at 1 2.
    rewrite send_cmd_ok
      by (first [unfold CMD_RUN_CLUSTER; lia | rewrite length_le_split; simpl; lia]).
    assert (Hp1 : inbox w1 !! sock nd
                  = Some (hive_response status rid payload ++ rest)).
    { rewrite Hframe; [exact Hp|]. intros Hin.
      apply (Hsep _ Hin). rewrite fmap_cons. apply list_elem_of_here. }
    unfold bind at 1.
    erewrite recv_resp_error;
      [ | unfold sent; cbn [inbox set_trace]; exact Hp1 | assumption..].
    eexists. split; [reflexivity|].
    unfold consumed, sent, pending. cbn [trace inbox set_trace set_inbox].
    rewrite Hp1, Htrace. cbn [default id].
    unfold hive_response. rewrite !app_assoc.
    rewrite <- (app_assoc _ payload rest).
    rewrite take_app_length'
      by (rewrite !length_app, !length_le_split; reflexivity).
    rewrite <- !app_assoc. reflexivity.
  - intros Hno. unfold run_all, bind, lift, pack. cbn [pack_from].
    rewrite (in_range_false uQ cycles Hno). reflexivity.
Qed.

Lemma run_all_stops_early_witness :
  exists w',
    run_all 100 second_fails
    = (Raise (RuntimeError ("Remote Error: " +:+ pretty 500)), w')
    /\ trace w'
       = trace second_fails
           ++ concat (zip_with (run_exchange 100) [Node 0 "a:6000" 0] [(0, [])])
           ++ Sent (sock (Node 1 "b:6000" 0))
                (hive_request CMD_RUN_CLUSTER (le_split 8 100))
           :: (Received (sock (Node 1 "b:6000" 0))
                 <$> le_split 4 500 ++ le_split 4 0
                       ++ le_split 4 (Z.of_nat (length (@nil byte)))).
Proof.
  apply (proj1 (run_all_stops_early 100 second_fails)
           [Node 0 "a:6000" 0] [Node 2 "c:6000" 0] (Node 1 "b:6000" 0)
           [(0, [])] 500 0 [] []).
  - reflexivity.
  - lia.
  - apply (bool_decide_unpack _). reflexivity.
  - repeat constructor; try (simpl; lia). exists []. reflexivity.
  - reflexivity.
  - lia.
  - lia.
  - simpl. lia.
  - lia.
Defined.

(** The third node never hears of the run. *)
Example run_all_third_node_untouched :
  Forall (fun e => ~ on_socket 2 e) (trace (snd (run_all 100 second_fails)))
  /\ pending 2 (snd (run_all 100 second_fails)) = ack.
Proof.
  split; [|vm_compute; reflexivity].
  vm_compute. repeat constructor; discriminate.
Qed.

(** ** [get_telemetry]: silent nodes and odd payloads *)

Lemma telemetry_loop_prefix : forall (pre : list node)
    (rps : list (Z * option (Z * Z))) (tl : list node)
    (total_instr total_gpu : Z) (w : world),
  NoDup (sock <$> pre) ->
  Forall2 (reports_or_silent w) pre rps ->
  exists w1,
    telemetry_loop (pre ++ tl) total_instr total_gpu w
    = telemetry_loop tl
        (total_instr + Zsum ((fun rp => (reported rp).1) <$> rps))
        (total_gpu + Zsum ((fun rp => (reported rp).2) <$> rps)) w1
    /\ forall s, s ∉ sock <$> pre -> inbox w1 !! s = inbox w !! s.
Proof.
  induction pre as [|nd pre IH]; intros rps tl total_instr total_gpu w Hdup Hrep.
  - apply Forall2_nil_inv_l in Hrep as ->. exists w. simpl.
    rewrite !Z.add_0_r. auto.
  - apply Forall2_cons_inv_l in Hrep as ([rid o] & rps' & Hnd & Hrep & ->).
    rewrite fmap_cons in Hdup. apply NoDup_cons in Hdup as [Hfresh Hdup].
    cbn [app telemetry_loop].
    assert (Hnext : forall w0 : world,
               (forall s, s <> sock nd -> inbox w0 !! s = inbox w !! s) ->
               Forall2 (reports_or_silent w0) pre rps').
    { intros w0 Hw0. apply Forall2_same_length_lookup.
      apply Forall2_same_length_lookup in Hrep as [Hl Hrep].
      split; [assumption|]. intros i nd' [rid' o'] Hnd' Hrp'.
      specialize (Hrep i nd' _ Hnd' Hrp').
      assert (Hs : sock nd' <> sock nd).
      { intros Heq. apply Hfresh. rewrite <- Heq.
        apply list_elem_of_fmap_2. eapply list_elem_of_lookup_2. eassumption. }
      destruct o' as [[instr' gpu']|]; cbn [reports_or_silent reports answers] in *.
      - destruct Hrep as (? & ? & ? & rest' & Hp').
        repeat (split; [assumption|]). exists rest'. rewrite Hw0; assumption.
      - destruct Hrep as (? & ? & rest' & Hp').
        repeat (split; [assumption|]). exists rest'. rewrite Hw0; assumption. }
    destruct o as [[instr gpu]|]; cbn [reports_or_silent reports answers] in Hnd.
    + destruct Hnd as (Hrid & Hi & Hg & rest & Hp).
      pose proof (telemetry_turn nd rid instr gpu rest w Hp Hrid Hi Hg) as Hturn.
      unfold bind in Hturn. unfold bind at 1.
      destruct (_send_cmd (sock nd) CMD_GET_STATS [] w) as [[[]|e] wa];
        [|discriminate Hturn].
      unfold bind at 1. rewrite Hturn.
      destruct (le_split 8 instr ++ le_split 8 gpu) as [|b d] eqn:Hpayload.
      { apply (f_equal length) in Hpayload.
        rewrite length_app, !length_le_split in Hpayload. discriminate. }
      rewrite <- Hpayload. unfold bind at 1, lift.
      rewrite unpack_QQ by apply length_le_split.
      rewrite !le_combine_split_small by assumption.
      set (w0 := consumed (sock nd) 28 _).
      destruct (IH rps' tl (total_instr + instr) (total_gpu + gpu) w0 Hdup)
        as (w1 & Hloop & Hframe).
      { apply Hnext. intros s Hs. subst w0.
        rewrite inbox_consumed_ne by assumption. reflexivity. }
      exists w1. split.
      * rewrite Hloop. unfold reported. cbn [fmap list_fmap].
        rewrite !Zsum_cons. cbn [snd fst default].
        rewrite !Z.add_assoc. reflexivity.
      * intros s Hs. rewrite fmap_cons in Hs.
        apply not_elem_of_cons in Hs as [Hne Hs]. rewrite (Hframe s Hs).
        subst w0. rewrite inbox_consumed_ne by assumption. reflexivity.
    + destruct Hnd as (Hrid & Hlen & rest & Hp).
      pose proof (exchange_ok (sock nd) CMD_GET_STATS [] rid [] rest w Hp Hrid Hlen)
        as Hturn.
      unfold bind in Hturn. unfold bind at 1.
      destruct (_send_cmd (sock nd) CMD_GET_STATS [] w) as [[[]|e] wa].
      2:{ exfalso. assert (Raise e = Ok None :> result (option bytes));
            [|discriminate].
          eapply (f_equal fst) in Hturn; [exact Hturn | | ];
            [unfold CMD_GET_STATS; lia | simpl; lia]. }
      unfold bind at 1.
      rewrite Hturn by (first [unfold CMD_GET_STATS; lia | simpl; lia]).
      set (w0 := consumed (sock nd) (12 + length []) _).
      destruct (IH rps' tl total_instr total_gpu w0 Hdup)
        as (w1 & Hloop & Hframe).
      { apply Hnext. intros s Hs. subst w0.
        rewrite inbox_consumed_ne by assumption. reflexivity. }
      exists w1. split.
      * rewrite Hloop. unfold reported. cbn [fmap list_fmap].
        rewrite !Zsum_cons. cbn [snd fst default].
        rewrite !Z.add_0_l. reflexivity.
      * intros s Hs. rewrite fmap_cons in Hs.
        apply not_elem_of_cons in Hs as [Hne Hs]. rewrite (Hframe s Hs).
        subst w0. rewrite inbox_consumed_ne by assumption. reflexivity.
Qed.

(** X13: what [get_telemetry] makes of the payload.  A node that answers
    with status 200 and no payload counts for nothing in the sums; a payload
    that is there but is not sixteen bytes long makes the call raise
    [struct.error], after the nodes before have been asked. *)
Theorem get_telemetry_payloads (w : world) :
  (forall rps : list (Z * option (Z * Z)),
      NoDup (sock <$> nodes w) ->
      Forall2 (reports_or_silent w) (nodes w) rps ->
      fst (get_telemetry w)
      = Ok (Telemetry (Zsum ((fun rp => (reported rp).1) <$> rps))
                      (Zsum ((fun rp => (reported rp).2) <$> rps))))
  /\ (forall (pre post : list node) (nd : node) (rps : list (Z * option (Z * Z)))
             (request_id : Z) (payload rest : bytes),
        nodes w = pre ++ nd :: post ->
        NoDup (sock <$> nodes w) ->
        Forall2 (reports_or_silent w) pre rps ->
        inbox w !! sock nd = Some (hive_response 200 request_id payload ++ rest) ->
        0 <= request_id < 2 ^ 32 -> Z.of_nat (length payload) < 2 ^ 32 ->
        payload <> [] -> length payload <> 16%nat ->
        fst (get_telemetry w) = Raise StructError).
Proof.
  split.
  - intros rps Hdup Hrep. unfold get_telemetry. rewrite bind_gets.
    destruct (telemetry_loop_prefix (nodes w) rps [] 0 0 w Hdup Hrep)
      as (w1 & Hloop & _).
    rewrite app_nil_r in Hloop. rewrite Hloop, !Z.add_0_l. reflexivity.
  - intros pre post nd rps rid payload rest Hnodes Hdup Hrep Hp Hrid Hlen Hne Hodd.
    unfold get_telemetry. rewrite bind_gets, Hnodes.
    rewrite Hnodes, fmap_app in Hdup. apply NoDup_app in Hdup as (Hdup & Hsep & _).
    destruct (telemetry_loop_prefix pre rps (nd :: post) 0 0 w Hdup Hrep)
      as (w1 & Hloop & Hframe).
    rewrite Hloop. cbn [telemetry_loop].
    assert (Hp1 : inbox w1 !! sock nd
                  = Some (hive_response 200 rid payload ++ rest)).
    { rewrite Hframe; [exact Hp|]. intros Hin.
      apply (Hsep _ Hin). rewrite fmap_cons. apply list_elem_of_here. }
    pose proof (exchange_ok (sock nd) CMD_GET_STATS [] rid payload rest w1
                  Hp1 Hrid Hlen) as Hturn.
    unfold bind in Hturn. unfold bind at 1.
    destruct (_send_cmd (sock nd) CMD_GET_STATS [] w1) as [[[]|e] wa].
    2:{ exfalso.
        assert (Raise e = Ok (match payload with
                              | [] => None | _ :: _ => Some payload end)
                :> result (option bytes)); [|discriminate].
        eapply (f_equal fst) in Hturn; [exact Hturn | | ];
          [unfold CMD_GET_STATS; lia | simpl; lia]. }
    unfold bind at 1.
    rewrite Hturn by (first [unfold CMD_GET_STATS; lia | simpl; lia]).
    destruct payload as [|b d]; [contradiction|].
    unfold bind at 1, lift, unpack.
    replace (Nat.eqb (length (b :: d)) (calcsize [uQ; uQ])) with false
      by (symmetry; apply Nat.eqb_neq; exact Hodd).
    reflexivity.
Qed.

Lemma get_telemetry_payloads_witness :
  fst (get_telemetry three_nodes) = Ok (Telemetry 0 0).
Proof.
  apply (proj1 (get_telemetry_payloads three_nodes)
           [(0, None); (0, None); (0, None)]).
  - apply (bool_decide_unpack _). reflexivity.
  - repeat constructor; try (simpl; lia); exists ack; reflexivity.
Defined.

(** One node reports, the other acknowledges with nothing; a payload of
    eight bytes is an error. *)
Example telemetry_with_a_silent_node :
  fst (get_telemetry
         (World [Node 0 "a:6000" 1; Node 1 "b:6000" 1] []
                [stats_response 0 100 1; ack] (fun _ _ _ => 4%nat) []))
  = Ok (Telemetry 100 1)
  /\ fst (get_telemetry one_vcpu) = Raise StructError.
Proof. vm_compute. split; reflexivity. Qed.

(** ** Connecting *)

(** The loop in closed form: the addresses that connect are appended in
    order, each with the next socket and a count of zero. *)
Lemma connect_loop_closed net : forall (addresses : list string) (w : world),
  Forall well_formed addresses ->
  length (inbox w) = length (nodes w) ->
  exists w',
    connect_loop net addresses w = Some w'
    /\ nodes w'
       = nodes w
           ++ imap (fun i a => Node (length (nodes w) + i) a 0)
                   (List.filter (fun a => bool_decide (is_Some (script_of net a)))
                      addresses)
    /\ inbox w' = inbox w ++ omap (script_of net) addresses
    /\ vcpu_map w' = vcpu_map w /\ trace w' = trace w
    /\ short_read w' = short_read w.
Proof.
  induction addresses as [|a addresses IH]; intros w Hwf Hlen.
  - exists w. simpl. rewrite !app_nil_r. repeat split; reflexivity.
  - apply Forall_cons in Hwf as [(ip & port & Ha) Hwf].
    assert (Hscript : script_of net a = dial net ip port)
      by (unfold script_of; rewrite Ha; reflexivity).
    cbn [connect_loop List.filter]. rewrite Ha.
    change (omap (script_of net) (a :: addresses))
      with (match script_of net a with
            | Some y => y :: omap (script_of net) addresses
            | None => omap (script_of net) addresses
            end).
    rewrite Hscript.
    destruct (dial net ip port) as [script|] eqn:Hdial.
    + destruct (IH (set_inbox (inbox w ++ [script])
                      (set_nodes (nodes w ++ [Node (length (inbox w)) a 0]) w))
                  Hwf) as (w' & Hloop & Hn & Hi & Hm & Ht & Hs).
      { simpl. rewrite !length_app. simpl. lia. }
      exists w'. split; [exact Hloop|].
      rewrite bool_decide_eq_true_2 by eauto.
      split; [|split; [|auto]].
      * rewrite Hn. cbn [nodes set_inbox set_nodes imap].
        rewrite <- app_assoc, Hlen, Nat.add_0_r. cbn [app]. f_equal. f_equal.
        apply imap_ext. intros i x _. simpl. f_equal.
        rewrite length_app. simpl. lia.
      * rewrite Hi. cbn [inbox set_inbox set_nodes].
        rewrite <- app_assoc. reflexivity.
    + destruct (IH w Hwf Hlen) as (w' & Hloop & Hn & Hi & Hrest).
      exists w'. split; [exact Hloop|].
      rewrite bool_decide_eq_false_2 by (intros [x Hx]; discriminate).
      split; [exact Hn | split; [exact Hi | exact Hrest]].
Qed.

Lemma connect_loop_malformed net : forall (addresses : list string) (w : world),
  Exists (fun a => ~ well_formed a) addresses ->
  connect_loop net addresses w = None.
Proof.
  induction addresses as [|a addresses IH]; intros w Hex.
  - apply Exists_nil in Hex. contradiction.
  - cbn [connect_loop].
    destruct (split_on ":"%char a) as [|ip [|port [|x pieces]]] eqn:Ha;
      try reflexivity.
    apply Exists_cons in Hex as [Hno|Hex].
    + exfalso. apply Hno. exists ip, port. exact Ha.
    + destruct (dial net ip port); apply IH; assumption.
Qed.

Lemma sock_imap (l : list string) : forall k,
  sock <$> imap (fun i a => Node (k + i) a 0) l = seq k (length l).
Proof.
  induction l as [|a l IH]; intros k; [reflexivity|].
  cbn [imap fmap list_fmap length seq sock]. rewrite Nat.add_0_r. f_equal.
  rewrite (imap_ext _ (fun i a => Node (S k + i) a 0))
    by (intros; simpl; f_equal; lia).
  apply IH.
Qed.

Lemma addr_imap (l : list string) : forall k,
  addr <$> imap (fun i a => Node (k + i) a 0) l = l.
Proof.
  induction l as [|a l IH]; intros k; [reflexivity|].
  cbn [imap fmap list_fmap addr]. f_equal.
  rewrite (imap_ext _ (fun i a => Node (S k + i) a 0))
    by (intros; simpl; f_equal; lia).
  apply IH.
Qed.

Lemma count_imap (l : list string) : forall k,
  Forall (fun nd => vcpu_count nd = 0) (imap (fun i a => Node (k + i) a 0) l).
Proof.
  induction l as [|a l IH]; intros k; [constructor|].
  cbn [imap]. constructor; [reflexivity|].
  rewrite (imap_ext _ (fun i a => Node (S k + i) a 0))
    by (intros; simpl; f_equal; lia).
  apply IH.
Qed.

Lemma well_formed_dec (a : string) : {well_formed a} + {~ well_formed a}.
Proof.
  unfold well_formed.
  destruct (split_on ":"%char a) as [|ip [|port [|x pieces]]];
    [right | right | left | right];
    try (intros (i & p & H); discriminate).
  exists ip, port. reflexivity.
Qed.

(** X14: what [__init__] builds.  An address that does not split at exactly
    one colon makes the constructor raise [ValueError], wherever it stands
    in the list; with well-formed addresses of which none connects it raises
    [ConnectionError].  A cluster that is constructed has at least one node;
    its nodes are the addresses that connected, in order, on the sockets
    0, 1, 2, ..., all different, each with a count of zero; the map is empty
    and routing is valid. *)
Theorem init_cluster (net : network) (addresses : list string) :
  (Exists (fun a => ~ well_formed a) addresses ->
     __init__ net addresses = RaisedValueError)
  /\ (Forall well_formed addresses ->
        Forall (fun a => script_of net a = None) addresses ->
        __init__ net addresses
        = Raised (ConnectionError "Could not connect to any worker nodes."))
  /\ (forall w,
        __init__ net addresses = Constructed w ->
        (1 <= length (nodes w))%nat
        /\ sock <$> nodes w = seq 0 (length (nodes w))
        /\ NoDup (sock <$> nodes w)
        /\ addr <$> nodes w
           = List.filter (fun a => bool_decide (is_Some (script_of net a))) addresses
        /\ Forall (fun nd => vcpu_count nd = 0) (nodes w)
        /\ inbox w = omap (script_of net) addresses
        /\ vcpu_map w = [] /\ trace w = []
        /\ routable w).
Proof.
  split; [|split].
  - intros Hex. unfold __init__.
    rewrite (connect_loop_malformed _ _ _ Hex). reflexivity.
  - intros Hwf Hnone. unfold __init__.
    destruct (connect_loop_closed net addresses (World [] [] [] (cut net) []) Hwf)
      as (w' & Hloop & Hn & _); [reflexivity|].
    rewrite Hloop, Hn. cbn [nodes app].
    replace (List.filter _ addresses) with (@nil string); [reflexivity|].
    symmetry. clear -Hnone. induction Hnone as [|a l Ha _ IH]; [reflexivity|].
    cbn [List.filter]. rewrite Ha.
    rewrite bool_decide_eq_false_2 by (intros [x Hx]; discriminate).
    exact IH.
  - intros w Hinit. unfold __init__ in Hinit.
    destruct (Forall_Exists_dec well_formed (fun a => ~ well_formed a)
                well_formed_dec addresses)
      as [Hwf|Hex].
    2:{ rewrite (connect_loop_malformed _ _ _ Hex) in Hinit. discriminate. }
    destruct (connect_loop_closed net addresses (World [] [] [] (cut net) []) Hwf)
      as (w' & Hloop & Hn & Hi & Hm & Ht & _); [reflexivity|].
    rewrite Hloop in Hinit.
    assert (Hw : w = w' /\ (1 <= length (nodes w'))%nat).
    { destruct (nodes w') as [|nd0 nds]; [discriminate|].
      injection Hinit as <-. split; [reflexivity | simpl; lia]. }
    destruct Hw as [-> Hlen1]. clear Hinit.
    cbn [nodes inbox vcpu_map trace app length] in Hn, Hi, Hm, Ht.
    assert (Hsock : sock <$> nodes w' = seq 0 (length (nodes w'))).
    { rewrite Hn, sock_imap, length_imap. reflexivity. }
    split; [|split; [|split; [|split; [|split; [|split; [|split; [|split]]]]]]].
    + exact Hlen1.
    + exact Hsock.
    + rewrite Hsock. apply NoDup_seq.
    + rewrite Hn. apply addr_imap.
    + rewrite Hn. apply count_imap.
    + exact Hi.
    + exact Hm.
    + exact Ht.
    + split.
      * intros nd Hnd. rewrite Hn in Hnd.
        pose proof (count_imap
                      (List.filter (fun a => bool_decide (is_Some (script_of net a)))
                         addresses) 0) as Hc.
        rewrite Forall_forall in Hc. rewrite (Hc _ Hnd). lia.
      * intros node_idx local_id Hin. rewrite Hm in Hin.
        apply elem_of_nil in Hin. contradiction.
Qed.

Lemma init_cluster_witness :
  (1 <= length (nodes two_connected))%nat
  /\ sock <$> nodes two_connected = seq 0 (length (nodes two_connected))
  /\ NoDup (sock <$> nodes two_connected)
  /\ addr <$> nodes two_connected
     = List.filter (fun a => bool_decide (is_Some (script_of two_of_three_up a)))
         ["10.0.0.1:6000"; "10.0.0.2:6000"; "10.0.0.3:6000"]
  /\ Forall (fun nd => vcpu_count nd = 0) (nodes two_connected)
  /\ inbox two_connected
     = omap (script_of two_of_three_up)
         ["10.0.0.1:6000"; "10.0.0.2:6000"; "10.0.0.3:6000"]
  /\ vcpu_map two_connected = [] /\ trace two_connected = []
  /\ routable two_connected.
Proof.
  apply (proj2 (proj2 (init_cluster two_of_three_up
                         ["10.0.0.1:6000"; "10.0.0.2:6000"; "10.0.0.3:6000"]))
           two_connected).
  vm_compute. reflexivity.
Defined.

(** Two of three addresses connect: the cluster has the two, on sockets 0
    and 1.  An address with no port, or with two colons, is a [ValueError];
    no address at all is a [ConnectionError]. *)
Example init_two_of_three :
  __init__ two_of_three_up ["10.0.0.1:6000"; "10.0.0.2:6000"; "10.0.0.3:6000"]
  = Constructed
      (World [Node 0 "10.0.0.1:6000" 0; Node 1 "10.0.0.3:6000" 0] []
             [ack ++ ack; ack ++ ack] (cut two_of_three_up) [])
  /\ __init__ two_of_three_up ["10.0.0.1:6000"; "localhost"] = RaisedValueError
  /\ __init__ two_of_three_up ["10.0.0.1:6000"; "::1:6000"] = RaisedValueError
  /\ __init__ two_of_three_up []
     = Raised (ConnectionError "Could not connect to any worker nodes.").
Proof. vm_compute. repeat split. Qed.

(** ** What [spawn] tells the nodes *)

Lemma spawn_body_exchange q r mem (i : Z) nd w request_id payload rest :
  inbox w !! sock nd = Some (hive_response 200 request_id payload ++ rest) ->
  0 <= request_id < 2 ^ 32 -> Z.of_nat (length payload) < 2 ^ 32 ->
  0 <= q + (if i <? r then 1 else 0) < 2 ^ 32 -> 0 <= mem < 2 ^ 32 ->
  exists w1,
    spawn_body q r mem (i, nd) w = (Ok tt, w1)
    /\ trace w1
       = trace w
           ++ (if q + (if i <? r then 1 else 0) =? 0 then []
               else Sent (sock nd)
                      (hive_request CMD_SPAWN_VCPU
                         (le_split 4 (q + (if i <? r then 1 else 0))
                            ++ le_split 4 mem))
                    :: (Received (sock nd) <$> hive_response 200 request_id payload))
    /\ forall s, s <> sock nd -> inbox w1 !! s = inbox w !! s.
Proof.
  intros Hp Hrid Hlen Hcount Hmem.
  unfold spawn_body. set (count := q + (if i <? r then 1 else 0)) in *.
  destruct (count =? 0) eqn:H0.
  { exists w. rewrite app_nil_r. auto. }
  unfold bind at 1, lift. rewrite pack_II by assumption.
  unfold bind at 1. rewrite send_cmd_ok
    by (unfold CMD_SPAWN_VCPU; rewrite ?length_app, ?length_le_split; simpl; lia).
  unfold bind at 1. erewrite recv_resp_ok; [|exact Hp|assumption|assumption].
  unfold bind at 1. rewrite for_each_append.
  eexists. split; [reflexivity|]. split.
  - unfold add_vcpu_count, modify. cbn [snd trace set_nodes set_vcpu_map].
    apply (exchange_trace _ _ _ _ _ _ Hp).
  - intros s Hs. simpl. apply list_lookup_insert_ne. congruence.
Qed.

Lemma spawn_loop_exchanges q r mem : forall (l : list node)
    (resps : list (Z * bytes)) (k : nat) (w : world),
  NoDup (sock <$> l) ->
  Forall2 (answers w) l resps ->
  (forall j : nat, 0 <= q + (if Z.of_nat j <? r then 1 else 0) < 2 ^ 32) ->
  0 <= mem < 2 ^ 32 ->
  exists w',
    for_each (imap (fun j nd => (Z.of_nat (k + j), nd)) l) (spawn_body q r mem) w
    = (Ok tt, w')
    /\ trace w'
       = trace w
           ++ concat
                (imap (fun j (entry : node * (Z * bytes)) =>
                         if q + (if Z.of_nat (k + j) <? r then 1 else 0) =? 0
                         then []
                         else Sent (sock entry.1)
                                (hive_request CMD_SPAWN_VCPU
                                   (le_split 4 (q + (if Z.of_nat (k + j) <? r
                                                     then 1 else 0))
                                      ++ le_split 4 mem))
                              :: (Received (sock entry.1)
                                    <$> hive_response 200 entry.2.1 entry.2.2))
                      (zip l resps)).
Proof.
  induction l as [|nd l IH]; intros resps k w Hdup Hans Hcount Hmem.
  - apply Forall2_nil_inv_l in Hans as ->. exists w. simpl.
    rewrite app_nil_r. auto.
  - apply Forall2_cons_inv_l in Hans as ([rid payload] & resps' & Hnd & Hans & ->).
    destruct Hnd as (Hrid & Hlen & rest & Hp).
    rewrite fmap_cons in Hdup. apply NoDup_cons in Hdup as [Hfresh Hdup].
    cbn [imap for_each zip zip_with].
    destruct (spawn_body_exchange q r mem (Z.of_nat (k + 0)) nd w rid payload rest)
      as (w1 & Hbody & Htr1 & Hframe); auto.
    unfold bind. rewrite Hbody.
    rewrite (imap_ext _ (fun j nd => (Z.of_nat (S k + j), nd)))
      by (intros; simpl; f_equal; lia).
    destruct (IH resps' (S k) w1 Hdup) as (w' & Hloop & Htr); auto.
    { apply Forall2_same_length_lookup.
      apply Forall2_same_length_lookup in Hans as [Hl Hans].
      split; [assumption|]. intros i nd' [rid' payload'] Hnd' Hrp'.
      specialize (Hans i nd' _ Hnd' Hrp'). cbn [answers] in Hans |- *.
      destruct Hans as (? & ? & rest' & Hp').
      repeat (split; [assumption|]). exists rest'.
      rewrite Hframe; [exact Hp'|].
      intros Heq. apply Hfresh. rewrite <- Heq.
      apply list_elem_of_fmap_2. eapply list_elem_of_lookup_2. eassumption. }
    exists w'. split; [exact Hloop|].
    rewrite Htr, Htr1. cbn [concat fst snd]. rewrite <- app_assoc.
    f_equal. f_equal. f_equal.
    apply imap_ext. intros j entry _. simpl.
    replace (Z.of_nat (k + S j)) with (Z.of_nat (S (k + j))) by lia.
    reflexivity.
Qed.

(** X15: what [spawn] tells the nodes.  When every node answers with status
    200 on a socket of its own, [spawn] returns, and the trace has gained,
    node after node, the [SPAWN_VCPU] request with that node's share and the
    memory size, each a little-endian u32, followed by the node's whole
    response; a node whose share is empty is not contacted at all. *)
Theorem spawn_requests (total mem : Z) (w : world) (resps : list (Z * bytes)) :
  0 <= total < 2 ^ 32 -> 0 <= mem < 2 ^ 32 ->
  (1 <= length (nodes w))%nat ->
  NoDup (sock <$> nodes w) ->
  Forall2 (answers w) (nodes w) resps ->
  exists w',
    spawn total mem w = (Ok tt, w')
    /\ trace w'
       = trace w
           ++ concat (imap (spawn_exchange total (Z.of_nat (length (nodes w))) mem)
                        (zip (nodes w) resps)).
Proof.
  intros Ht Hmem HM Hdup Hans. unfold spawn. rewrite bind_gets.
  replace (Z.of_nat (length (nodes w)) =? 0) with false
    by (symmetry; apply Z.eqb_neq; lia).
  destruct (spawn_loop_exchanges (total / Z.of_nat (length (nodes w)))
              (total mod Z.of_nat (length (nodes w))) mem (nodes w) resps 0 w)
    as (w' & Hloop & Htr); auto.
  { intros j. rewrite count_is_share.
    pose proof (shard_count_bounds total (Z.of_nat (length (nodes w))) (Z.of_nat j)).
    lia. }
  exists w'. split; [exact Hloop|]. rewrite Htr. f_equal. f_equal.
  apply imap_ext. intros j [nd [rid payload]] _. unfold spawn_exchange.
  cbn [Nat.add fst snd]. rewrite !count_is_share. reflexivity.
Qed.

Lemma spawn_requests_witness :
  exists w',
    spawn 2 64 three_nodes = (Ok tt, w')
    /\ trace w'
       = trace three_nodes
           ++ concat (imap (spawn_exchange 2 (Z.of_nat (length (nodes three_nodes))) 64)
                        (zip (nodes three_nodes) [(0, []); (0, []); (0, [])])).
Proof.
  apply (spawn_requests 2 64 three_nodes [(0, []); (0, []); (0, [])]).
  - lia.
  - lia.
  - simpl. lia.
  - apply (bool_decide_unpack _). reflexivity.
  - exact three_nodes_answer.
Defined.

(** Two vCPUs over three nodes: the third node is sent nothing. *)
Example spawn_two_over_three :
  trace (snd (spawn 2 64 three_nodes))
  = Sent 0 (hive_request CMD_SPAWN_VCPU (le_split 4 1 ++ le_split 4 64))
      :: (Received 0 <$> ack)
      ++ Sent 1 (hive_request CMD_SPAWN_VCPU (le_split 4 1 ++ le_split 4 64))
      :: (Received 1 <$> ack).
Proof. vm_compute. reflexivity. Qed.

(** ** The local cluster *)

Lemma fits_undeclared_all (surplus : list Z) :
  Forall (fun v => - 2 ^ 63 <= v < 2 ^ 64) surplus ->
  forallb Wrapper.fits_undeclared surplus = true.
Proof.
  intros H. apply forallb_forall. intros v Hv.
  rewrite Forall_forall in H. apply list_elem_of_In, H in Hv.
  unfold Wrapper.fits_undeclared. apply andb_true_intro.
  split; [apply Z.leb_le | apply Z.ltb_lt]; lia.
Qed.

Lemma fits_undeclared_some (surplus : list Z) :
  ~ Forall (fun v => - 2 ^ 63 <= v < 2 ^ 64) surplus ->
  forallb Wrapper.fits_undeclared surplus = false.
Proof.
  intros H. apply not_true_is_false. intros Hall. apply H.
  rewrite forallb_forall in Hall. apply Forall_forall. intros v Hv.
  apply list_elem_of_In, Hall in Hv. unfold Wrapper.fits_undeclared in Hv.
  apply andb_prop in Hv as [H1 H2].
  apply Z.leb_le in H1. apply Z.ltb_lt in H2. lia.
Qed.

(** A call with four fields or more, all convertible, reaches the engine. *)
Lemma create_instruction_ok opcode reg1 reg2 immediate surplus self :
  convertible (Wrapper.AsSeq (opcode :: reg1 :: reg2 :: immediate :: surplus)) ->
  Wrapper.create_instruction (opcode :: reg1 :: reg2 :: immediate :: surplus) self
  = (Ok tt, Wrapper.call (created opcode reg1 reg2 immediate) self).
Proof.
  intros [[_ Hmax] Hfit]. cbn [drop] in Hfit. rewrite drop_0 in Hfit.
  cbn [Wrapper.create_instruction].
  replace (_ <=? _)%nat with true by (symmetry; apply Nat.leb_le; exact Hmax).
  rewrite (fits_undeclared_all _ Hfit). reflexivity.
Qed.

(** A sequence that cannot be converted never reaches the engine. *)
Lemma create_instruction_raises fields self :
  ~ convertible (Wrapper.AsSeq fields) ->
  Wrapper.create_instruction fields self
  = (Raise (if (length fields <? 4)%nat then TypeError else ArgumentError), self).
Proof.
  intros Hbad.
  destruct fields as [|f0 [|f1 [|f2 [|f3 surplus]]]]; try reflexivity.
  cbn [Wrapper.create_instruction].
  change (length (f0 :: f1 :: f2 :: f3 :: surplus) <? 4)%nat with false.
  destruct (_ <=? _)%nat eqn:Hmax; [|reflexivity].
  apply Nat.leb_le in Hmax.
  rewrite fits_undeclared_some; [reflexivity|].
  intros Hfit. apply Hbad. split; [|cbn [drop]; rewrite drop_0; exact Hfit].
  split; [simpl; lia | exact Hmax].
Qed.

Lemma fill_c_arr_convertible (l : list Wrapper.instr_arg) : forall self,
  Forall convertible l ->
  Wrapper.fill_c_arr l self
  = (Ok tt, Wrapper.MkCluster (Wrapper.vcpu_count self)
              (Wrapper.engine_calls self ++ creates l)).
Proof.
  induction l as [|a rest IH]; intros self Hall.
  - simpl. rewrite app_nil_r. destruct self. reflexivity.
  - apply Forall_cons in Hall as [Ha Hrest].
    destruct a as [op r1 r2 imm|fields|].
    + cbn [Wrapper.fill_c_arr].
      rewrite create_instruction_ok
        by (split; [simpl; unfold Wrapper.CTYPES_MAX_ARGCOUNT; lia | constructor]).
      rewrite IH by assumption.
      unfold Wrapper.call, creates.
      cbn [Wrapper.vcpu_count Wrapper.engine_calls flat_map].
      rewrite <- app_assoc. reflexivity.
    + destruct fields as [|f0 [|f1 [|f2 [|f3 surplus]]]];
        try (destruct Ha as [[Hmin _] _]; simpl in Hmin; lia).
      cbn [Wrapper.fill_c_arr]. rewrite create_instruction_ok by exact Ha.
      rewrite IH by assumption.
      unfold Wrapper.call, creates.
      cbn [Wrapper.vcpu_count Wrapper.engine_calls flat_map].
      rewrite <- app_assoc. reflexivity.
    + cbn [Wrapper.fill_c_arr]. rewrite IH by assumption. reflexivity.
Qed.

Lemma fill_c_arr_stops (before : list Wrapper.instr_arg) : forall fields after self,
  Forall convertible before -> ~ convertible (Wrapper.AsSeq fields) ->
  Wrapper.fill_c_arr (before ++ Wrapper.AsSeq fields :: after) self
  = (Raise (if (length fields <? 4)%nat then TypeError else ArgumentError),
     Wrapper.MkCluster (Wrapper.vcpu_count self)
       (Wrapper.engine_calls self ++ creates before)).
Proof.
  induction before as [|a rest IH]; intros fields after self Hall Hbad.
  - cbn [app Wrapper.fill_c_arr]. rewrite create_instruction_raises by exact Hbad.
    simpl. rewrite app_nil_r. destruct self. reflexivity.
  - apply Forall_cons in Hall as [Ha Hrest].
    destruct a as [op r1 r2 imm|fs|].
    + cbn [app Wrapper.fill_c_arr].
      rewrite create_instruction_ok
        by (split; [simpl; unfold Wrapper.CTYPES_MAX_ARGCOUNT; lia | constructor]).
      rewrite IH by assumption.
      unfold Wrapper.call, creates.
      cbn [Wrapper.vcpu_count Wrapper.engine_calls flat_map].
      rewrite <- app_assoc. reflexivity.
    + destruct fs as [|f0 [|f1 [|f2 [|f3 surplus]]]];
        try (destruct Ha as [[Hmin _] _]; simpl in Hmin; lia).
      cbn [app Wrapper.fill_c_arr]. rewrite create_instruction_ok by exact Ha.
      rewrite IH by assumption.
      unfold Wrapper.call, creates.
      cbn [Wrapper.vcpu_count Wrapper.engine_calls flat_map].
      rewrite <- app_assoc. reflexivity.
    + cbn [app Wrapper.fill_c_arr]. rewrite IH by assumption. reflexivity.
Qed.

Lemma creates_engine_instructions (l : list Wrapper.instr_arg) :
  Forall engine_instruction (creates l).
Proof.
  assert (Hc : forall o a b i, engine_instruction (created o a b i)).
  { intros o a b i. unfold created, engine_instruction.
    pose proof (Z.mod_pos_bound o 256 ltac:(lia)).
    pose proof (Z.mod_pos_bound a 256 ltac:(lia)).
    pose proof (Z.mod_pos_bound b 256 ltac:(lia)).
    pose proof (Z.mod_pos_bound i 4294967296 ltac:(lia)).
    lia. }
  unfold creates. induction l as [|x l IH]; [constructor|].
  cbn [flat_map]. apply Forall_app. split; [|exact IH].
  destruct x as [op r1 r2 imm|fields|].
  - constructor; [apply Hc | constructor].
  - destruct fields as [|f0 [|f1 [|f2 [|f3 surplus]]]]; try constructor.
    + apply Hc.
    + constructor.
  - constructor.
Qed.

(** X16: what the local [Cluster.load_program] asks of the engine.  For an id
    from 0 up to the cluster's count and a list whose sequences can all be
    converted, the call returns after one [vcpu_create_instruction] per dict
    or sequence, in order, a missing dict key standing for 0, followed by a
    single [vcpu_load_program] for that vCPU at address 0 whose count is the
    length of the whole list: the entries passed over are counted too.  No
    field is checked against its width: the engine is given each opcode and
    register modulo 256 and each immediate modulo 2^32, and of a sequence
    its first four fields. *)
Theorem local_load_program_calls
    (vcpu_id : Z) (instructions : list Wrapper.instr_arg) (self : Wrapper.Cluster) :
  0 <= vcpu_id < Wrapper.vcpu_count self ->
  Forall convertible instructions ->
  Wrapper.load_program vcpu_id instructions self
  = (Ok tt,
     Wrapper.MkCluster (Wrapper.vcpu_count self)
       (Wrapper.engine_calls self
          ++ creates instructions
          ++ [Wrapper.vcpu_load_program vcpu_id
                (Z.of_nat (length instructions)) 0]))
  /\ Forall engine_instruction (creates instructions).
Proof.
  intros Hid Hall. split; [|apply creates_engine_instructions].
  unfold Wrapper.load_program.
  replace (Wrapper.vcpu_count self <=? vcpu_id) with false
    by (symmetry; apply Z.leb_gt; lia).
  rewrite fill_c_arr_convertible by assumption.
  unfold Wrapper.call. cbn [Wrapper.vcpu_count Wrapper.engine_calls].
  rewrite <- app_assoc. reflexivity.
Qed.

Lemma local_load_program_calls_witness :
  Wrapper.load_program 1
    [Wrapper.AsDict (Some 5) None None (Some 100); Wrapper.AsOther;
     Wrapper.AsSeq [300; -1; 256; 4294967296]; Wrapper.AsSeq [14; 0; 0; 0; 7]]
    local_cluster
  = (Ok tt,
     Wrapper.MkCluster (Wrapper.vcpu_count local_cluster)
       (Wrapper.engine_calls local_cluster
          ++ creates [Wrapper.AsDict (Some 5) None None (Some 100); Wrapper.AsOther;
                      Wrapper.AsSeq [300; -1; 256; 4294967296];
                      Wrapper.AsSeq [14; 0; 0; 0; 7]]
          ++ [Wrapper.vcpu_load_program 1
                (Z.of_nat (length [Wrapper.AsDict (Some 5) None None (Some 100);
                                   Wrapper.AsOther;
                                   Wrapper.AsSeq [300; -1; 256; 4294967296];
                                   Wrapper.AsSeq [14; 0; 0; 0; 7]])) 0]))
  /\ Forall engine_instruction
       (creates [Wrapper.AsDict (Some 5) None None (Some 100); Wrapper.AsOther;
                 Wrapper.AsSeq [300; -1; 256; 4294967296];
                 Wrapper.AsSeq [14; 0; 0; 0; 7]]).
Proof.
  apply (local_load_program_calls 1
           [Wrapper.AsDict (Some 5) None None (Some 100); Wrapper.AsOther;
            Wrapper.AsSeq [300; -1; 256; 4294967296];
            Wrapper.AsSeq [14; 0; 0; 0; 7]] local_cluster).
  - simpl. lia.
  - repeat constructor; simpl; unfold Wrapper.CTYPES_MAX_ARGCOUNT; lia.
Defined.

(** A dict without registers, something that is no instruction, a tuple
    whose fields are all out of range and a tuple with a field too many:
    three instructions are created, the third wrapped, and four are
    loaded. *)
Example local_load_four :
  Wrapper.engine_calls
    (snd (Wrapper.load_program 1
            [Wrapper.AsDict (Some 5) None None (Some 100); Wrapper.AsOther;
             Wrapper.AsSeq [300; -1; 256; 4294967296];
             Wrapper.AsSeq [14; 0; 0; 0; 7]] local_cluster))
  = [Wrapper.vcpu_create_instruction 5 0 0 100;
     Wrapper.vcpu_create_instruction 44 255 0 0;
     Wrapper.vcpu_create_instruction 14 0 0 0;
     Wrapper.vcpu_load_program 1 4 0].
Proof. vm_compute. reflexivity. Qed.

(** X17: the local [Cluster.load_program] stops at the first sequence that
    cannot be handed to the engine.  A sequence of fewer than four fields
    raises [TypeError]; one of more than 1024 fields, or with a surplus
    field outside [-2^63, 2^64), raises [ctypes.ArgumentError].  The
    instructions before it have been created, none after it, and
    [vcpu_load_program] is not called: the vCPU keeps the program it had. *)
Theorem local_load_program_stops
    (vcpu_id : Z) (before after : list Wrapper.instr_arg) (fields : list Z)
    (self : Wrapper.Cluster) :
  0 <= vcpu_id < Wrapper.vcpu_count self ->
  Forall convertible before ->
  ~ convertible (Wrapper.AsSeq fields) ->
  Wrapper.load_program vcpu_id (before ++ Wrapper.AsSeq fields :: after) self
  = (Raise (if (length fields <? 4)%nat then TypeError else ArgumentError),
     Wrapper.MkCluster (Wrapper.vcpu_count self)
       (Wrapper.engine_calls self ++ creates before)).
Proof.
  intros Hid Hall Hbad. unfold Wrapper.load_program.
  replace (Wrapper.vcpu_count self <=? vcpu_id) with false
    by (symmetry; apply Z.leb_gt; lia).
  rewrite fill_c_arr_stops by assumption.
  destruct (length fields <? 4)%nat; reflexivity.
Qed.

Lemma local_load_program_stops_witness :
  Wrapper.load_program 0
    ([Wrapper.AsSeq [5; 0; 0; 100; 7]] ++ Wrapper.AsSeq [14; 0; 0]
       :: [Wrapper.AsSeq [14; 0; 0; 0]]) local_cluster
  = (Raise (if (length [14; 0; 0] <? 4)%nat then TypeError else ArgumentError),
     Wrapper.MkCluster (Wrapper.vcpu_count local_cluster)
       (Wrapper.engine_calls local_cluster
          ++ creates [Wrapper.AsSeq [5; 0; 0; 100; 7]])).
Proof.
  apply (local_load_program_stops 0 [Wrapper.AsSeq [5; 0; 0; 100; 7]]
           [Wrapper.AsSeq [14; 0; 0; 0]] [14; 0; 0] local_cluster).
  - simpl. lia.
  - repeat constructor; simpl; unfold Wrapper.CTYPES_MAX_ARGCOUNT; lia.
  - intros [[Hmin _] _]. simpl in Hmin. lia.
Defined.

(** A tuple with a field too many is loaded from its first four fields; the
    tuple after it, a field short, raises [TypeError] before the program is
    loaded.  A surplus field that fits no C integer raises
    [ctypes.ArgumentError]. *)
Example local_load_stops :
  Wrapper.load_program 0 [Wrapper.AsSeq [5; 0; 0; 100; 7]; Wrapper.AsSeq [14; 0; 0]]
    local_cluster
  = (Raise TypeError, Wrapper.MkCluster 4 [Wrapper.vcpu_create_instruction 5 0 0 100])
  /\ Wrapper.load_program 0 [Wrapper.AsSeq [5; 0; 0; 100; 2 ^ 64]] local_cluster
     = (Raise ArgumentError, Wrapper.MkCluster 4 []).
Proof. vm_compute. split; reflexivity. Qed.

(** ** From the constructor to the first [spawn] *)

(** The cluster that the constructor returns, in closed form. *)
Lemma init_closed_form net addresses w :
  __init__ net addresses = Constructed w ->
  (1 <= length (nodes w))%nat
  /\ nodes w
     = imap (fun i a => Node i a 0)
         (List.filter (fun a => bool_decide (is_Some (script_of net a))) addresses)
  /\ inbox w = omap (script_of net) addresses
  /\ vcpu_map w = [].
Proof.
  intros Hinit. unfold __init__ in Hinit.
  destruct (Forall_Exists_dec well_formed (fun a => ~ well_formed a)
              well_formed_dec addresses)
    as [Hwf|Hex].
  2:{ rewrite (connect_loop_malformed _ _ _ Hex) in Hinit. discriminate. }
  destruct (connect_loop_closed net addresses (World [] [] [] (cut net) []) Hwf)
    as (w' & Hloop & Hn & Hi & Hm & _); [reflexivity|].
  rewrite Hloop in Hinit.
  assert (Hw : w = w' /\ (1 <= length (nodes w'))%nat).
  { destruct (nodes w') as [|nd0 nds]; [discriminate|].
    injection Hinit as <-. split; [reflexivity | simpl; lia]. }
  destruct Hw as [-> Hlen1].
  cbn [nodes inbox vcpu_map app length Nat.add] in Hn, Hi, Hm.
  auto.
Qed.

(** The script of the [i]-th address that connects is the [i]-th inbox. *)
Lemma omap_filter_lookup {A B} (f : A -> option B) (l : list A) : forall i a,
  List.filter (fun a => bool_decide (is_Some (f a))) l !! i = Some a ->
  a ∈ l /\ exists y, f a = Some y /\ omap f l !! i = Some y.
Proof.
  induction l as [|x l IH]; intros i a Hi.
  - discriminate.
  - cbn [List.filter] in Hi.
    change (omap f (x :: l))
      with (match f x with Some y => y :: omap f l | None => omap f l end).
    destruct (f x) as [y|] eqn:Hx.
    + rewrite bool_decide_eq_true_2 in Hi by (exists y; reflexivity).
      destruct i as [|i]; simpl in Hi.
      * injection Hi as <-. split; [apply list_elem_of_here|].
        exists y. auto.
      * destruct (IH i a Hi) as (Hin & z & Hz & Hl).
        split; [apply list_elem_of_further, Hin|]. exists z. auto.
    + rewrite bool_decide_eq_false_2 in Hi by (intros [z Hz]; discriminate).
      destruct (IH i a Hi) as (Hin & z & Hz & Hl).
      split; [apply list_elem_of_further, Hin|]. exists z. auto.
Qed.

(** X18: a cluster that has just been constructed can spawn.  If the peer of
    every address that connected opens with a response of status 200, then
    on the cluster the constructor returns, [spawn] of any total that fits a
    u32 returns; the map then has exactly [total] entries, laid out node
    after node, and every id from 0 up to [total] routes to a connected node
    and a local id below that node's count. *)
Theorem fresh_cluster_spawns
    (net : network) (addresses : list string) (w : world) (total mem : Z) :
  __init__ net addresses = Constructed w ->
  peers_acknowledge net addresses ->
  0 <= total < 2 ^ 32 -> 0 <= mem < 2 ^ 32 ->
  exists w',
    spawn total mem w = (Ok tt, w')
    /\ vcpu_map w' = shard_entries (length (nodes w)) total
    /\ Z.of_nat (length (vcpu_map w')) = total
    /\ forall vcpu_id,
         0 <= vcpu_id < total ->
         exists node_idx local_id nd,
           py_getitem (vcpu_map w') vcpu_id = Ok (node_idx, local_id)
           /\ py_getitem (nodes w') node_idx = Ok nd
           /\ 0 <= local_id < vcpu_count nd.
Proof.
  intros Hinit Hpeers Ht Hmem.
  destruct (init_closed_form _ _ _ Hinit) as (Hlen & Hn & Hi & Hm).
  assert (Hack : nodes_acknowledge w).
  { split.
    - rewrite Hn. rewrite (sock_imap _ 0). apply NoDup_seq.
    - intros nd Hnd. rewrite Hn in Hnd.
      apply elem_of_lookup_imap_1 in Hnd as (i & a & -> & Ha).
      apply omap_filter_lookup in Ha as (Hin & script & Hs & Hl).
      destruct (Hpeers a script Hin Hs) as (rid & payload & rest & -> & Hrid & Hp).
      exists rid, payload, rest. cbn [sock]. rewrite Hi. auto. }
  assert (Hr : routable w).
  { split.
    - intros nd Hnd. rewrite Hn in Hnd.
      apply elem_of_lookup_imap_1 in Hnd as (i & a & -> & _). simpl. lia.
    - intros node_idx local_id Hin. rewrite Hm in Hin.
      apply elem_of_nil in Hin. contradiction. }
  destruct (spawn_succeeds total mem w Hack Hlen Ht Hmem) as [w' Hspawn].
  exists w'. split; [exact Hspawn|].
  pose proof (spawn_routable total mem w Hr) as Hr'. rewrite Hspawn in Hr'.
  apply spawn_shape in Hspawn as (Hmap & _ & _).
  rewrite Hm, app_nil_l in Hmap.
  assert (Hl : Z.of_nat (length (vcpu_map w')) = total)
    by (rewrite Hmap; apply length_shard_entries; [lia | assumption]).
  split; [exact Hmap|]. split; [exact Hl|].
  intros vcpu_id Hid. apply routable_lookup; [exact Hr' | lia].
Qed.

Lemma two_of_three_acknowledge :
  peers_acknowledge two_of_three_up
    ["10.0.0.1:6000"; "10.0.0.2:6000"; "10.0.0.3:6000"].
Proof.
  intros a script Ha Hs.
  assert (Hscript : script = ack ++ ack).
  { repeat (apply elem_of_cons in Ha as [->|Ha];
            [vm_compute in Hs; first [discriminate | injection Hs as <-; reflexivity]|]).
    apply elem_of_nil in Ha. contradiction. }
  subst script. exists 0, [], ack.
  split; [reflexivity|]. simpl. lia.
Qed.

Lemma fresh_cluster_spawns_witness :
  exists w',
    spawn 5 64 two_connected = (Ok tt, w')
    /\ vcpu_map w' = shard_entries (length (nodes two_connected)) 5
    /\ Z.of_nat (length (vcpu_map w')) = 5
    /\ forall vcpu_id,
         0 <= vcpu_id < 5 ->
         exists node_idx local_id nd,
           py_getitem (vcpu_map w') vcpu_id = Ok (node_idx, local_id)
           /\ py_getitem (nodes w') node_idx = Ok nd
           /\ 0 <= local_id < vcpu_count nd.
Proof.
  apply (fresh_cluster_spawns two_of_three_up
           ["10.0.0.1:6000"; "10.0.0.2:6000"; "10.0.0.3:6000"] two_connected 5 64).
  - vm_compute. reflexivity.
  - exact two_of_three_acknowledge.
  - lia.
  - lia.
Defined.

(** ** The GPU server's connection loop *)

Lemma unpack_i_split (size : Z) :
  - 2 ^ 31 <= size < 2 ^ 31 -> GpuServer.unpack_i (le_split 4 size) = Ok size.
Proof.
  intros Hs. unfold GpuServer.unpack_i.
  rewrite length_le_split, Nat.eqb_refl, le_combine_split.
  change (Z.of_nat 4 * 8) with 32. f_equal.
  destruct (Z_lt_le_dec size 0) as [Hneg|Hpos].
  - replace (size mod 2 ^ 32) with (size + 2 ^ 32)
      by (apply Z.mod_unique with (q := -1); lia).
    replace (size + 2 ^ 32 <? 2 ^ 31) with false by (symmetry; apply Z.ltb_ge; lia).
    lia.
  - rewrite Z.mod_small by lia.
    replace (size <? 2 ^ 31) with true by (symmetry; apply Z.ltb_lt; lia).
    reflexivity.
Qed.

Lemma unpack_i_short (data : bytes) :
  length data <> 4%nat -> GpuServer.unpack_i data = Raise StructError.
Proof.
  intros Hl. unfold GpuServer.unpack_i.
  replace (length data =? 4)%nat with false
    by (symmetry; apply Nat.eqb_neq; assumption).
  reflexivity.
Qed.

(** One turn of the loop. *)
Lemma serve_loop_step compute fuel conn w :
  GpuServer.serve_loop compute (S fuel) conn w
  = match recv conn 4 w with
    | (Ok [], w1) => (Ok tt, w1)
    | (Ok (b :: data), w1) =>
        match GpuServer.unpack_i (b :: data) with
        | Ok size =>
            match compute size with
            | Some e => (Raise e, w1)
            | None => GpuServer.serve_loop compute fuel conn (sent conn [Byte.x01] w1)
            end
        | Raise e => (Raise e, w1)
        end
    | (Raise e, w1) => (Raise e, w1)
    end.
Proof.
  cbn [GpuServer.serve_loop]. unfold bind at 1.
  destruct (recv conn 4 w) as [[[|b data]|e] w1]; try reflexivity.
  unfold bind at 1, lift.
  destruct (GpuServer.unpack_i (b :: data)) as [size|e]; [|reflexivity].
  destruct (compute size); reflexivity.
Qed.

(** The fuel never decides: with more turns than bytes pending, the loop
    ends the same way whatever the number of turns. *)
Lemma serve_loop_fuel compute conn : forall fuel1 fuel2 w,
  (length (pending conn w) < fuel1)%nat ->
  (length (pending conn w) < fuel2)%nat ->
  GpuServer.serve_loop compute fuel1 conn w = GpuServer.serve_loop compute fuel2 conn w.
Proof.
  induction fuel1 as [|fuel1 IH]; intros fuel2 w H1 H2; [lia|].
  destruct fuel2 as [|fuel2]; [lia|].
  rewrite !serve_loop_step.
  destruct (inbox w !! conn) as [p|] eqn:Hp.
  2:{ unfold recv. rewrite Hp. reflexivity. }
  rewrite (recv_some _ _ _ _ Hp). cbv zeta.
  unfold pending in H1, H2. rewrite Hp in H1, H2. cbn [default] in H1, H2.
  set (got := Nat.min (Nat.min 4 (length p)) (Nat.max 1 (short_read w conn p 4))).
  destruct (take got p) as [|b data] eqn:Htake; [reflexivity|].
  destruct (GpuServer.unpack_i (b :: data)) as [size|e]; [|reflexivity].
  destruct (compute size); [reflexivity|].
  assert (Hgot : got <> 0%nat) by (intros H0; rewrite H0 in Htake; discriminate).
  assert (Hless : (length (pending conn (sent conn [Byte.x01] (consumed conn got w)))
                   < length p)%nat).
  { unfold pending, sent, consumed. cbn [inbox set_trace set_inbox].
    rewrite list_lookup_insert_eq by (apply lookup_lt_Some in Hp; assumption).
    unfold pending. rewrite Hp. unfold default. cbn [from_option id].
    rewrite length_drop. lia. }
  unfold id in H1, H2. apply IH; lia.
Qed.

Lemma serve_loop_requests compute conn : forall (sizes : list Z) fuel w,
  inbox w !! conn = Some (concat (le_split 4 <$> sizes)) ->
  (forall p, (4 <= short_read w conn p 4)%nat) ->
  Forall (fun size => - 2 ^ 31 <= size < 2 ^ 31 /\ compute size = None) sizes ->
  (length sizes < fuel)%nat ->
  exists w',
    GpuServer.serve_loop compute fuel conn w = (Ok tt, w')
    /\ trace w' = trace w ++ flat_map (GpuServer.served conn) sizes
    /\ inbox w' !! conn = Some [].
Proof.
  induction sizes as [|size sizes IH]; intros fuel w Hp Hwhole Hall Hfuel.
  - destruct fuel as [|fuel]; [simpl in Hfuel; lia|].
    rewrite serve_loop_step, (recv_some _ _ _ _ Hp). simpl.
    eexists. split; [reflexivity|]. unfold consumed, pending. rewrite Hp.
    cbn [trace inbox set_trace set_inbox default take drop fmap list_fmap flat_map].
    rewrite ?app_nil_r. split; [reflexivity|].
    apply list_lookup_insert_eq. apply lookup_lt_Some in Hp. assumption.
  - destruct fuel as [|fuel]; [simpl in Hfuel; lia|].
    apply Forall_cons in Hall as [[Hrange Hc] Hall].
    rewrite fmap_cons in Hp. cbn [concat] in Hp.
    rewrite serve_loop_step, (recv_some _ _ _ _ Hp). cbv zeta.
    assert (Hgot : Nat.min (Nat.min 4 (length (le_split 4 size
                                                ++ concat (le_split 4 <$> sizes))))
                     (Nat.max 1 (short_read w conn
                                   (le_split 4 size ++ concat (le_split 4 <$> sizes)) 4))
                   = 4%nat).
    { rewrite length_app, length_le_split.
      specialize (Hwhole (le_split 4 size ++ concat (le_split 4 <$> sizes))). lia. }
    rewrite Hgot.
    rewrite (take_app_length' (le_split 4 size)) by (symmetry; apply length_le_split).
    destruct (le_split 4 size) as [|b data] eqn:Hsplit.
    { apply (f_equal (@length byte)) in Hsplit. rewrite length_le_split in Hsplit.
      discriminate. }
    rewrite <- Hsplit in *. rewrite unpack_i_split by assumption. rewrite Hc.
    destruct (IH fuel (sent conn [Byte.x01] (consumed conn 4 w)))
      as (w' & Hloop & Htr & Hin).
    + unfold sent, consumed, pending. rewrite Hp.
      cbn [inbox set_trace set_inbox default]. unfold id.
      rewrite (drop_app_length' (le_split 4 size)) by (symmetry; apply length_le_split).
      apply list_lookup_insert_eq. apply lookup_lt_Some in Hp. assumption.
    + intros p. apply Hwhole.
    + assumption.
    + simpl in Hfuel. lia.
    + exists w'. split; [exact Hloop|]. split; [|exact Hin].
      rewrite Htr. unfold sent, consumed, pending. rewrite Hp.
      cbn [trace set_trace set_inbox flat_map default]. unfold id.
      rewrite (take_app_length' (le_split 4 size)) by (symmetry; apply length_le_split).
      unfold GpuServer.served at 2. rewrite <- !app_assoc. reflexivity.
Qed.

(** X19: the GPU server acknowledges each request once.  On a connection
    where the requests pending are whole -- four bytes each, a size the
    computation accepts -- and no read is cut short, the connection loop
    reads the requests in order, answers each with the single byte 0x01
    before it reads the next, and ends normally when the peer has closed. *)
Theorem gpu_server_acknowledges
    (compute : Z -> option exn) (conn : nat) (sizes : list Z) (w : world) :
  inbox w !! conn = Some (concat (le_split 4 <$> sizes)) ->
  (forall p, (4 <= short_read w conn p 4)%nat) ->
  Forall (fun size => - 2 ^ 31 <= size < 2 ^ 31 /\ compute size = None) sizes ->
  exists w',
    GpuServer.serve_connection compute conn w = (Ok tt, w')
    /\ trace w' = trace w ++ flat_map (GpuServer.served conn) sizes
    /\ inbox w' !! conn = Some [].
Proof.
  intros Hp Hwhole Hall. unfold GpuServer.serve_connection.
  apply serve_loop_requests; try assumption.
  unfold pending. rewrite Hp. cbn [default]. unfold id.
  clear. induction sizes as [|size sizes IH]; [simpl; lia|].
  rewrite fmap_cons. cbn [concat length].
  rewrite length_app, length_le_split. lia.
Qed.

Lemma gpu_server_acknowledges_witness :
  exists w',
    GpuServer.serve_connection (fun _ => None) 0 three_requests = (Ok tt, w')
    /\ trace w' = trace three_requests ++ flat_map (GpuServer.served 0) [16; 256; 2]
    /\ inbox w' !! 0%nat = Some [].
Proof.
  apply (gpu_server_acknowledges (fun _ => None) 0 [16; 256; 2] three_requests).
  - reflexivity.
  - intros p. simpl. lia.
  - repeat constructor; lia.
Defined.

(** X20: the GPU server does not reassemble a request.  When a read returns
    fewer than the four bytes of a request -- the network delivered a part,
    or the peer closed in the middle -- [struct.unpack] raises
    [struct.error] out of the connection loop: the bytes read are dropped,
    no acknowledgement is sent, and what was still pending stays unread. *)
Theorem gpu_server_fragmented_request
    (compute : Z -> option exn) (conn : nat) (p : bytes) (w : world) :
  inbox w !! conn = Some p ->
  p <> [] ->
  (Nat.min (length p) (Nat.max 1 (short_read w conn p 4)) < 4)%nat ->
  GpuServer.serve_connection compute conn w
  = (Raise StructError,
     consumed conn (Nat.min (length p) (Nat.max 1 (short_read w conn p 4))) w).
Proof.
  intros Hp Hne Hshort. unfold GpuServer.serve_connection.
  rewrite serve_loop_step, (recv_some _ _ _ _ Hp). cbv zeta.
  replace (Nat.min (Nat.min 4 (length p)) (Nat.max 1 (short_read w conn p 4)))
    with (Nat.min (length p) (Nat.max 1 (short_read w conn p 4))) by lia.
  set (got := Nat.min (length p) (Nat.max 1 (short_read w conn p 4))) in *.
  assert (Hlen : length (take got p) = got) by (rewrite length_take; lia).
  destruct (take got p) as [|b data] eqn:Htake.
  - exfalso. destruct p as [|b p]; [congruence|].
    cbn [length] in Hlen, got. lia.
  - rewrite unpack_i_short by (rewrite Hlen; lia). reflexivity.
Qed.

Lemma gpu_server_fragmented_request_witness :
  GpuServer.serve_connection (fun _ => None) 0 fragmented
  = (Raise StructError,
     consumed 0 (Nat.min (length (le_split 4 256))
                   (Nat.max 1 (short_read fragmented 0 (le_split 4 256) 4)))
       fragmented).
Proof.
  apply (gpu_server_fragmented_request (fun _ => None) 0 (le_split 4 256) fragmented).
  - reflexivity.
  - discriminate.
  - simpl. lia.
Defined.

(** The request for a 256 x 256 product arrives in two halves: the first
    half alone is unpacked, and the server raises with the second unread. *)
Example gpu_server_two_halves :
  let w' := snd (GpuServer.serve_connection (fun _ => None) 0 fragmented) in
  fst (GpuServer.serve_connection (fun _ => None) 0 fragmented) = Raise StructError
  /\ trace w' = [Received 0 Byte.x00; Received 0 Byte.x01]
  /\ pending 0 w' = [Byte.x00; Byte.x00].
Proof. vm_compute. repeat split. Qed.
